(** * rpmdeplint: repository metadata cache and package header fetching

    A shallow embedding of [rpmdeplint/repodata.py] (classes [Cache] and
    [Repo]) together with the part of the operating system and of the Python
    runtime that the module talks to: a directory tree, the process
    environment, a clock, the [requests] session, [librepo] and [rpm].

    Conventions of the embedding.
    - Times ([time.time()], [st_mtime]) are whole seconds in [Z].
    - A path is the list of its components below the root directory.
    - A Python call that can raise returns an [outcome]; calls that touch the
      world run in the state-and-exception monad [Run].
    - Only exceptions deriving from [Exception] are modelled; permission bits
      are modelled for directories only (the read bit: may it be listed). *)

From stdpp Require Import gmap strings list fin_maps.
From Stdlib Require Import Ascii ZArith Lia.

Open Scope Z_scope.

(** ** Strings and paths *)

Module Text.

Definition slash : ascii := "/"%char.

(** [s.split(sep)] for a one-character separator. *)
Fixpoint split_at (sep : ascii) (s : string) : list string :=
  match s with
  | EmptyString => [EmptyString]
  | String c rest =>
      if Ascii.eqb c sep then EmptyString :: split_at sep rest
      else match split_at sep rest with
           | x :: xs => String c x :: xs
           | [] => [String c EmptyString]
           end
  end.

(** [os.path.basename]: what follows the last slash. *)
Definition basename (p : string) : string := List.last (split_at slash p) EmptyString.

Definition starts_with_slash (s : string) : bool :=
  match s with String c _ => Ascii.eqb c slash | EmptyString => false end.

Fixpoint ends_with_slash (s : string) : bool :=
  match s with
  | EmptyString => false
  | String c EmptyString => Ascii.eqb c slash
  | String _ rest => ends_with_slash rest
  end.

(** [os.path.join a b] of [posixpath], two arguments. *)
Definition join (a b : string) : string :=
  if starts_with_slash b then b
  else if bool_decide (a = EmptyString) || ends_with_slash a then a +:+ b
  else a +:+ "/" +:+ b.

(** [s[:1]] and [s[1:]]. *)
Definition first_letter (s : string) : string :=
  match s with EmptyString => EmptyString | String c _ => String c EmptyString end.
Definition after_first (s : string) : string :=
  match s with EmptyString => EmptyString | String _ rest => rest end.

Definition is_hex_digit (c : ascii) : bool :=
  let n := N.of_nat (nat_of_ascii c) in
  ((48 <=? n) && (n <=? 57) || (97 <=? n) && (n <=? 102) || (65 <=? n) && (n <=? 70))%N.

Fixpoint is_hex (s : string) : bool :=
  match s with
  | EmptyString => true
  | String c rest => is_hex_digit c && is_hex rest
  end.

Definition lower_ascii (c : ascii) : ascii :=
  let n := nat_of_ascii c in
  if ((65 <=? n) && (n <=? 90))%nat then ascii_of_nat (n + 32) else c.

(** [s.lower()] on ASCII text. *)
Fixpoint lower (s : string) : string :=
  match s with
  | EmptyString => EmptyString
  | String c rest => String (lower_ascii c) (lower rest)
  end.

(** [s.replace(old, new)] for a non-empty [old]: leftmost occurrences,
    not overlapping. [skip] counts the characters of a match still to be
    dropped. *)
Fixpoint replace_from (old new : string) (skip : nat) (s : string) : string :=
  match s with
  | EmptyString => EmptyString
  | String c rest =>
      match skip with
      | S k => replace_from old new k rest
      | O =>
          if String.prefix old s
          then new +:+ replace_from old new (Nat.pred (String.length old)) rest
          else String c (replace_from old new 0 rest)
      end
  end.

Definition replace (old new s : string) : string := replace_from old new 0 s.

(** [float(s)] on the texts that denote whole seconds: an optional sign and
    decimal digits.  [None] is [ValueError].  Texts with a fraction, an
    exponent or blanks denote times the model does not have; nothing below is
    stated about them. *)
Fixpoint digits (acc : Z) (s : string) : option Z :=
  match s with
  | EmptyString => Some acc
  | String c rest =>
      let n := Z.of_nat (nat_of_ascii c) in
      if (48 <=? n) && (n <=? 57) then digits (10 * acc + (n - 48)) rest else None
  end.

Definition float (s : string) : option Z :=
  match s with
  | EmptyString => None
  | String "-" (String _ _ as rest) => Z.opp <$> digits 0 rest
  | String "+" (String _ _ as rest) => digits 0 rest
  | _ => digits 0 s
  end.

End Text.

(** A path below the root, component by component. *)
Abbreviation Path := (list string).

Module PurePath.

(** [pathlib.PurePath(s)]: empty and [.] components vanish.  Relative
    texts are read from the root. *)
Definition of_string (s : string) : Path :=
  filter (λ c, c ≠ EmptyString ∧ c ≠ "."%string) (Text.split_at Text.slash s).

(** [p / s]: a text with a leading slash starts again from the root. *)
Definition div (p : Path) (s : string) : Path :=
  if Text.starts_with_slash s then of_string s else p ++ of_string s.

(** [p.parent] and [p.name]. *)
Definition parent (p : Path) : Path := removelast p.
Definition name (p : Path) : string := List.last p EmptyString.

End PurePath.

Infix "/:" := PurePath.div (at level 40, left associativity).

(** ** Python exceptions *)

Module Py.

Variant errno :=
  ENOENT | EISDIR | ENOTDIR | EEXIST | EACCES | ENXIO | EINVAL | ENOTEMPTY.

#[global] Instance errno_eq_dec : EqDecision errno.
Proof. solve_decision. Defined.

(** The exception classes the module raises, catches or lets through.
    [FileNotFoundError] is [OSError ENOENT], [IsADirectoryError] is
    [OSError EISDIR], [NotADirectoryError] is [OSError ENOTDIR],
    [FileExistsError] is [OSError EEXIST], [PermissionError] is
    [OSError EACCES]. *)
Inductive exn :=
| OSError (e : errno)
| RequestException (info : string)   (* requests.exceptions (connection, status): IOError *)
| OtherException (info : string)     (* any other class, such as urllib3.exceptions *)
| ValueError (msg : string)
| RuntimeError (msg : string)
| AttributeError (msg : string)
| RepoDownloadError (msg : string) (cause : exn)
| PackageDownloadError (msg : string).

(** [isinstance(e, OSError)]; [IOError] is an alias of [OSError]. *)
Definition is_OSError (e : exn) : bool :=
  match e with OSError _ | RequestException _ => true | _ => false end.

(** [isinstance(e, FileNotFoundError)]. *)
Definition is_FileNotFoundError (e : exn) : bool :=
  match e with OSError ENOENT => true | _ => false end.

Variant outcome (A : Type) :=
| Return (a : A)
| Raise (e : exn).
Arguments Return {A} a.
Arguments Raise {A} e.

(** What a system call gives back: a value or [errno]. *)
Definition sys (A : Type) : Type := errno + A.

Definition of_sys {A} (r : sys A) : outcome A :=
  match r with inr a => Return a | inl e => Raise (OSError e) end.

End Py.
Export Py.

(** ** The directory tree *)

Module Posix.

Abbreviation bytes := (list Byte.byte).

#[warnings="-register-all"] Inductive node :=
| File (data : bytes) (mtime : Z)
| Socket
| Dir (readable : bool) (kids : gmap string node).

(** [stat(2)] along a path, following no links. *)
Fixpoint stat (p : Path) (t : node) : sys node :=
  match p with
  | [] => inr t
  | c :: rest =>
      match t with
      | Dir _ kids =>
          match kids !! c with
          | Some sub => stat rest sub
          | None => inl ENOENT
          end
      | _ => inl ENOTDIR
      end
  end.

(** Replace the node found at [p]; a path that leads nowhere changes
    nothing. *)
Fixpoint graft (p : Path) (n : node) (t : node) : node :=
  match p with
  | [] => n
  | c :: rest =>
      match t with
      | Dir r kids => Dir r (alter (graft rest n) c kids)
      | _ => t
      end
  end.

(** Rewrite one directory entry: [f] sees what the name [PurePath.name p]
    denotes in the directory [PurePath.parent p] (nothing, or a node) and
    says what it denotes afterwards. *)
Definition at_entry (p : Path) (f : option node → sys (option node)) (t : node) : sys node :=
  match p with
  | [] => inl EINVAL
  | _ =>
      match stat (PurePath.parent p) t with
      | inr (Dir r kids) =>
          match f (kids !! PurePath.name p) with
          | inr o => inr (graft (PurePath.parent p)
                                (Dir r (partial_alter (λ _, o) (PurePath.name p) kids)) t)
          | inl e => inl e
          end
      | inr _ => inl ENOTDIR
      | inl e => inl e
      end
  end.

(** [open(p, "rb")] followed by reading everything. *)
Definition open_rb (p : Path) (t : node) : sys bytes :=
  match stat p t with
  | inr (File data _) => inr data
  | inr (Dir _ _) => inl EISDIR
  | inr Socket => inl ENXIO
  | inl e => inl e
  end.

(** [os.open(p, O_RDWR | O_CREAT | O_EXCL)] at time [now]. *)
Definition create_excl (now : Z) (p : Path) : node → sys node :=
  at_entry p (λ o, match o with
                   | None => inr (Some (File [] now))
                   | Some _ => inl EEXIST
                   end).

(** [write(2)] of [chunk] at the end of the file. *)
Definition append (now : Z) (p : Path) (chunk : bytes) : node → sys node :=
  at_entry p (λ o, match o with
                   | Some (File data _) => inr (Some (File (data ++ chunk) now))
                   | Some (Dir _ _) => inl EISDIR
                   | Some Socket => inl ENXIO
                   | None => inl ENOENT
                   end).

(** [os.utime(fd)]: both times become [now]. *)
Definition utime (now : Z) (p : Path) : node → sys node :=
  at_entry p (λ o, match o with
                   | Some (File data _) => inr (Some (File data now))
                   | Some other => inr (Some other)
                   | None => inl ENOENT
                   end).

(** [os.unlink]. *)
Definition unlink (p : Path) : node → sys node :=
  at_entry p (λ o, match o with
                   | Some (Dir _ _) => inl EISDIR
                   | Some _ => inr None
                   | None => inl ENOENT
                   end).

(** [os.rename(src, dst)]: one step; a file cannot replace a directory
    nor a directory a file. *)
Definition rename (src dst : Path) (t : node) : sys node :=
  match stat src t with
  | inr moved =>
      if decide (src = dst) then inr t
      else
        match at_entry dst (λ o, match o, moved with
                                 | Some (Dir _ k), Dir _ _ =>
                                     if decide (k = ∅) then inr (Some moved) else inl ENOTEMPTY
                                 | Some (Dir _ _), _ => inl EISDIR
                                 | Some _, Dir _ _ => inl ENOTDIR
                                 | _, _ => inr (Some moved)
                                 end) t with
        | inr t' => at_entry src (λ _, inr None) t'
        | inl e => inl e
        end
  | inl e => inl e
  end.

(** [Path.mkdir(parents=True, exist_ok=True)]. *)
Fixpoint mkdir_p (p : Path) (t : node) : sys node :=
  match p, t with
  | [], Dir _ _ => inr t
  | [], _ => inl EEXIST
  | c :: rest, Dir r kids =>
      match mkdir_p rest (default (Dir true ∅) (kids !! c)) with
      | inr sub => inr (Dir r (<[c := sub]> kids))
      | inl e => inl e
      end
  | _ :: _, _ => inl ENOTDIR
  end.

(** What [shutil.rmtree(..., ignore_errors=True)] leaves of a node: a
    directory that cannot be opened for reading stays as it is, and so
    does every directory above it. *)
Fixpoint rmtree_node (n : node) : option node :=
  match n with
  | Dir true kids =>
      let left := omap rmtree_node kids in
      if decide (left = ∅) then None else Some (Dir true left)
  | Dir false _ => Some n
  | _ => None
  end.

(** [shutil.rmtree(p, ignore_errors=True)]: never raises. *)
Definition rmtree_ignore_errors (p : Path) (t : node) : node :=
  match at_entry p (λ o, inr (o ≫= rmtree_node)) t with
  | inr t' => t'
  | inl _ => t
  end.

(** [Path.is_dir()] and [Path.is_file()]: false when [stat] fails. *)
Definition is_dir (p : Path) (t : node) : bool :=
  match stat p t with inr (Dir _ _) => true | _ => false end.
Definition is_file (p : Path) (t : node) : bool :=
  match stat p t with inr (File _ _) => true | _ => false end.

(** [Path.stat().st_mtime]; directories and sockets have no time in the
    model and report 0. *)
Definition st_mtime (p : Path) (t : node) : sys Z :=
  match stat p t with
  | inr (File _ m) => inr m
  | inr _ => inr 0
  | inl e => inl e
  end.

(** [Path.iterdir()]: the names in the directory, in the order [order]
    gives them; listing needs the read bit. *)
Definition iterdir (order : list string → list string) (p : Path) (t : node)
  : sys (list Path) :=
  match stat p t with
  | inr (Dir true kids) => inr ((λ c, p ++ [c]) <$> order (map_to_list kids).*1)
  | inr (Dir false _) => inl EACCES
  | inr _ => inl ENOTDIR
  | inl e => inl e
  end.

(** The bytes behind an open descriptor of the file now named [p]. *)
Definition contents (p : Path) (t : node) : bytes :=
  match stat p t with inr (File data _) => data | _ => [] end.

End Posix.
Export Posix.

(** ** The world around the module *)

Module World.

(** A streamed HTTP response: the chunks that arrive, and the exception
    (from [get], [raise_for_status] or the stream) that ends it early. *)
Record response := Response {
  body : list bytes;
  failure : option exn;
}.

(** What [librepo.download_packages] reports for one target: the bytes it
    saved under [dest], or the text of [target.err]. *)
Variant download_result :=
| Saved (data : bytes)
| Err (err : string).

(** [configparser.RawConfigParser] after [read]: option names are in
    lower case, sections in order of appearance. *)
Record RawConfigParser := Config {
  defaults : gmap string string;
  sections : list (string * gmap string string);
}.

(** Everything the module reads but does not change. *)
Record host := Host {
  environ : gmap string string;                       (* os.environ *)
  home : Path;                                        (* Path.home() *)
  listdir_order : list string → list string;          (* order of os.listdir *)
  http_get : list string → string → response;         (* requests_session.get, after the earlier requests *)
  hdrFromFdno : bytes → bool;                         (* rpm parses a header from these bytes *)
  librepo_download : string → string → Z → download_result;  (* location, base_url, byterangeend *)
  dnf : option (list (string * string) * string);     (* Conf().substitutions, detect_releasever *)
  yum_config : RawConfigParser;                       (* /etc/yum.conf and /etc/yum.repos.d *)
}.

(** Everything that changes. [trail] keeps every earlier state of the
    tree, newest first: what another process could have seen. *)
Record state := State {
  clock : Z;
  fs : node;
  trail : list node;
  tmp_names : list string;          (* what tempfile's name generator yields next *)
  http_log : list string;           (* URLs requested, newest first *)
  librepo_log : list Z;             (* byterangeend of each download, newest first *)
}.

Definition put_fs (t : node) (w : state) : state :=
  State (clock w) t (fs w :: trail w) (tmp_names w) (http_log w) (librepo_log w).
Definition put_tmp_names (l : list string) (w : state) : state :=
  State (clock w) (fs w) (trail w) l (http_log w) (librepo_log w).
Definition log_http (url : string) (w : state) : state :=
  State (clock w) (fs w) (trail w) (tmp_names w) (url :: http_log w) (librepo_log w).
Definition log_librepo (byterangeend : Z) (w : state) : state :=
  State (clock w) (fs w) (trail w) (tmp_names w) (http_log w) (byterangeend :: librepo_log w).
Definition at_time (now : Z) (w : state) : state :=
  State now (fs w) (trail w) (tmp_names w) (http_log w) (librepo_log w).

(** State and exceptions. *)
Definition Run (A : Type) : Type := state → state * outcome A.

#[global] Instance Run_ret : MRet Run := λ A a w, (w, Return a).
#[global] Instance Run_bind : MBind Run := λ A B k m w,
  match m w with
  | (w', Return a) => k a w'
  | (w', Raise e) => (w', Raise e)
  end.

Definition raise {A} (e : exn) : Run A := λ w, (w, Raise e).
Definition lift {A} (o : outcome A) : Run A := λ w, (w, o).
Definition time : Run Z := λ w, (w, Return (clock w)).
Definition get_fs : Run node := λ w, (w, Return (fs w)).

(** A system call that reads the tree. *)
Definition reading {A} (call : node → sys A) : Run A :=
  λ w, (w, of_sys (call (fs w))).

(** A system call that changes the tree. *)
Definition writing (call : node → sys node) : Run unit :=
  λ w, match call (fs w) with
       | inr t => (put_fs t w, Return tt)
       | inl e => (w, Raise (OSError e))
       end.

(** [try: m except cls as e: handler e], for the classes [cls] accepts. *)
Definition try_except {A} (m : Run A) (cls : exn → bool) (handler : exn → Run A) : Run A :=
  λ w, match m w with
       | (w', Raise e) => if cls e then handler e w' else (w', Raise e)
       | r => r
       end.

(** [isinstance(e, Exception)]: every modelled exception. *)
Definition Exception (e : exn) : bool := true.

(** [for x in l: body x]. *)
Fixpoint for_each {A} (l : list A) (body : A → Run unit) : Run unit :=
  match l with
  | [] => mret tt
  | x :: rest => body x ;; for_each rest body
  end.

(** [tempfile.mkstemp(dir=dir)]: the first generated name that is free;
    [FileExistsError] when the generator gives up. *)
Fixpoint mkstemp_from (names : list string) (dir : Path) : Run Path :=
  match names with
  | [] => raise (OSError EEXIST)
  | n :: rest =>
      λ w, let temp_path := dir ++ ["tmp" +:+ n] in
           match create_excl (clock w) temp_path (fs w) with
           | inr t => (put_fs t (put_tmp_names rest w), Return temp_path)
           | inl EEXIST => mkstemp_from rest dir (put_tmp_names rest w)
           | inl e => (put_tmp_names rest w, Raise (OSError e))
           end
  end.

Definition mkstemp (dir : Path) : Run Path := λ w, mkstemp_from (tmp_names w) dir w.

(** [requests_session.get(url, stream=True)], noted in the log. *)
Definition requests_get (h : host) (url : string) : Run response :=
  λ w, (log_http url w, Return (http_get h (http_log w) url)).

End World.
Export World.

(** ** class Cache *)

Module Cache.
Section Cache.

Context (h : host).

(** [os.getenv(name)]. *)
Definition getenv (name : string) : option string := environ h !! name.

Definition base_path : Path :=
  let default_cache_home := home h /: ".cache" in
  match getenv "XDG_CACHE_HOME" with
  | Some dir => PurePath.of_string dir
  | None => default_cache_home
  end /: "rpmdeplint".

Definition entry_path (checksum : string) : Path :=
  base_path /: Text.first_letter checksum /: Text.after_first checksum.

(** [float(getenv("RPMDEPLINT_EXPIRY_SECONDS", 604800))]. *)
Definition expiry_seconds : outcome Z :=
  match getenv "RPMDEPLINT_EXPIRY_SECONDS" with
  | None => Return 604800
  | Some text =>
      match Text.float text with
      | Some seconds => Return seconds
      | None => Raise (ValueError ("could not convert string to float: " +:+ text))
      end
  end.

Definition clean : Run unit :=
  now ← time;
  window ← lift expiry_seconds;
  let expiry_time := now - window in
  root ← get_fs;
  if negb (is_dir base_path root) then mret tt (* nothing to do *)
  else
    subdirs ← reading (iterdir (listdir_order h) base_path);
    for_each subdirs (λ subdir,
      t ← get_fs;
      if negb (is_dir subdir t) then mret tt
      else
        entries ← reading (iterdir (listdir_order h) subdir);
        for_each entries (λ entry,
          t ← get_fs;
          if negb (is_file entry t) then mret tt
          else
            mtime ← reading (st_mtime entry);
            if mtime <? expiry_time then writing (unlink entry) else mret tt)).

(** The body of the inner [try]: request, status check, streaming the
    chunks into the temporary file, closing the response. *)
Definition stream_to (temp_path : Path) (url : string) : Run unit :=
  response ← requests_get h url;
  for_each (body response) (λ chunk,
    now ← time; writing (append now temp_path chunk)) ;;
  match failure response with
  | Some e => raise e
  | None => mret tt
  end.

Definition download_repodata_file (checksum url : string) : Run bytes :=
  let filepath_in_cache := entry_path checksum in
  root ← get_fs;
  match open_rb filepath_in_cache root with
  | inr _ =>
      (* Bump the modtime on the cache file we are using. *)
      now ← time;
      writing (utime now filepath_in_cache) ;;
      t ← get_fs;
      mret (contents filepath_in_cache t)
  | inl e =>
      (if decide (e = ENOENT) then mret tt
       else if decide (e = EISDIR)
            then λ w, (put_fs (rmtree_ignore_errors filepath_in_cache (fs w)) w, Return tt)
            else raise (OSError e)) ;;
      writing (mkdir_p (PurePath.parent filepath_in_cache)) ;;
      temp_path ← mkstemp (PurePath.parent filepath_in_cache) ;
      (* os.fdopen on the fresh descriptor does not fail in the model *)
      try_except
        (try_except (stream_to temp_path url) is_OSError
           (λ e, raise (RepoDownloadError
                          ("Failed to download repodata file " +:+ Text.basename url) e)) ;;
         (* flush, seek(0), fchmod: no effect on what the model keeps *)
         writing (rename temp_path filepath_in_cache) ;;
         t ← get_fs;
         mret (contents filepath_in_cache t))
        Exception
        (λ e, writing (unlink temp_path) ;; raise e)
  end.

End Cache.
End Cache.

(** ** class Repo *)

Module Repo.

(** [librepo.Handle], as far as the module reads it. *)
Record Handle := { local : bool }.

Record t := Make {
  name : string;
  baseurl : option string;
  metalink : option string;
  skip_if_unavailable : bool;
  librepo_handle : option Handle;
  _root_path : option string;      (* unset until download_repodata has run *)
}.

(** Truth value of an optional text: [None] and the empty text are false. *)
Definition truthy (o : option string) : bool :=
  match o with
  | Some s => negb (bool_decide (s = EmptyString))
  | None => false
  end.

(** [Repo.__init__]. *)
Definition __init__ (repo_name : string) (baseurl metalink : option string)
    (skip_if_unavailable : bool) : outcome t :=
  if negb (truthy baseurl) && negb (truthy metalink)
  then Raise (RuntimeError "Must specify either baseurl or metalink for repo")
  else Return (Make repo_name baseurl metalink skip_if_unavailable None None).

(** [d[key] = value] on a dict kept in insertion order. *)
Fixpoint dict_set (key value : string) (d : list (string * string)) : list (string * string) :=
  match d with
  | [] => [(key, value)]
  | (k, v) :: rest =>
      if bool_decide (k = key) then (k, value) :: rest else (k, v) :: dict_set key value rest
  end.

(** [RawConfigParser.has_option], [get] and [getboolean] on a section that
    exists, given by its own options. *)
Definition has_option (config : RawConfigParser) (options : gmap string string)
    (option : string) : bool :=
  bool_decide (is_Some (options !! option)) || bool_decide (is_Some (defaults config !! option)).

Definition get (config : RawConfigParser) (options : gmap string string)
    (option : string) : string :=
  match options !! option with
  | Some v => v
  | None => default EmptyString (defaults config !! option)
  end.

Definition convert_to_boolean (value : string) : outcome bool :=
  let v := Text.lower value in
  if bool_decide (v ∈ ["1"; "yes"; "true"; "on"]%string) then Return true
  else if bool_decide (v ∈ ["0"; "no"; "false"; "off"]%string) then Return false
  else Raise (ValueError ("Not a boolean: " +:+ value)).

Definition getboolean (config : RawConfigParser) (options : gmap string string)
    (option : string) : outcome bool :=
  convert_to_boolean (get config options option).

Definition substitute_yumvars (s : string) (_yumvars : list (string * string)) : string :=
  fold_left (λ s '(name, value), Text.replace ("$" +:+ name) value s) _yumvars s.

Definition no_source_message (section : string) : string :=
  "Yum config section " +:+ section +:+ " has no baseurl or metalink or mirrorlist".

Section Repo.

Context (h : host).

Definition get_yumvars : list (string * string) :=
  match dnf h with
  | Some (subst, releasever) => dict_set "releasever" releasever subst
  | None =>
      (* Probably not going to work but there's not much else we can do... *)
      [("arch", "$arch"); ("basearch", "$basearch"); ("releasever", "$releasever")]%string
  end.

(** One turn of the loop of [from_yum_config]: [Return None] is
    [continue], [Return (Some r)] is [yield r]. *)
Definition from_section (config : RawConfigParser) (yumvars : list (string * string))
    (section : string) (options : gmap string string) : outcome (option t) :=
  if bool_decide (section = "main"%string) then Return None
  else
    match (if has_option config options "enabled"
           then getboolean config options "enabled" else Return true) with
    | Raise e => Raise e
    | Return false => Return None
    | Return true =>
        match (if has_option config options "skip_if_unavailable"
               then getboolean config options "skip_if_unavailable" else Return false) with
        | Raise e => Raise e
        | Return skip_if_unavailable =>
            if has_option config options "baseurl" then
              let baseurl := substitute_yumvars (get config options "baseurl") yumvars in
              match __init__ section (Some baseurl) None skip_if_unavailable with
              | Return r => Return (Some r) | Raise e => Raise e end
            else if has_option config options "metalink" then
              let metalink := substitute_yumvars (get config options "metalink") yumvars in
              match __init__ section None (Some metalink) skip_if_unavailable with
              | Return r => Return (Some r) | Raise e => Raise e end
            else if has_option config options "mirrorlist" then
              let mirrorlist := substitute_yumvars (get config options "mirrorlist") yumvars in
              match __init__ section None (Some mirrorlist) skip_if_unavailable with
              | Return r => Return (Some r) | Raise e => Raise e end
            else Raise (ValueError (no_source_message section))
        end
    end.

(** Running a generator to its end: what it yielded, and how it ended. *)
Fixpoint generate (config : RawConfigParser) (yumvars : list (string * string))
    (todo : list (string * gmap string string)) : list t * outcome unit :=
  match todo with
  | [] => ([], Return tt)
  | (section, options) :: rest =>
      match from_section config yumvars section options with
      | Raise e => ([], Raise e)
      | Return None => generate config yumvars rest
      | Return (Some r) =>
          let '(yielded, ending) := generate config yumvars rest in (r :: yielded, ending)
      end
  end.

Definition from_yum_config : list t * outcome unit :=
  let yumvars := get_yumvars in
  let config := yum_config h in
  generate config yumvars (sections config).

(** [Repo._is_header_complete]. *)
Definition _is_header_complete (local_path : string) : Run bool :=
  try_except
    (data ← reading (open_rb (PurePath.of_string local_path));
     (* ts.hdrFromFdno(f) returns, or raises rpm.error *)
     mret (hdrFromFdno h data))
    is_FileNotFoundError
    (λ _, mret false).

(** [librepo.download_packages([target])] for a target with
    [byterangestart=0]: the result is [target.err]. *)
Definition download_packages (location base_url dest : string) (byterangeend : Z)
  : Run (option string) :=
  λ w,
    let w1 := log_librepo byterangeend w in
    match librepo_download h location base_url byterangeend with
    | Err err => (w1, Return (Some err))
    | Saved data =>
        let local_path := Text.join dest (Text.basename location) in
        match at_entry (PurePath.of_string local_path)
                (λ o, match o with
                      | Some (Dir _ _) => inl EISDIR
                      | _ => inr (Some (File data (clock w)))
                      end) (fs w) with
        | inr t => (put_fs t w1, Return None)
        | inl _ => (w1, Return (Some ("Cannot open " +:+ local_path)))
        end
    end.

Definition download_failed_message (self : t) (location err : string) : string :=
  "Failed to download " +:+ location +:+ " from repo " +:+ name self +:+ ": " +:+ err.

(** The [for byterangeend in ...] loop; [target_local_path] is
    [target.local_path], the same for every target. *)
Fixpoint probe (self : t) (location base_url dest : string) (ceilings : list Z) : Run string :=
  let target_local_path := Text.join dest (Text.basename location) in
  match ceilings with
  | [] => mret target_local_path
  | byterangeend :: rest =>
      target_err ← download_packages location base_url dest byterangeend;
      if truthy target_err && negb (bool_decide (target_err = Some "Already downloaded"%string))
      then raise (PackageDownloadError
                    (download_failed_message self location (default EmptyString target_err)))
      else
        complete ← _is_header_complete target_local_path;
        if complete : bool then mret target_local_path (* break *)
        else probe self location base_url dest rest
  end.

Definition download_package_header (self : t) (location baseurl : string) : Run string :=
  match _root_path self with
  | None => raise (AttributeError "'Repo' object has no attribute '_root_path'")
  | Some root =>
      let local_path := Text.join root (Text.basename location) in
      if match librepo_handle self with Some handle => local handle | None => false end
      then mret local_path
      else
        (* Check if we already downloaded this file and return it if so. *)
        complete ← _is_header_complete local_path;
        if complete : bool then mret local_path
        else probe self location baseurl root [100000; 1000000; 5000000; 0]
  end.

End Repo.
End Repo.

(** ** Python values *)

Module Python.

Definition quote : ascii := "039"%char.
Definition double_quote : ascii := "034"%char.
Definition backslash : ascii := "092"%char.

(** [c in s] for a character [c]. *)
Fixpoint contains (c : ascii) (s : string) : bool :=
  match s with
  | EmptyString => false
  | String a rest => Ascii.eqb a c || contains c rest
  end.

Definition hex_digit (n : nat) : ascii :=
  default "0"%char (String.get n "0123456789abcdef").

(** One character of [repr(s)], inside the quotes [q]. *)
Definition repr_char (q c : ascii) : string :=
  let n := nat_of_ascii c in
  if Ascii.eqb c q || Ascii.eqb c backslash then String backslash (String c EmptyString)
  else if Ascii.eqb c "009" then String backslash "t"
  else if Ascii.eqb c "010" then String backslash "n"
  else if Ascii.eqb c "013" then String backslash "r"
  else if (n <? 32)%nat || (n =? 127)%nat
       then String backslash
              (String "x" (String (hex_digit (n / 16))
                             (String (hex_digit (n mod 16)) EmptyString)))
       else String c EmptyString.

Fixpoint repr_body (q : ascii) (s : string) : string :=
  match s with
  | EmptyString => EmptyString
  | String c rest => repr_char q c +:+ repr_body q rest
  end.

(** [repr(s)] of a text, which [!r] in a format string gives: single
    quotes, unless the text has a single quote and no double quote; the
    quote, the backslash and the control characters escaped.  Texts are
    ASCII; a byte above 127 stands for itself. *)
Definition repr (s : string) : string :=
  let q := if contains quote s && negb (contains double_quote s)
           then double_quote else quote in
  String q (repr_body q s +:+ String q EmptyString).

(** The values that [librepo] hands over in [rpmmd_repomd]. *)
#[warnings="-register-all"] Inductive value :=
| NoneValue
| Str (s : string)
| Int (n : Z)
| List (items : list value)
| Dict (items : gmap string value).

(** Truth value: [None], zero and the empty text, list and dict are false. *)
Definition truth (v : value) : bool :=
  match v with
  | NoneValue => false
  | Str s => negb (bool_decide (s = EmptyString))
  | Int n => negb (n =? 0)
  | List items => negb (bool_decide (length items = 0%nat))
  | Dict items => negb (bool_decide (size items = 0%nat))
  end.

(** [v[key]] for a text [key]: [KeyError] when a dict has no such key,
    [TypeError] when [v] is no dict. *)
Definition getitem (v : value) (key : string) : outcome value :=
  match v with
  | Dict items =>
      match items !! key with
      | Some x => Return x
      | None => Raise (OtherException "KeyError")
      end
  | _ => Raise (OtherException "TypeError")
  end.

(** A value used where a text is needed ([os.path.join], a checksum that is
    sliced and joined to a path): anything else raises, [TypeError] in
    nearly every case. *)
Definition text (v : value) : outcome string :=
  match v with
  | Str s => Return s
  | _ => Raise (OtherException "TypeError")
  end.

End Python.

(** ** librepo *)

Module Librepo.

(** [librepo.Handle]: the attributes that [download_repodata] sets to
    something that varies ([repotype], [interruptible] and [yumdlist] are
    constants). *)
Record Handle := MakeHandle {
  urls : list string;
  metalinkurl : option string;
  destdir : option string;
}.

(** How [Handle.perform] ends: with a result, of which the module reads
    [rpmmd_repomd], or with [LibrepoException], of which it reads
    [args[1]]. *)
Variant performed :=
| Result (rpmmd_repomd : Python.value)
| LibrepoException (msg : string).

(** What the library does, as far as the module can tell: the value of
    [Handle.local], and what [perform] leaves in the tree and gives back. *)
Record t := Library {
  local : Handle → bool;
  perform : Handle → node → node * performed;
}.

End Librepo.

(** ** os and tempfile *)

Module Os.

(** [os.mkdir]. *)
Definition mkdir (p : Path) (t : node) : sys node :=
  match p with
  | [] => inl EEXIST
  | _ => at_entry p (λ o, match o with
                          | None => inr (Some (Dir true ∅))
                          | Some _ => inl EEXIST
                          end) t
  end.

End Os.

Module Tempfile.

(** [tempfile.mkdtemp(suffix, prefix, dir)]: the first generated name that
    is free; the names come from the generator that [mkstemp] uses. *)
Fixpoint mkdtemp_from (names : list string) (suffix prefix dir : string) : Run string :=
  match names with
  | [] => raise (OSError EEXIST)
  | n :: rest =>
      λ w, let file := Text.join dir (prefix +:+ n +:+ suffix) in
           match Os.mkdir (PurePath.of_string file) (fs w) with
           | inr t => (put_fs t (put_tmp_names rest w), Return file)
           | inl EEXIST => mkdtemp_from rest suffix prefix dir (put_tmp_names rest w)
           | inl e => (put_tmp_names rest w, Raise (OSError e))
           end
  end.

Definition mkdtemp (suffix prefix dir : string) : Run string :=
  λ w, mkdtemp_from (tmp_names w) suffix prefix dir w.

End Tempfile.

(** ** class Repo: the object and its repodata *)

Module RepoObj.

Import Python.

Definition REPO_CACHE_DIR : string := Text.join (Text.join "/" "var") "tmp".
Definition REPO_CACHE_NAME_PREFIX : string := "rpmdeplint-".

(** A [Repo] object with all its attributes.  [primary] and [filelists]
    are unset until [download_repodata] assigns them; an open file is kept
    as the bytes it reads. *)
Record t := Make {
  name : string;
  baseurl : option string;
  metalink : option string;
  skip_if_unavailable : bool;
  librepo_handle : option Librepo.Handle;
  _rpmmd_repomd : value;
  _root_path : option string;
  primary : option bytes;
  filelists : option bytes;
}.

(** The object that [__init__] leaves. *)
Definition of_init (r : Repo.t) : t :=
  Make (Repo.name r) (Repo.baseurl r) (Repo.metalink r) (Repo.skip_if_unavailable r)
       None NoneValue (Repo._root_path r) None None.

(** Assignments to attributes. *)
Definition set_librepo_handle (x : option Librepo.Handle) (self : t) : t :=
  Make (name self) (baseurl self) (metalink self) (skip_if_unavailable self)
       x (_rpmmd_repomd self) (_root_path self) (primary self) (filelists self).
Definition set__rpmmd_repomd (x : value) (self : t) : t :=
  Make (name self) (baseurl self) (metalink self) (skip_if_unavailable self)
       (librepo_handle self) x (_root_path self) (primary self) (filelists self).
Definition set__root_path (x : option string) (self : t) : t :=
  Make (name self) (baseurl self) (metalink self) (skip_if_unavailable self)
       (librepo_handle self) (_rpmmd_repomd self) x (primary self) (filelists self).
Definition set_primary (x : option bytes) (self : t) : t :=
  Make (name self) (baseurl self) (metalink self) (skip_if_unavailable self)
       (librepo_handle self) (_rpmmd_repomd self) (_root_path self) x (filelists self).
Definition set_filelists (x : option bytes) (self : t) : t :=
  Make (name self) (baseurl self) (metalink self) (skip_if_unavailable self)
       (librepo_handle self) (_rpmmd_repomd self) (_root_path self) (primary self) x.

Definition set_urls (x : list string) (hd : Librepo.Handle) : Librepo.Handle :=
  Librepo.MakeHandle x (Librepo.metalinkurl hd) (Librepo.destdir hd).
Definition set_metalinkurl (x : option string) (hd : Librepo.Handle) : Librepo.Handle :=
  Librepo.MakeHandle (Librepo.urls hd) x (Librepo.destdir hd).
Definition set_destdir (x : option string) (hd : Librepo.Handle) : Librepo.Handle :=
  Librepo.MakeHandle (Librepo.urls hd) (Librepo.metalinkurl hd) x.

(** [Repo.__repr__]. *)
Definition __repr__ (self : t) : string :=
  if Repo.truthy (baseurl self) then
    "Repo(repo_name=" +:+ repr (name self) +:+ ", baseurl="
      +:+ repr (default EmptyString (baseurl self)) +:+ ")"
  else if Repo.truthy (metalink self) then
    "Repo(repo_name=" +:+ repr (name self) +:+ ", metalink="
      +:+ repr (default EmptyString (metalink self)) +:+ ")"
  else "Repo(repo_name=" +:+ repr (name self) +:+ ")".

(** The properties. *)
Definition repomd (self : t) : outcome value :=
  if negb (truth (_rpmmd_repomd self)) then Raise (RuntimeError "_rpmmd_repomd is not set")
  else Return (_rpmmd_repomd self).

(** [self.repomd["records"][record][field]]. *)
Definition record_field (self : t) (record field : string) : outcome value :=
  match repomd self with
  | Raise e => Raise e
  | Return v =>
      match getitem v "records" with
      | Raise e => Raise e
      | Return records =>
          match getitem records record with
          | Raise e => Raise e
          | Return fields => getitem fields field
          end
      end
  end.

(** [os.path.join(self.baseurl, self.repomd["records"][record]["location_href"])]. *)
Definition record_url (self : t) (record : string) : outcome string :=
  if negb (Repo.truthy (baseurl self)) then Raise (RuntimeError "baseurl not specified")
  else
    match record_field self record "location_href" with
    | Raise e => Raise e
    | Return href =>
        match text href with
        | Raise e => Raise e
        | Return s => Return (Text.join (default EmptyString (baseurl self)) s)
        end
    end.

Definition primary_url (self : t) : outcome string := record_url self "primary".
Definition primary_checksum (self : t) : outcome value := record_field self "primary" "checksum".
Definition filelists_checksum (self : t) : outcome value :=
  record_field self "filelists" "checksum".
Definition filelists_url (self : t) : outcome string := record_url self "filelists".

(** A method: it runs in the world and may assign to [self]; what it
    assigned stays when it raises. *)
Definition Method (A : Type) : Type := t → state → t * state * outcome A.

#[global] Instance Method_ret : MRet Method := λ A a self w, (self, w, Return a).
#[global] Instance Method_bind : MBind Method := λ A B k m self w,
  match m self w with
  | (self', w', Return a) => k a self' w'
  | (self', w', Raise e) => (self', w', Raise e)
  end.

Definition run {A} (m : Run A) : Method A :=
  λ self w, let '(w', r) := m w in (self, w', r).
Definition attribute {A} (f : t → A) : Method A := λ self w, (self, w, Return (f self)).
Definition property {A} (f : t → outcome A) : Method A := λ self w, (self, w, f self).
Definition assign (f : t → t) : Method unit := λ self w, (f self, w, Return tt).

(** An assignment to an attribute of the handle, which [self.librepo_handle]
    and the local [h] both name. *)
Definition on_handle (f : Librepo.Handle → Librepo.Handle) : Method unit :=
  assign (λ self, set_librepo_handle (f <$> librepo_handle self) self).

Section RepoObj.

Context (lr : Librepo.t) (h : host).

(** What the methods of the claims read of the object. *)
Definition view (self : t) : Repo.t :=
  Repo.Make (name self) (baseurl self) (metalink self) (skip_if_unavailable self)
            ((λ hd, {| Repo.local := Librepo.local lr hd |}) <$> librepo_handle self)
            (_root_path self).

Definition _download_metadata_result : Method unit :=
  λ self w,
    match librepo_handle self with
    | None => (self, w, Raise (RuntimeError "No Librepo Handle"))
    | Some hd =>
        match Librepo.perform lr hd (fs w) with
        | (t, Librepo.LibrepoException msg) =>
            (self, put_fs t w,
             Raise (RepoDownloadError
                      ("Failed to download repodata for " +:+ __repr__ self +:+ ": " +:+ msg)
                      (OtherException "librepo.LibrepoException")))
        | (t, Librepo.Result rpmmd_repomd) =>
            (set__rpmmd_repomd rpmmd_repomd self, put_fs t w, Return tt)
        end
    end.

(** [Cache.download_repodata_file] on the checksum that the repodata gives. *)
Definition download_repodata_file (checksum : value) (url : string) : Run bytes :=
  match text checksum with
  | Return s => Cache.download_repodata_file h s url
  | Raise e => raise e
  end.

Definition mkdtemp_for (repo_name : string) : Run string :=
  Tempfile.mkdtemp repo_name REPO_CACHE_NAME_PREFIX REPO_CACHE_DIR.

Definition download_repodata : Method unit :=
  run (Cache.clean h) ;;
  assign (set_librepo_handle (Some (Librepo.MakeHandle [] None None))) ;;
  self_baseurl ← attribute baseurl;
  (if Repo.truthy self_baseurl
   then on_handle (set_urls [default EmptyString self_baseurl]) else mret tt) ;;
  self_metalink ← attribute metalink;
  (if Repo.truthy self_metalink then on_handle (set_metalinkurl self_metalink) else mret tt) ;;
  self_name ← attribute name;
  dir ← run (mkdtemp_for self_name);
  on_handle (set_destdir (Some dir)) ;;
  self_baseurl ← attribute baseurl;
  local ← (if Repo.truthy self_baseurl
           then run (root ← get_fs;
                     mret (is_dir (PurePath.of_string (default EmptyString self_baseurl)) root))
           else mret false);
  if local : bool then
    _download_metadata_result ;;
    self_baseurl ← attribute baseurl;
    assign (set__root_path self_baseurl) ;;
    url ← property primary_url;
    f ← run (reading (open_rb (PurePath.of_string url)));
    assign (set_primary (Some f)) ;;
    url ← property filelists_url;
    f ← run (reading (open_rb (PurePath.of_string url)));
    assign (set_filelists (Some f))
  else
    self_name ← attribute name;
    dir ← run (mkdtemp_for self_name);
    assign (set__root_path (Some dir)) ;;
    on_handle (set_destdir (Some dir)) ;;
    _download_metadata_result ;;
    checksum ← property primary_checksum;
    url ← property primary_url;
    f ← run (download_repodata_file checksum url);
    assign (set_primary (Some f)) ;;
    checksum ← property filelists_checksum;
    url ← property filelists_url;
    f ← run (download_repodata_file checksum url);
    assign (set_filelists (Some f)).

End RepoObj.
End RepoObj.

(** * Vocabulary of the properties *)

(** ** Cache.clean *)

(** The claim in the terms of the tree: a regular file is expired when it
    was last modified before the cutoff; purging a subdirectory drops its
    expired regular files and nothing else; purging the cache does so in
    every subdirectory of the base directory. *)
Definition expired (cutoff : Z) (n : node) : bool :=
  match n with File _ mtime => mtime <? cutoff | _ => false end.




(** The bodies of the two loops of [clean], by name. *)
Definition purge_entry (expiry_time : Z) (entry : Path) : Run unit :=
  t ← get_fs;
  if negb (is_file entry t) then mret tt
  else
    mtime ← reading (st_mtime entry);
    if mtime <? expiry_time then writing (unlink entry) else mret tt.

Definition purge_entries (h : host) (expiry_time : Z) (subdir : Path) : Run unit :=
  t ← get_fs;
  if negb (is_dir subdir t) then mret tt
  else
    entries ← reading (iterdir (listdir_order h) subdir);
    for_each entries (purge_entry expiry_time).

(** ** Cache.download_repodata_file *)

(** What the caller gets for a failure [e] of the download: a
    [RepoDownloadError] naming the base name of the URL when [e] is an
    [OSError], and [e] itself otherwise. *)
Definition reported (url : string) (e : exn) : exn :=
  if is_OSError e
  then RepoDownloadError ("Failed to download repodata file " +:+ Text.basename url) e
  else e.

(** The whole body of a response: every chunk, in order. *)
Definition whole_body (reply : response) : bytes := mjoin (body reply).

(** The part of [download_repodata_file] that follows [mkdir], by name: the
    temporary file, the download and the rename, with their handlers. *)
Definition store (h : host) (filepath_in_cache : Path) (url : string) : Run bytes :=
  temp_path ← mkstemp (PurePath.parent filepath_in_cache);
  try_except
    (try_except (Cache.stream_to h temp_path url) is_OSError
       (λ e, raise (RepoDownloadError
                      ("Failed to download repodata file " +:+ Text.basename url) e)) ;;
     writing (rename temp_path filepath_in_cache) ;;
     t ← get_fs;
     mret (contents filepath_in_cache t))
    Exception
    (λ e, writing (unlink temp_path) ;; raise e).

(** The state after the repair of a miss. *)
Definition repaired (p : Path) (e : errno) (w : state) : state :=
  if decide (e = ENOENT) then w else put_fs (rmtree_ignore_errors p (fs w)) w.

(** A directory is in the way of a rename. *)
Definition blocked (o : option node) : bool :=
  match o with Some (Dir _ _) => true | _ => false end.

(** A tree that differs from [base], whose directory [d] holds [kids], at
    most in what the name [tmp] denotes in [d]. *)
Definition beside (d : Path) (r : bool) (base : node) (kids : gmap string node)
    (tmp : string) (s : node) : Prop :=
  ∃ K, s = graft d (Dir r K) base ∧ ∀ x, x ≠ tmp → K !! x = kids !! x.

(** ** Repo.from_yum_config *)

(** How the loop reads the two flags of a section. *)
Definition enabled_flag (config : RawConfigParser) (options : gmap string string) : outcome bool :=
  if Repo.has_option config options "enabled"
  then Repo.getboolean config options "enabled" else Return true.

Definition skip_flag (config : RawConfigParser) (options : gmap string string) : outcome bool :=
  if Repo.has_option config options "skip_if_unavailable"
  then Repo.getboolean config options "skip_if_unavailable" else Return false.

(** [yield cls(...)]: the repository is yielded unless [__init__] raises. *)
Definition yielding (made : outcome Repo.t) : outcome (option Repo.t) :=
  match made with Return r => Return (Some r) | Raise e => Raise e end.

(** ** Repo.download_package_header *)

(** [self.librepo_handle and self.librepo_handle.local]. *)
Definition handle_is_local (self : Repo.t) : bool :=
  match Repo.librepo_handle self with
  | Some handle => Repo.local handle
  | None => false
  end.

(** The ceilings of [download_package_header], in order; 0 asks for the
    whole file. *)
Definition ceilings : list Z := [100000; 1000000; 5000000; 0].

(** A structurally complete header can be read at [local_path] in [t]. *)
Definition header_present (h : host) (local_path : string) (t : node) : bool :=
  match open_rb (PurePath.of_string local_path) t with
  | inr data => hdrFromFdno h data
  | inl _ => false
  end.

(** [librepo] can save to [p]: the directory is there and the name is not
    taken by a directory. *)
Definition can_save (p : Path) (t : node) : Prop :=
  ∃ d c r kids,
    p = d ++ [c] ∧ stat d t = inr (Dir r kids) ∧
    ∀ r' kids', kids !! c ≠ Some (Dir r' kids').

(** The simulated remote of the header-fetch test: the package is the byte
    string [pkg], a request with ceiling [c] delivers the bytes from 0 up
    to, not including, [c] (all of them for the ceiling 0), and a header is
    complete once its first [header_size] bytes are there. *)
Definition delivered (pkg : bytes) (c : Z) : bytes :=
  if c =? 0 then pkg else take (Z.to_nat c) pkg.

Definition simulated_remote (h : host) (location baseurl : string)
    (pkg : bytes) (header_size : Z) : Prop :=
  (∀ c, librepo_download h location baseurl c = Saved (delivered pkg c)) ∧
  (∀ data, hdrFromFdno h data = bool_decide (header_size ≤ Z.of_nat (length data))).

(** ** Cache.clean, however it ends *)

(** A directory that lost some of its expired files; any other node as it
    was. *)
Definition thinned (cutoff : Z) (n n' : node) : Prop :=
  match n with
  | Dir r kids =>
      ∃ kids', n' = Dir r kids' ∧ kids' ⊆ kids ∧
               ∀ k x, kids !! k = Some x → kids' !! k = None → expired cutoff x = true
  | _ => n' = n
  end.

(** A tree in which directories directly in [base] were thinned, and
    nothing else happened. *)
Definition pruned (cutoff : Z) (base : Path) (t t' : node) : Prop :=
  match stat base t with
  | inr (Dir rb subs) =>
      ∃ subs', t' = graft base (Dir rb subs') t ∧
               ∀ k, option_Forall2 (thinned cutoff) (subs !! k) (subs' !! k)
  | _ => t' = t
  end.

(** What [clean] may do to the world: prune the tree, and nothing else. *)
Definition cleaned (cutoff : Z) (base : Path) (w w' : state) : Prop :=
  clock w' = clock w ∧ tmp_names w' = tmp_names w ∧ http_log w' = http_log w ∧
  librepo_log w' = librepo_log w ∧ pruned cutoff base (fs w) (fs w').

(** ** Repo.from_yum_config, section by section *)

(** The section is switched on: [enabled] is absent or true. *)
Definition switched_on (config : RawConfigParser) (options : gmap string string) : bool :=
  match enabled_flag config options with Return b => b | Raise _ => false end.

(** The option that gives a section its source, in the order the loop asks. *)
Definition source_option (config : RawConfigParser) (options : gmap string string)
  : option string :=
  if Repo.has_option config options "baseurl" then Some "baseurl"%string
  else if Repo.has_option config options "metalink" then Some "metalink"%string
  else if Repo.has_option config options "mirrorlist" then Some "mirrorlist"%string
  else None.

(** ** Repo.download_repodata *)

(** The handle as [download_repodata] has set it up when the first
    temporary directory [dir] exists. *)
Definition configured (self : RepoObj.t) (dir : option string) : Librepo.Handle :=
  Librepo.MakeHandle
    (if Repo.truthy (RepoObj.baseurl self)
     then [default EmptyString (RepoObj.baseurl self)] else [])
    (if Repo.truthy (RepoObj.metalink self) then RepoObj.metalink self else None)
    dir.

(** The two branches of [download_repodata], by name: for a base URL that
    is a directory, and for any other repository. *)
Definition load_local (lr : Librepo.t) : RepoObj.Method unit :=
  RepoObj._download_metadata_result lr ;;
  baseurl ← RepoObj.attribute RepoObj.baseurl;
  RepoObj.assign (RepoObj.set__root_path baseurl) ;;
  url ← RepoObj.property RepoObj.primary_url;
  f ← RepoObj.run (reading (open_rb (PurePath.of_string url)));
  RepoObj.assign (RepoObj.set_primary (Some f)) ;;
  url ← RepoObj.property RepoObj.filelists_url;
  f ← RepoObj.run (reading (open_rb (PurePath.of_string url)));
  RepoObj.assign (RepoObj.set_filelists (Some f)).

Definition load_remote (lr : Librepo.t) (h : host) : RepoObj.Method unit :=
  repo_name ← RepoObj.attribute RepoObj.name;
  dir ← RepoObj.run (RepoObj.mkdtemp_for repo_name);
  RepoObj.assign (RepoObj.set__root_path (Some dir)) ;;
  RepoObj.on_handle (RepoObj.set_destdir (Some dir)) ;;
  RepoObj._download_metadata_result lr ;;
  checksum ← RepoObj.property RepoObj.primary_checksum;
  url ← RepoObj.property RepoObj.primary_url;
  f ← RepoObj.run (RepoObj.download_repodata_file h checksum url);
  RepoObj.assign (RepoObj.set_primary (Some f)) ;;
  checksum ← RepoObj.property RepoObj.filelists_checksum;
  url ← RepoObj.property RepoObj.filelists_url;
  f ← RepoObj.run (RepoObj.download_repodata_file h checksum url);
  RepoObj.assign (RepoObj.set_filelists (Some f)).

(** The base URL names a directory. *)
Definition is_local_repo (self : RepoObj.t) (t : node) : bool :=
  Repo.truthy (RepoObj.baseurl self)
  && is_dir (PurePath.of_string (default EmptyString (RepoObj.baseurl self))) t.

(** The object that a method leaves is the same repository. *)
Definition same_repo (self self' : RepoObj.t) : Prop :=
  RepoObj.name self' = RepoObj.name self ∧
  RepoObj.baseurl self' = RepoObj.baseurl self ∧
  RepoObj.metalink self' = RepoObj.metalink self ∧
  RepoObj.skip_if_unavailable self' = RepoObj.skip_if_unavailable self.

(** A method keeps a relation between the moment before and the moment
    after, however it ends. *)
Definition keeps {A} (R : relation (RepoObj.t * state)) (m : RepoObj.Method A) : Prop :=
  ∀ self w self' w' r, m self w = (self', w', r) → R (self, w) (self', w').

(** Nothing was requested through the session, and the object is the same
    repository with the same handle settings apart from what was assigned. *)
Definition quiet (before after : RepoObj.t * state) : Prop :=
  same_repo before.1 after.1 ∧ http_log after.2 = http_log before.2.

(** Two paths of which neither lies at or above the other. *)
Definition apart (p q : Path) : Prop := ¬ p `prefix_of` q ∧ ¬ q `prefix_of` p.

(** * Example worlds *)

(** A host with the given environment, configuration and HTTP reply, home
    directory [/home/user], directories listed in their stored order, no
    parsable header anywhere, and a librepo that always fails. *)
Definition quiet_host (env : gmap string string) (config : RawConfigParser)
    (reply : response) : host :=
  Host env ["home"; "user"]%string id (λ _ _, reply) (λ _, false)
       (λ _ _ _, Err "Cannot download") None config.

Definition plain_host : host := quiet_host ∅ (Config ∅ []) (Response [] None).

(** The same, with directories listed in the reverse order. *)
Definition reversing_host : host :=
  Host ∅ ["home"; "user"]%string reverse (λ _ _, Response [] None) (λ _, false)
       (λ _ _ _, Err "Cannot download") None (Config ∅ []).


(** A Yum configuration with one repository that has two sources. *)
Definition both_sources_host : host :=
  quiet_host ∅
    (Config ∅ [("main"%string, ∅);
               ("dummy"%string,
                {["baseurl"%string := "http://example.invalid/dummy"%string;
                  "metalink"%string := "http://example.invalid/metalink"%string]})])
    (Response [] None).

(** Hosts whose server answers with two chunks, and with one chunk before
    the connection breaks. *)
Definition serving_host : host :=
  quiet_host ∅ (Config ∅ []) (Response [[Byte.x1f; Byte.x8b]; [Byte.x08]] None).



Definition primary_url : string := "http://example.invalid/repodata/primary.xml.gz".

(** A world at the time [now] with the tree [tree], two names in store for
    [mkstemp], and nothing requested so far. *)
Definition world_of (now : Z) (tree : node) : state :=
  State now tree [] ["k3x_9q2a"; "w0_tz81b"]%string [] [].

Definition empty_disk : node := Dir true ∅.

(** The cache directory [/home/user/.cache/rpmdeplint] holding [subdirs]. *)
Definition cache_disk (subdirs : gmap string node) : node :=
  Dir true {["home"%string := Dir true {["user"%string := Dir true {[".cache"%string :=
    Dir true {["rpmdeplint"%string := Dir true subdirs]}]}]}]}.

(** A cache with an old and a fresh file, a directory in the legacy layout
    and a socket, and a file directly in the base directory. *)
Definition mixed_cache : gmap string node :=
  {["a"%string := Dir true {["1f"%string := File [Byte.x01] 100;
                             "2e"%string := File [Byte.x02] 900000;
                             "3d"%string := Dir true {["primary.xml.gz"%string := File [] 100]};
                             "4c"%string := Socket]};
    "README"%string := File [] 100]}.


(** A cache that holds the entry of [abcdef]. *)
Definition warm_cache : gmap string node :=
  {["a"%string := Dir true {["bcdef"%string := File [Byte.x1f; Byte.x8b; Byte.x08] 100]}]}.


(** A repository as [download_repodata] leaves it, with a handle that
    librepo reports as local, and with one that it does not. *)
Definition local_repo (root : string) : Repo.t :=
  Repo.Make "base" (Some root) None false (Some {| Repo.local := true |}) (Some root).

Definition remote_repo (root : string) : Repo.t :=
  Repo.Make "base" (Some "http://example.invalid/base"%string) None false
            (Some {| Repo.local := false |}) (Some root).

(** A local repository in the usual layout: the package lies in a
    subdirectory of the repository. *)
Definition nested_repo_disk : node :=
  Dir true {["srv"%string :=
    Dir true {["repo"%string :=
      Dir true {["Packages"%string :=
        Dir true {["b-0.1-1.noarch.rpm"%string :=
          File [Byte.xed; Byte.xab; Byte.xee; Byte.xdb] 500]}]}]}]}.



Definition empty_download_dir_disk : node :=
  Dir true {["var"%string := Dir true {["tmp"%string :=
    Dir true {["rpmdeplint-base"%string := Dir true ∅]}]}]}.

(** A remote that serves a package of ten bytes whose header takes the
    first four. *)
Definition small_package_host : host :=
  Host ∅ ["home"; "user"]%string id (λ _ _, Response [] None)
       (λ data, bool_decide (4 ≤ Z.of_nat (length data)))
       (λ _ _ c, Saved (delivered (replicate 10 Byte.x00) c))
       None (Config ∅ []).

(** A remote whose package of ten bytes never shows a complete header. *)
Definition truncated_host : host :=
  Host ∅ ["home"; "user"]%string id (λ _ _, Response [] None)
       (λ data, bool_decide (6000000 ≤ Z.of_nat (length data)))
       (λ _ _ c, Saved (delivered (replicate 10 Byte.x00) c))
       None (Config ∅ []).

(** A remote that refuses every transfer. *)
Definition refusing_host : host :=
  Host ∅ ["home"; "user"]%string id (λ _ _, Response [] None) (λ _, false)
       (λ _ _ _, Err "Status code: 404 for http://example.invalid/base/b-0.1-1.noarch.rpm")
       None (Config ∅ []).

(** A librepo that reaches no mirror. *)
Definition offline_library : Librepo.t :=
  Librepo.Library (λ _, false)
    (λ _ t, (t, Librepo.LibrepoException
                  "Cannot download repomd.xml: All mirrors were tried")).

(** The repodata of a repository with the two records the module reads. *)
Definition example_repomd : Python.value :=
  Python.Dict {[
    "revision"%string := Python.Str "1699000000";
    "records"%string := Python.Dict {[
      "primary"%string := Python.Dict {[
        "location_href"%string := Python.Str "repodata/primary.xml.gz";
        "checksum"%string := Python.Str "abcdef";
        "size"%string := Python.Int 3 ]};
      "filelists"%string := Python.Dict {[
        "location_href"%string := Python.Str "repodata/filelists.xml.gz";
        "checksum"%string := Python.Str "0123ff";
        "size"%string := Python.Int 3 ]} ]} ]}.

(** A librepo that finds this repodata and writes nothing. *)
Definition working_library : Librepo.t :=
  Librepo.Library (λ _, false) (λ _ t, (t, Librepo.Result example_repomd)).

(** A disk with [/var/tmp] and a repository in [/srv/repo]. *)
Definition repo_disk : node :=
  Dir true {["var"%string := Dir true {["tmp"%string := Dir true ∅]};
            "srv"%string := Dir true {["repo"%string := Dir true {["repodata"%string :=
              Dir true {["primary.xml.gz"%string := File [Byte.x1f; Byte.x8b; Byte.x01] 500;
                         "filelists.xml.gz"%string := File [Byte.x1f; Byte.x8b; Byte.x02] 500]}]}]}]}.

(** Repositories as [__init__] leaves them: with a base URL that is a
    directory, with one that is a URL, and with a metalink only. *)
Definition directory_repo : RepoObj.t :=
  RepoObj.of_init (Repo.Make "base" (Some "/srv/repo"%string) None false None None).

Definition url_repo : RepoObj.t :=
  RepoObj.of_init
    (Repo.Make "dummy" (Some "http://example.invalid/dummy"%string) None false None None).

Definition metalink_repo : RepoObj.t :=
  RepoObj.of_init
    (Repo.Make "dummy" None (Some "http://example.invalid/metalink"%string) false None None).

(** A world like [world_of], with four names in store for [tempfile]. *)
Definition roomy_world (now : Z) (tree : node) : state :=
  State now tree [] ["k3x_9q2a"; "w0_tz81b"; "p_5mdc0e"; "zq81_rty"]%string [] [].


(** The same, with six names: enough to load a remote repository and to
    load it again. *)
Definition ample_world (now : Z) (tree : node) : state :=
  State now tree []
    ["k3x_9q2a"; "w0_tz81b"; "p_5mdc0e"; "zq81_rty"; "b7_hh2ux"; "m4cz_01v"]%string [] [].

(** * Properties *)

(** ** Texts and paths *)

Section TextFacts.

Lemma hex_digit_plain c :
  Text.is_hex_digit c = true →
  Ascii.eqb c Text.slash = false ∧ c ≠ "."%char ∧ c ≠ "t"%char.
Proof.
  destruct c as [[] [] [] [] [] [] [] []]; vm_compute; intros Hc;
    first [discriminate Hc | repeat split; discriminate].
Qed.

Lemma split_at_hex s : Text.is_hex s = true → Text.split_at Text.slash s = [s].
Proof.
  induction s as [|c rest IH]; simpl; [done|].
  intros [Hc Hrest]%andb_true_iff.
  destruct (hex_digit_plain c Hc) as (-> & _ & _).
  by rewrite (IH Hrest).
Qed.

Lemma of_string_hex s :
  Text.is_hex s = true →
  PurePath.of_string s = if decide (s = EmptyString) then [] else [s].
Proof.
  intros Hs. unfold PurePath.of_string. rewrite (split_at_hex s Hs).
  destruct s as [|c rest]; [done|].
  simpl in Hs. apply andb_true_iff in Hs as [Hc _].
  destruct (hex_digit_plain c Hc) as (_ & Hdot & _).
  rewrite decide_False by done.
  rewrite filter_cons_True; [done|].
  split; [done|]. intros [= ? _]. done.
Qed.

Lemma starts_with_slash_hex s : Text.is_hex s = true → Text.starts_with_slash s = false.
Proof.
  destruct s as [|c rest]; [done|]. simpl.
  intros [Hc _]%andb_true_iff. by destruct (hex_digit_plain c Hc) as (-> & _).
Qed.

Lemma div_hex p s :
  Text.is_hex s = true → p /: s = p ++ (if decide (s = EmptyString) then [] else [s]).
Proof.
  intros Hs. unfold PurePath.div.
  by rewrite (starts_with_slash_hex s Hs), (of_string_hex s Hs).
Qed.

Lemma first_letter_hex s : Text.is_hex s = true → Text.is_hex (Text.first_letter s) = true.
Proof.
  destruct s as [|c rest]; [done|]. simpl.
  intros [-> _]%andb_true_iff. done.
Qed.

Lemma after_first_hex s : Text.is_hex s = true → Text.is_hex (Text.after_first s) = true.
Proof.
  destruct s as [|c rest]; [done|]. simpl.
  by intros [_ ->]%andb_true_iff.
Qed.

Lemma hex_not_tmp s n : Text.is_hex s = true → s ≠ ("tmp" +:+ n)%string.
Proof.
  destruct s as [|c rest]; [done|]. simpl.
  intros [Hc _]%andb_true_iff [= -> _].
  by destruct (hex_digit_plain _ Hc) as (_ & _ & ?).
Qed.

Lemma parent_snoc (d : Path) c : PurePath.parent (d ++ [c]) = d.
Proof. unfold PurePath.parent. apply removelast_last. Qed.

Lemma name_snoc (d : Path) c : PurePath.name (d ++ [c]) = c.
Proof. unfold PurePath.name. apply last_last. Qed.

Lemma path_split (p : Path) : p ≠ [] → p = PurePath.parent p ++ [PurePath.name p].
Proof. intros Hp. by apply app_removelast_last. Qed.

End TextFacts.

Section EntryPathFacts.

Context (h : host).

Lemma base_path_snoc : ∃ d, Cache.base_path h = d ++ ["rpmdeplint"%string].
Proof. unfold Cache.base_path. eexists. reflexivity. Qed.

(** The entry of a hexadecimal checksum is a proper path, and its name is
    none that [mkstemp] generates. *)
Lemma entry_path_snoc checksum :
  Text.is_hex checksum = true →
  ∃ d c, Cache.entry_path h checksum = d ++ [c] ∧ ∀ n, c ≠ ("tmp" +:+ n)%string.
Proof.
  intros Hhex. unfold Cache.entry_path.
  destruct base_path_snoc as [d0 ->].
  rewrite !div_hex by auto using first_letter_hex, after_first_hex.
  destruct checksum as [|c [|c' rest]]; simpl.
  - exists d0, "rpmdeplint"%string. rewrite !app_nil_r. split; [done|]. intros n [=].
  - exists (d0 ++ ["rpmdeplint"%string]), (String c EmptyString).
    rewrite app_nil_r. split; [done|].
    intros n. apply hex_not_tmp. simpl in *. by rewrite andb_true_r in *.
  - exists ((d0 ++ ["rpmdeplint"%string]) ++ [String c EmptyString]), (String c' rest).
    split; [done|]. intros n. apply hex_not_tmp.
    simpl in Hhex. by apply andb_true_iff in Hhex as [_ ?].
Qed.

End EntryPathFacts.

(** ** The directory tree *)

Section TreeFacts.

Implicit Types (t n m : node) (p q d : Path) (c : string) (kids : gmap string node).

Lemma stat_app p q t :
  stat (p ++ q) t = match stat p t with inr n => stat q n | inl e => inl e end.
Proof.
  revert t. induction p as [|c p IH]; intros t; simpl; [done|].
  destruct t as [| |r kids]; try done.
  destruct (kids !! c); [apply IH|done].
Qed.

Lemma stat_snoc d c t r kids :
  stat d t = inr (Dir r kids) →
  stat (d ++ [c]) t = match kids !! c with Some n => inr n | None => inl ENOENT end.
Proof. intros Hd. rewrite stat_app, Hd. simpl. by destruct (kids !! c). Qed.

Lemma stat_graft p n t m : stat p t = inr m → stat p (graft p n t) = inr n.
Proof.
  revert t. induction p as [|c p IH]; intros t; simpl; [done|].
  destruct t as [| |r kids]; try done.
  destruct (kids !! c) as [sub|] eqn:Hc; [|done].
  intros Hsub. rewrite lookup_alter_eq, Hc. simpl. by apply IH.
Qed.

Lemma graft_graft p n1 n2 t : graft p n2 (graft p n1 t) = graft p n2 t.
Proof.
  revert t. induction p as [|c p IH]; intros t; simpl; [done|].
  destruct t as [| |r kids]; try done.
  f_equal. rewrite alter_alter_eq. apply alter_ext. intros sub _. apply IH.
Qed.

Lemma graft_id p n t : stat p t = inr n → graft p n t = t.
Proof.
  revert t. induction p as [|c p IH]; intros t; simpl; [congruence|].
  destruct t as [| |r kids]; try done.
  destruct (kids !! c) as [sub|] eqn:Hc; [|done].
  intros Hsub. f_equal. apply map_eq. intros c'.
  destruct (decide (c = c')) as [<-|Hne].
  - rewrite lookup_alter_eq, Hc. simpl. f_equal. by apply IH.
  - by rewrite lookup_alter_ne.
Qed.

Lemma graft_app p q n t m :
  stat p t = inr m → graft (p ++ q) n t = graft p (graft q n m) t.
Proof.
  revert t. induction p as [|c p IH]; intros t; simpl; [congruence|].
  destruct t as [| |r kids]; try done.
  destruct (kids !! c) as [sub|] eqn:Hc; [|done].
  intros Hsub. f_equal. apply map_eq. intros c'.
  destruct (decide (c = c')) as [<-|Hne].
  - rewrite !lookup_alter_eq, Hc. simpl. f_equal. by apply IH.
  - by rewrite !lookup_alter_ne.
Qed.

(** Below a grafted directory one sees the graft. *)
Lemma stat_graft_below p q n t m :
  stat p t = inr m → stat (p ++ q) (graft p n t) = stat q n.
Proof. intros Hp. by rewrite stat_app, (stat_graft _ _ _ _ Hp). Qed.

(** A change of one directory entry, seen from the directory. *)
Lemma at_entry_snoc d c f t r kids :
  stat d t = inr (Dir r kids) →
  at_entry (d ++ [c]) f t =
    match f (kids !! c) with
    | inr o => inr (graft d (Dir r (partial_alter (λ _, o) c kids)) t)
    | inl e => inl e
    end.
Proof.
  intros Hd. unfold at_entry. rewrite parent_snoc, name_snoc, Hd.
  by destruct d.
Qed.

Lemma at_entry_inv p f t t' :
  at_entry p f t = inr t' →
  ∃ r kids o,
    p ≠ [] ∧ stat (PurePath.parent p) t = inr (Dir r kids) ∧
    f (kids !! PurePath.name p) = inr o ∧
    t' = graft (PurePath.parent p) (Dir r (partial_alter (λ _, o) (PurePath.name p) kids)) t.
Proof.
  unfold at_entry. destruct p as [|c0 p0]; [done|].
  destruct (stat _ t) as [e|[| |r kids]]; try done.
  destruct (f _) as [e|o] eqn:Hf; [done|].
  intros [= <-]. by exists r, kids, o.
Qed.

(** A file found at a proper path lies in a directory. *)
Lemma stat_snoc_inv d c t n :
  stat (d ++ [c]) t = inr n →
  ∃ r kids, stat d t = inr (Dir r kids) ∧ kids !! c = Some n.
Proof.
  rewrite stat_app. destruct (stat d t) as [e|[| |r kids]]; try done.
  simpl. destruct (kids !! c) as [sub|] eqn:Hc; [|done].
  intros [= <-]. by exists r, kids.
Qed.

End TreeFacts.

(** ** Running the monad *)

(** Running the monad, step by step. *)
Section RunFacts.

Context {A B : Type}.

Lemma run_bind_get_fs (k : node → Run B) w : (t ← get_fs; k t) w = k (fs w) w.
Proof. reflexivity. Qed.

Lemma run_bind_time (k : Z → Run B) w : (now ← time; k now) w = k (clock w) w.
Proof. reflexivity. Qed.

Lemma run_bind_reading (call : node → sys A) (k : A → Run B) w :
  (x ← reading call; k x) w =
    match call (fs w) with
    | inr a => k a w
    | inl e => (w, Raise (OSError e))
    end.
Proof. unfold mbind, Run_bind, reading. by destruct (call (fs w)). Qed.

Lemma run_bind_writing (call : node → sys node) (k : Run B) w :
  (writing call ;; k) w =
    match call (fs w) with
    | inr t => k (put_fs t w)
    | inl e => (w, Raise (OSError e))
    end.
Proof. unfold mbind, Run_bind, writing. by destruct (call (fs w)). Qed.

Lemma run_writing (call : node → sys node) w :
  writing call w =
    match call (fs w) with
    | inr t => (put_fs t w, Return tt)
    | inl e => (w, Raise (OSError e))
    end.
Proof. reflexivity. Qed.

Lemma run_bind_return (m : Run A) (k : A → Run B) w w1 a :
  m w = (w1, Return a) → (x ← m; k x) w = k a w1.
Proof. intros Hm. unfold mbind, Run_bind. by rewrite Hm. Qed.

Lemma run_bind_raise (m : Run A) (k : A → Run B) w w1 e :
  m w = (w1, Raise e) → (x ← m; k x) w = (w1, Raise e).
Proof. intros Hm. unfold mbind, Run_bind. by rewrite Hm. Qed.

End RunFacts.

(** ** Cache.clean *)


Section CleanFacts.

Context (h : host) (cutoff : Z).

Lemma clean_unfold w window :
  Cache.expiry_seconds h = Return window →
  Cache.clean h w =
    if negb (is_dir (Cache.base_path h) (fs w)) then (w, Return tt)
    else (subdirs ← reading (iterdir (listdir_order h) (Cache.base_path h));
          for_each subdirs (purge_entries h (clock w - window))) w.
Proof.
  intros Hwin. unfold Cache.clean, mbind at 1 2 3, Run_bind at 1 2 3, time, lift, get_fs.
  rewrite Hwin. by destruct (negb _).
Qed.



Hypothesis Horder : ∀ names, listdir_order h names ≡ₚ names.






End CleanFacts.




(** The same run, evaluated: the old file is gone; the fresh file, the old
    file inside the legacy directory, the socket and the file directly in
    the base directory are still there. *)
Example clean_mixed_cache :
  let w' := (Cache.clean reversing_host (world_of 1000000 (cache_disk mixed_cache))).1 in
  let base := Cache.base_path reversing_host in
  stat (base ++ ["a"; "1f"]%string) (fs w') = inl ENOENT ∧
  stat (base ++ ["a"; "2e"]%string) (fs w') = inr (File [Byte.x02] 900000) ∧
  stat (base ++ ["a"; "3d"; "primary.xml.gz"]%string) (fs w') = inr (File [] 100) ∧
  stat (base ++ ["a"; "4c"]%string) (fs w') = inr Socket ∧
  stat (base ++ ["README"]%string) (fs w') = inr (File [] 100).
Proof. repeat split; vm_compute; reflexivity. Qed.




(** ** Cache.download_repodata_file *)

Lemma mkdir_p_below p :
  ∀ t t', mkdir_p p t = inr t' →
    (∃ r kids, stat p t' = inr (Dir r kids)) ∧
    (∀ c, stat (p ++ [c]) t' = stat (p ++ [c]) t) ∧
    (∀ r kids, stat p t = inr (Dir r kids) → t' = t).
Proof.
  induction p as [|x p IH]; intros t t'; simpl.
  - destruct t as [| |r kids]; try done. intros [= <-]. split; [by eauto|]. done.
  - destruct t as [| |r kids]; try done.
    destruct (mkdir_p p (default (Dir true ∅) (kids !! x))) as [e|sub] eqn:Hsub; [done|].
    intros [= <-]. destruct (IH _ _ Hsub) as (Hdir & Hbelow & Hsame).
    split; [|split].
    + simpl. by rewrite lookup_insert_eq.
    + intros c. simpl. rewrite lookup_insert_eq, Hbelow.
      destruct (kids !! x) as [old|]; simpl; [done|].
      destruct p; simpl; by rewrite ?lookup_empty.
    + intros r' kids'. destruct (kids !! x) as [old|] eqn:Hx; [|done].
      simpl in Hsame. intros Hold. rewrite (Hsame _ _ Hold). by rewrite insert_id.
Qed.

Section StoreFacts.

Context (h : host) (d : Path) (r : bool) (base : node) (kids : gmap string node).
Hypothesis Hd : stat d base = inr (Dir r kids).

(** The tree [base] with the directory [d] holding [K]. *)
Let holding (K : gmap string node) : node := graft d (Dir r K) base.

Lemma holding_kids : holding kids = base.
Proof. apply (graft_id _ _ _ Hd). Qed.

Lemma at_entry_holding K x f :
  at_entry (d ++ [x]) f (holding K) =
    match f (K !! x) with
    | inr o => inr (holding (partial_alter (λ _, o) x K))
    | inl e => inl e
    end.
Proof.
  unfold holding. rewrite (at_entry_snoc d x f _ r K) by apply (stat_graft _ _ _ _ Hd).
  destruct (f (K !! x)); [done|]. by rewrite graft_graft.
Qed.

Lemma stat_holding K x :
  stat (d ++ [x]) (holding K) = match K !! x with Some n => inr n | None => inl ENOENT end.
Proof. unfold holding. apply (stat_snoc _ _ _ r). apply (stat_graft _ _ _ _ Hd). Qed.

(** [mkstemp] takes the first free name, or gives up. *)
Lemma mkstemp_run names :
  ∀ w, fs w = base → tmp_names w = names →
    (∃ n rest,
        n ∈ names ∧ kids !! ("tmp" +:+ n)%string = None ∧
        mkstemp_from names d w =
          (State (clock w) (holding (<[("tmp" +:+ n)%string := File [] (clock w)]> kids))
                 (base :: trail w) rest (http_log w) (librepo_log w),
           Return (d ++ [("tmp" +:+ n)%string])))
    ∨ mkstemp_from names d w =
        (State (clock w) base (trail w) [] (http_log w) (librepo_log w), Raise (OSError EEXIST))
      ∧ Forall (λ n, is_Some (kids !! ("tmp" +:+ n)%string)) names.
Proof.
  induction names as [|n names IH]; intros w Hw Hnames; simpl.
  - right. split; [|done]. unfold raise. destruct w; simpl in *. by subst.
  - unfold create_excl. rewrite Hw, (at_entry_snoc _ _ _ _ _ _ Hd).
    destruct (kids !! ("tmp" +:+ n)%string) as [taken|] eqn:Hn.
    + destruct (IH (put_tmp_names names w) Hw eq_refl)
        as [(n' & rest & Hin & Hfree & ->) | [-> Htaken]].
      * left. exists n', rest. split; [by right|]. split; [done|]. reflexivity.
      * right. split; [reflexivity|]. constructor; [by eexists|done].
    + left. exists n, names. split; [by left|]. split; [done|].
      unfold put_fs. simpl. by rewrite Hw.
Qed.

Lemma beside_stat tmp s c :
  beside d r base kids tmp s →
  c ≠ tmp → stat (d ++ [c]) s = stat (d ++ [c]) base.
Proof.
  intros (K & -> & HK) Hc. fold (holding K). rewrite stat_holding, (HK c Hc).
  by rewrite (stat_snoc _ _ _ _ _ Hd).
Qed.

Lemma beside_base tmp : beside d r base kids tmp base.
Proof. exists kids. split; [symmetry; apply holding_kids|done]. Qed.

(** Writing the chunks to the temporary file, one after the other. *)
Lemma append_loop tmp chunks :
  ∀ w acc K,
    fs w = holding K →
    K !! tmp = Some (File acc (clock w)) →
    (∀ x, x ≠ tmp → K !! x = kids !! x) →
    ∃ news,
      Forall (beside d r base kids tmp) news ∧
      for_each chunks (λ chunk, now ← time; writing (append now (d ++ [tmp]) chunk)) w =
        (State (clock w) (holding (<[tmp := File (acc ++ mjoin chunks) (clock w)]> K))
               (news ++ trail w) (tmp_names w) (http_log w) (librepo_log w),
         Return tt).
Proof.
  induction chunks as [|chunk chunks IH]; intros w acc K Hfs Htmp HK.
  - exists []. split; [done|]. simpl. rewrite app_nil_r, insert_id by done.
    rewrite <- Hfs. by destruct w.
  - simpl.
    set (K1 := <[tmp := File (acc ++ chunk) (clock w)]> K).
    assert (Hbody : (now ← time; writing (append now (d ++ [tmp]) chunk)) w
                    = (put_fs (holding K1) w, Return tt)).
    { rewrite run_bind_time, run_writing. unfold append.
      by rewrite Hfs, at_entry_holding, Htmp. }
    rewrite (run_bind_return _ _ _ _ _ Hbody).
    destruct (IH (put_fs (holding K1) w) (acc ++ chunk) K1) as (news & Hnews & ->).
    + done.
    + unfold K1. by rewrite lookup_insert_eq.
    + intros x Hx. unfold K1. rewrite lookup_insert_ne by done. by apply HK.
    + exists (news ++ [holding K]). split.
      * apply Forall_app. split; [done|]. constructor; [|done]. by exists K.
      * simpl. unfold K1. rewrite insert_insert_eq, Hfs.
        by rewrite <- !app_assoc.
Qed.

(** The request and the streaming of its body into the temporary file. *)
Lemma stream_to_run tmp url w K :
  fs w = holding K →
  K !! tmp = Some (File [] (clock w)) →
  (∀ x, x ≠ tmp → K !! x = kids !! x) →
  let reply := http_get h (http_log w) url in
  ∃ news,
    Forall (beside d r base kids tmp) news ∧
    Cache.stream_to h (d ++ [tmp]) url w =
      (State (clock w) (holding (<[tmp := File (whole_body reply) (clock w)]> K))
             (news ++ trail w) (tmp_names w) (url :: http_log w) (librepo_log w),
       match failure reply with Some e => Raise e | None => Return tt end).
Proof.
  intros Hfs Htmp HK reply. unfold Cache.stream_to.
  unfold mbind at 1, Run_bind at 1, requests_get. fold reply.
  destruct (append_loop tmp (body reply) (log_http url w) [] K Hfs Htmp HK)
    as (news & Hnews & Hloop).
  exists news. split; [done|].
  rewrite (run_bind_return _ _ _ _ _ Hloop). simpl.
  by destruct (failure reply).
Qed.

Lemma store_run c url w :
  (∀ n, c ≠ ("tmp" +:+ n)%string) →
  fs w = base →
  let reply := http_get h (http_log w) url in
  let stored := holding (<[c := File (whole_body reply) (clock w)]> kids) in
  (store h (d ++ [c]) url w =
     (State (clock w) base (trail w) [] (http_log w) (librepo_log w), Raise (OSError EEXIST)) ∧
   Forall (λ n, is_Some (kids !! ("tmp" +:+ n)%string)) (tmp_names w))
  ∨ ∃ n rest news,
      n ∈ tmp_names w ∧ kids !! ("tmp" +:+ n)%string = None ∧
      Forall (beside d r base kids ("tmp" +:+ n)%string) news ∧
      store h (d ++ [c]) url w =
        (State (clock w)
               (match failure reply with
                | Some _ => base
                | None => if blocked (kids !! c) then base else stored
                end)
               (news ++ trail w) rest (url :: http_log w) (librepo_log w),
         match failure reply with
         | Some e => Raise (reported url e)
         | None => if blocked (kids !! c) then Raise (OSError EISDIR)
                   else Return (whole_body reply)
         end).
Proof.
  intros Hc Hfs reply stored. unfold store. rewrite parent_snoc.
  destruct (mkstemp_run (tmp_names w) w Hfs eq_refl)
    as [(n & rest & Hin & Hfree & Hmk) | [Hmk Htaken]];
    change (mkstemp_from (tmp_names w) d w) with (mkstemp d w) in Hmk.
  2: { left. split; [|done]. by rewrite (run_bind_raise _ _ _ _ _ Hmk). }
  right. rewrite (run_bind_return _ _ _ _ _ Hmk). clear Hmk.
  set (tmp := ("tmp" +:+ n)%string) in *.
  set (w3 := State (clock w) (holding (<[tmp := File [] (clock w)]> kids))
                   (base :: trail w) rest (http_log w) (librepo_log w)).
  destruct (stream_to_run tmp url w3 (<[tmp := File [] (clock w)]> kids))
    as (news & Hnews & Hstream).
  { done. }
  { by rewrite lookup_insert_eq. }
  { intros x Hx. by rewrite lookup_insert_ne. }
  simpl in Hstream. fold reply in Hstream. rewrite insert_insert_eq in Hstream.
  set (K4 := <[tmp := File (whole_body reply) (clock w)]> kids) in Hstream.
  set (w4 := State (clock w) (holding K4) (news ++ base :: trail w) rest
                   (url :: http_log w) (librepo_log w)) in Hstream.
  assert (Hbeside4 : beside d r base kids tmp (holding K4)).
  { exists K4. split; [done|]. intros x Hx. unfold K4. by rewrite lookup_insert_ne. }
  assert (Hunlink : unlink (d ++ [tmp]) (holding K4) = inr base).
  { unfold unlink. rewrite at_entry_holding. unfold K4.
    rewrite lookup_insert_eq.
    change (partial_alter (λ _, None) tmp (<[tmp := File (whole_body reply) (clock w)]> kids))
      with (delete tmp (<[tmp := File (whole_body reply) (clock w)]> kids)).
    rewrite delete_insert_eq, delete_id by done. by rewrite holding_kids. }
  assert (Hrename : rename (d ++ [tmp]) (d ++ [c]) (holding K4) =
            if blocked (kids !! c) then inl EISDIR else inr stored).
  { unfold rename. rewrite stat_holding. unfold K4 at 1. rewrite lookup_insert_eq.
    rewrite decide_False; [|intros Heq; apply app_inv_head in Heq; injection Heq as Heq;
                             by apply (Hc n)].
    rewrite at_entry_holding. unfold K4 at 1. rewrite lookup_insert_ne by apply not_eq_sym, Hc.
    destruct (kids !! c) as [[| |r' kids']|] eqn:Hkc; simpl; try done;
      rewrite at_entry_holding; unfold stored; do 2 f_equal;
      apply map_eq; intros x;
      (destruct (decide (x = tmp)) as [->|Hx];
       [ rewrite lookup_partial_alter_eq, lookup_insert_ne by apply Hc; by rewrite Hfree
       | rewrite lookup_partial_alter_ne by done;
         change (partial_alter (λ _, Some (File (whole_body reply) (clock w))) c K4)
           with (<[c := File (whole_body reply) (clock w)]> K4);
         destruct (decide (x = c)) as [->|Hxc];
         [ by rewrite !lookup_insert_eq
         | unfold K4; by rewrite !lookup_insert_ne ] ]). }
  set (attempt :=
         try_except (Cache.stream_to h (d ++ [tmp]) url) is_OSError
           (λ e, raise (RepoDownloadError
                          ("Failed to download repodata file " +:+ Text.basename url) e)) ;;
         writing (rename (d ++ [tmp]) (d ++ [c])) ;;
         t ← get_fs; mret (contents (d ++ [c]) t)).
  assert (Hattempt : attempt w3 =
            match failure reply with
            | Some e => (w4, Raise (reported url e))
            | None => if blocked (kids !! c) then (w4, Raise (OSError EISDIR))
                      else (put_fs stored w4, Return (whole_body reply))
            end).
  { unfold attempt. destruct (failure reply) as [e|] eqn:Hfail.
    - apply run_bind_raise. unfold try_except. rewrite Hstream.
      unfold reported, raise. by destruct (is_OSError e).
    - assert (Hok : try_except (Cache.stream_to h (d ++ [tmp]) url) is_OSError
                (λ e, raise (RepoDownloadError
                               ("Failed to download repodata file " +:+ Text.basename url) e))
                w3 = (w4, Return tt)).
      { unfold try_except. by rewrite Hstream. }
      rewrite (run_bind_return _ _ _ _ _ Hok). rewrite run_bind_writing. cbn [fs w4].
      rewrite Hrename. destruct (blocked (kids !! c)); [done|].
      rewrite run_bind_get_fs. cbn [fs put_fs]. unfold mret, Run_ret. f_equal. f_equal.
      unfold contents, stored. by rewrite stat_holding, lookup_insert_eq. }
  exists n, rest, (holding K4 :: news ++ [base]).
  split; [done|]. split; [done|]. split.
  { constructor; [done|]. apply Forall_app. split; [done|].
    constructor; [apply beside_base|done]. }
  unfold try_except. fold attempt. rewrite Hattempt.
  assert (Hcleanup : ∀ e, (writing (unlink (d ++ [tmp])) ;; raise e) w4 =
            (State (clock w) base ((holding K4 :: news ++ [base]) ++ trail w) rest
                   (url :: http_log w) (librepo_log w), Raise e : outcome bytes)).
  { intros e. rewrite run_bind_writing. cbn [fs w4]. rewrite Hunlink.
    unfold raise, put_fs. simpl. by rewrite <- app_assoc. }
  destruct (failure reply) as [e|]; [apply Hcleanup|].
  destruct (blocked (kids !! c)); [apply Hcleanup|].
  unfold put_fs. simpl. by rewrite <- app_assoc.
Qed.

End StoreFacts.

Lemma rmtree_node_left n m : rmtree_node n = Some m → ∃ r kids, m = Dir r kids.
Proof.
  destruct n as [| |[] kids]; simpl; try done.
  - destruct (decide _); [done|]. intros [= <-]. eauto.
  - intros [= <-]. eauto.
Qed.

Lemma rmtree_at d c t r0 kids0 :
  stat (d ++ [c]) t = inr (Dir r0 kids0) →
  ∃ r kids,
    stat d t = inr (Dir r kids) ∧ kids !! c = Some (Dir r0 kids0) ∧
    rmtree_ignore_errors (d ++ [c]) t =
      graft d (Dir r (partial_alter (λ _, rmtree_node (Dir r0 kids0)) c kids)) t.
Proof.
  intros Hp. destruct (stat_snoc_inv _ _ _ _ Hp) as (r & kids & Hd & Hc).
  exists r, kids. split; [done|]. split; [done|].
  unfold rmtree_ignore_errors. rewrite (at_entry_snoc _ _ _ _ _ _ Hd), Hc. done.
Qed.

Section DownloadFacts.

Context (h : host) (checksum url : string).
Hypothesis Hhex : Text.is_hex checksum = true.

Let p := Cache.entry_path h checksum.

Lemma download_unfold w :
  Cache.download_repodata_file h checksum url w =
    match open_rb p (fs w) with
    | inr _ =>
        (now ← time; writing (utime now p) ;; t ← get_fs; mret (contents p t)) w
    | inl e =>
        ((if decide (e = ENOENT) then mret tt
          else if decide (e = EISDIR)
               then λ w, (put_fs (rmtree_ignore_errors p (fs w)) w, Return tt)
               else raise (OSError e)) ;;
         writing (mkdir_p (PurePath.parent p)) ;;
         store h p url) w
    end.
Proof.
  unfold Cache.download_repodata_file. rewrite run_bind_get_fs. fold p.
  by destruct (open_rb p (fs w)).
Qed.

(** A hit: the file is returned, its time refreshed, nothing else changes. *)
Lemma hit_run w data mtime :
  stat p (fs w) = inr (File data mtime) →
  Cache.download_repodata_file h checksum url w =
    (State (clock w) (graft p (File data (clock w)) (fs w)) (fs w :: trail w)
           (tmp_names w) (http_log w) (librepo_log w),
     Return data).
Proof.
  intros Hp. rewrite download_unfold. unfold open_rb. rewrite Hp.
  destruct (entry_path_snoc h checksum Hhex) as (d & c & Hsplit & _). fold p in Hsplit.
  rewrite Hsplit in Hp |- *.
  destruct (stat_snoc_inv _ _ _ _ Hp) as (r & kids & Hd & Hc).
  rewrite run_bind_time, run_bind_writing. unfold utime.
  rewrite (at_entry_snoc _ _ _ _ _ _ Hd), Hc.
  assert (Hgraft : graft d (Dir r (partial_alter (λ _, Some (File data (clock w))) c kids)) (fs w)
                   = graft (d ++ [c]) (File data (clock w)) (fs w)).
  { rewrite (graft_app _ [c] _ _ _ Hd). simpl. do 2 f_equal.
    apply map_eq. intros x. destruct (decide (x = c)) as [->|Hx].
    - by rewrite lookup_partial_alter_eq, lookup_alter_eq, Hc.
    - by rewrite lookup_partial_alter_ne, lookup_alter_ne. }
  rewrite Hgraft, run_bind_get_fs. unfold put_fs, mret, Run_ret. simpl.
  unfold contents. by rewrite (stat_graft _ _ _ _ Hp).
Qed.

(** A miss: repair, [mkdir], then the store. *)
Lemma miss_run w e :
  open_rb p (fs w) = inl e →
  e = ENOENT ∨ e = EISDIR →
  let w1 := if decide (e = ENOENT) then w else put_fs (rmtree_ignore_errors p (fs w)) w in
  Cache.download_repodata_file h checksum url w =
    match mkdir_p (PurePath.parent p) (fs w1) with
    | inr t2 => store h p url (put_fs t2 w1)
    | inl e' => (w1, Raise (OSError e'))
    end.
Proof.
  intros Hopen He w1. rewrite download_unfold, Hopen.
  assert (Hrepair : (if decide (e = ENOENT) then (mret tt : Run unit)
                     else if decide (e = EISDIR)
                          then λ w, (put_fs (rmtree_ignore_errors p (fs w)) w, Return tt)
                          else raise (OSError e)) w = (w1, Return tt)).
  { unfold w1. destruct (decide (e = ENOENT)); [done|].
    destruct He as [?| ->]; [done|]. by rewrite decide_True. }
  rewrite (run_bind_return _ _ _ _ _ Hrepair). by rewrite run_bind_writing.
Qed.

Lemma other_error_run w e :
  open_rb p (fs w) = inl e → e ≠ ENOENT → e ≠ EISDIR →
  Cache.download_repodata_file h checksum url w = (w, Raise (OSError e)).
Proof.
  intros Hopen H1 H2. rewrite download_unfold, Hopen.
  apply run_bind_raise. by rewrite !decide_False.
Qed.

End DownloadFacts.

Lemma stat_errno p : ∀ t e, stat p t = inl e → e = ENOENT ∨ e = ENOTDIR.
Proof.
  induction p as [|x p IH]; intros t e; simpl; [done|].
  destruct t as [| |r kids]; try (intros [= <-]; by right).
  destruct (kids !! x); [apply IH|]. intros [= <-]. by left.
Qed.

Lemma is_file_stat p s t : stat p s = stat p t → is_file p s = is_file p t.
Proof. unfold is_file. by intros ->. Qed.

Lemma open_rb_inr p t data :
  open_rb p t = inr data → ∃ mtime, stat p t = inr (File data mtime).
Proof.
  unfold open_rb. destruct (stat p t) as [e|[data' mtime| |r kids]]; try done.
  intros [= <-]. by exists mtime.
Qed.


Lemma open_rb_inl_is_file p t e : open_rb p t = inl e → is_file p t = false.
Proof.
  unfold is_file, open_rb. by destruct (stat p t) as [e'|[data' mtime| |r kids]].
Qed.

Section MissFacts.

Context (h : host) (checksum url : string) (d : Path) (c : string).
Hypothesis Hhex : Text.is_hex checksum = true.
Hypothesis Hsplit : Cache.entry_path h checksum = d ++ [c].
Hypothesis Hc : ∀ n, c ≠ ("tmp" +:+ n)%string.

Lemma repaired_facts w e :
  open_rb (d ++ [c]) (fs w) = inl e →
  e = ENOENT ∨ e = EISDIR →
  let w1 := repaired (d ++ [c]) e w in
  is_file (d ++ [c]) (fs w1) = false ∧
  (∀ n, stat (d ++ [n]) (fs w) = inl ENOENT → stat (d ++ [n]) (fs w1) = inl ENOENT) ∧
  (∃ pre, trail w1 = pre ++ trail w ∧ Forall (λ s, is_file (d ++ [c]) s = false) pre) ∧
  http_log w1 = http_log w ∧ clock w1 = clock w ∧ tmp_names w1 = tmp_names w ∧
  librepo_log w1 = librepo_log w.
Proof.
  intros Hopen He w1. unfold w1, repaired.
  pose proof (open_rb_inl_is_file _ _ _ Hopen) as Hnofile.
  destruct (decide (e = ENOENT)) as [->|Hne].
  - split; [done|]. split; [done|]. split; [by exists []|]. done.
  - destruct He as [?| ->]; [done|].
    assert (∃ r0 kids0, stat (d ++ [c]) (fs w) = inr (Dir r0 kids0)) as (r0 & kids0 & Hp).
    { unfold open_rb in Hopen.
      destruct (stat (d ++ [c]) (fs w)) as [e'|[| |r0 kids0]] eqn:Hst; try done; [|by eauto].
      injection Hopen as ->. by destruct (stat_errno _ _ _ Hst). }
    destruct (rmtree_at _ _ _ _ _ Hp) as (r & kids & Hd & Hkc & Hrm).
    simpl. rewrite Hrm.
    set (K1 := partial_alter (λ _, rmtree_node (Dir r0 kids0)) c kids).
    assert (Hstat1 : ∀ n, stat (d ++ [n]) (graft d (Dir r K1) (fs w)) =
                          match K1 !! n with Some m => inr m | None => inl ENOENT end).
    { intros n. apply (stat_snoc _ _ _ r). apply (stat_graft _ _ _ _ Hd). }
    split; [|split; [|split]].
    + unfold is_file. rewrite Hstat1. unfold K1. rewrite lookup_partial_alter_eq.
      destruct (rmtree_node (Dir r0 kids0)) as [left|] eqn:Hleft; [|done].
      by destruct (rmtree_node_left _ _ Hleft) as (r' & kids' & ->).
    + intros n Hn. rewrite Hstat1. unfold K1.
      rewrite (stat_snoc _ _ _ _ _ Hd) in Hn.
      destruct (decide (n = c)) as [->|Hnc].
      * by rewrite Hkc in Hn.
      * rewrite lookup_partial_alter_ne by done. by destruct (kids !! n).
    + exists [fs w]. split; [done|]. by constructor.
    + done.
Qed.

(** Every way a call can go. *)
Lemma download_cases w w' res :
  Cache.download_repodata_file h checksum url w = (w', res) →
  let p := d ++ [c] in
  let reply := http_get h (http_log w) url in
  ∃ news,
    trail w' = news ++ trail w ∧
    ((∃ data mtime,
        stat p (fs w) = inr (File data mtime) ∧ res = Return data ∧
        fs w' = graft p (File data (clock w)) (fs w) ∧
        http_log w' = http_log w ∧ news = [fs w])
     ∨
     (is_file p (fs w) = false ∧
      Forall (λ s, is_file p s = false) news ∧
      ((failure reply = None ∧ res = Return (whole_body reply) ∧
        stat p (fs w') = inr (File (whole_body reply) (clock w)) ∧
        http_log w' = url :: http_log w)
       ∨
       (∃ e, res = Raise e ∧
             is_file p (fs w') = false ∧
             (∀ n, stat (d ++ [n]) (fs w) = inl ENOENT → stat (d ++ [n]) (fs w') = inl ENOENT) ∧
             (http_log w' = http_log w
              ∨ (http_log w' = url :: http_log w ∧
                 e = match failure reply with
                     | Some e' => reported url e'
                     | None => OSError EISDIR
                     end)))))).
Proof.
  intros Hrun p reply.
  destruct (open_rb p (fs w)) as [e|data] eqn:Hopen.
  2: { (* hit *)
    destruct (open_rb_inr _ _ _ Hopen) as (mtime & Hp).
    pose proof (hit_run h checksum url Hhex w data mtime) as Hhit.
    rewrite Hsplit in Hhit. rewrite (Hhit Hp) in Hrun. injection Hrun as <- <-.
    exists [fs w]. split; [done|]. left. by exists data, mtime. }
  pose proof (open_rb_inl_is_file _ _ _ Hopen) as Hnofile.
  destruct (decide (e = ENOENT ∨ e = EISDIR)) as [He|He].
  2: { (* an error that is passed on *)
    pose proof (other_error_run h checksum url w e) as Hother.
    rewrite Hsplit in Hother. rewrite Hother in Hrun by tauto. injection Hrun as <- <-.
    exists []. split; [done|]. right. split; [done|]. split; [done|].
    right. exists (OSError e). split; [done|]. split; [done|]. split; [done|]. by left. }
  pose proof (miss_run h checksum url w e) as Hmiss.
  rewrite Hsplit, parent_snoc in Hmiss. specialize (Hmiss Hopen He). simpl in Hmiss.
  fold (repaired (d ++ [c]) e w) in Hmiss.
  destruct (repaired_facts w e Hopen He)
    as (Hnofile1 & Hnames1 & (pre & Htrail1 & Hpre) & Hlog1 & Hclock1 & Htmp1 & Hlib1).
  set (w1 := repaired (d ++ [c]) e w) in *.
  rewrite Hmiss in Hrun. clear Hmiss.
  destruct (mkdir_p d (fs w1)) as [e'|t2] eqn:Hmkdir.
  { (* mkdir fails *)
    injection Hrun as <- <-. exists pre. split; [done|]. right.
    split; [done|]. split; [done|]. right. exists (OSError e').
    split; [done|]. split; [done|]. split; [done|]. by left. }
  destruct (mkdir_p_below _ _ _ Hmkdir) as ((r2 & kids2 & Hd2) & Hbelow & _).
  assert (Hnofile2 : is_file p t2 = false).
  { rewrite <- Hnofile1. apply is_file_stat, Hbelow. }
  assert (Hnames2 : ∀ n, stat (d ++ [n]) (fs w) = inl ENOENT → stat (d ++ [n]) t2 = inl ENOENT).
  { intros n Hn. rewrite Hbelow. by apply Hnames1. }
  destruct (store_run h d r2 t2 kids2 Hd2 c url (put_fs t2 w1) Hc eq_refl)
    as [[Hstore _] | (n & rest & news & _ & _ & Hnews & Hstore)];
    rewrite Hstore in Hrun; injection Hrun as <- <-; cbn [trail fs http_log clock put_fs].
  - (* no temporary name is free *)
    exists (fs w1 :: pre). split; [by rewrite Htrail1|]. right.
    split; [done|]. split; [by constructor|]. right. exists (OSError EEXIST).
    split; [done|]. split; [done|]. split; [done|]. left. by rewrite Hlog1.
  - exists (news ++ fs w1 :: pre). split; [by rewrite Htrail1, <- app_assoc|]. right.
    split; [done|]. split.
    { apply Forall_app. split; [|by constructor].
      eapply Forall_impl; [exact Hnews|]. intros s Hs. simpl.
      rewrite <- Hnofile2. apply is_file_stat.
      by apply (beside_stat d r2 t2 kids2 Hd2 _ s c Hs). }
    rewrite Hlog1, Hclock1. fold reply.
    destruct (failure reply) as [e'|] eqn:Hfail.
    + right. exists (reported url e'). split; [done|]. split; [done|]. split; [done|]. by right.
    + destruct (blocked (kids2 !! c)) eqn:Hblocked.
      * right. exists (OSError EISDIR). split; [done|]. split; [done|]. split; [done|].
        by right.
      * left. split; [done|]. split; [done|]. split; [|done]. unfold p.
        rewrite (stat_snoc _ _ _ r2 (<[c := File (whole_body reply) (clock w)]> kids2)).
        -- by rewrite lookup_insert_eq.
        -- apply (stat_graft _ _ _ _ Hd2).
Qed.

End MissFacts.



(** C4: a hexadecimal checksum whose entry is a regular file is served from
    the cache:
    the call returns the bytes of the file, sets its modification time to
    the clock, changes nothing else in the tree and requests nothing from
    the network.  So when a call has returned some content, the next call
    for the checksum, at any later time and whatever URL it is given,
    returns the same content without a request, and the entry still holds
    that content. *)
Theorem cached_entry_is_reused h checksum url w :
  Text.is_hex checksum = true →
  let p := Cache.entry_path h checksum in
  (∀ data mtime,
     stat p (fs w) = inr (File data mtime) →
     ∃ w', Cache.download_repodata_file h checksum url w = (w', Return data) ∧
           fs w' = graft p (File data (clock w)) (fs w) ∧
           stat p (fs w') = inr (File data (clock w)) ∧
           http_log w' = http_log w) ∧
  (∀ w1 content,
     Cache.download_repodata_file h checksum url w = (w1, Return content) →
     ∀ url2 now2,
       ∃ w2, Cache.download_repodata_file h checksum url2 (at_time now2 w1) =
               (w2, Return content) ∧
             http_log w2 = http_log w1 ∧
             stat p (fs w2) = inr (File content now2)).
Proof.
  intros Hhex p.
  assert (Hhit : ∀ url w data mtime,
            stat p (fs w) = inr (File data mtime) →
            ∃ w', Cache.download_repodata_file h checksum url w = (w', Return data) ∧
                  fs w' = graft p (File data (clock w)) (fs w) ∧
                  stat p (fs w') = inr (File data (clock w)) ∧
                  http_log w' = http_log w).
  { intros url0 w0 data mtime Hp. eexists. split; [by apply (hit_run h checksum url0 Hhex w0 data mtime)|].
    simpl. split; [done|]. split; [|done]. by apply (stat_graft _ _ _ _ Hp). }
  split; [by apply Hhit|].
  intros w1 content Hrun url2 now2.
  destruct (entry_path_snoc h checksum Hhex) as (d & c & Hsplit & Hc).
  destruct (download_cases h checksum url d c Hhex Hsplit Hc w w1 _ Hrun)
    as (news & Htrail & Hcases).
  assert (∃ mtime, stat p (fs w1) = inr (File content mtime)) as [mtime Hp1].
  { unfold p. rewrite Hsplit.
    destruct Hcases as [(data & mtime & Hp & [= ->] & Hfs & _)
                       |(_ & _ & [(_ & [= ->] & Hstored & _)|(e & [=] & _)])].
    - exists (clock w). rewrite Hfs. by apply (stat_graft _ _ _ _ Hp).
    - by eexists. }
  destruct (Hhit url2 (at_time now2 w1) content mtime Hp1) as (w2 & Hrun2 & _ & Hp2 & Hlog2).
  by exists w2.
Qed.


(** A miss followed by a hit, evaluated: the first call stores the two chunks
    and returns them, the second returns the same bytes, and one request was
    made in all. *)
Example download_then_reuse :
  let first := Cache.download_repodata_file serving_host "abcdef" primary_url
                 (world_of 1000 empty_disk) in
  let second := Cache.download_repodata_file serving_host "abcdef" primary_url
                  (at_time 2000 first.1) in
  first.2 = Return [Byte.x1f; Byte.x8b; Byte.x08] ∧
  stat (Cache.entry_path serving_host "abcdef") (fs first.1) =
    inr (File [Byte.x1f; Byte.x8b; Byte.x08] 1000) ∧
  second.2 = Return [Byte.x1f; Byte.x8b; Byte.x08] ∧
  stat (Cache.entry_path serving_host "abcdef") (fs second.1) =
    inr (File [Byte.x1f; Byte.x8b; Byte.x08] 2000) ∧
  http_log second.1 = [primary_url] ∧
  tmp_names second.1 = ["w0_tz81b"%string].
Proof. repeat split; vm_compute; reflexivity. Qed.


Lemma cached_entry_is_reused_witness :
  ∃ w', Cache.download_repodata_file plain_host "abcdef" primary_url
          (world_of 1000 (cache_disk warm_cache)) =
          (w', Return [Byte.x1f; Byte.x8b; Byte.x08]) ∧
        http_log w' = [].
Proof.
  destruct (cached_entry_is_reused plain_host "abcdef" primary_url
              (world_of 1000 (cache_disk warm_cache))) as [Hhit _]; [reflexivity|].
  destruct (Hhit [Byte.x1f; Byte.x8b; Byte.x08] 100) as (w' & Hrun & _ & _ & Hlog);
    [reflexivity|].
  exists w'. split; [exact Hrun | exact Hlog].
Defined.



(** ** Repo.__init__ *)

Lemma init_raises_iff repo_name baseurl metalink skip :
  (∃ e, Repo.__init__ repo_name baseurl metalink skip = Raise e) ↔
  Repo.truthy baseurl = false ∧ Repo.truthy metalink = false.
Proof.
  unfold Repo.__init__.
  destruct (Repo.truthy baseurl), (Repo.truthy metalink); simpl;
    (split; [intros [e He]|intros [H1 H2]]); try discriminate; eauto.
Qed.

Lemma init_returns repo_name baseurl metalink skip :
  Repo.truthy baseurl || Repo.truthy metalink = true →
  Repo.__init__ repo_name baseurl metalink skip =
    Return (Repo.Make repo_name baseurl metalink skip None None).
Proof.
  unfold Repo.__init__.
  by destruct (Repo.truthy baseurl), (Repo.truthy metalink).
Qed.

(** C7 at the failing input: a base URL and a metalink given together are
    accepted, and the repository then has both set, although the docstring
    of [__init__] asks for exactly one. *)
Lemma init_accepts_baseurl_with_metalink :
  ∃ r, Repo.__init__ "dummy" (Some "http://example.invalid/dummy"%string)
                     (Some "http://example.invalid/metalink"%string) false = Return r ∧
       Repo.baseurl r = Some "http://example.invalid/dummy"%string ∧
       Repo.metalink r = Some "http://example.invalid/metalink"%string.
Proof. eexists. split; [reflexivity|]. split; reflexivity. Qed.

(** ** Repo.from_yum_config *)

(** C6, as stated, fails: a section that has a baseurl and a metalink is not
    rejected; the generator yields a repository for it, built from the
    baseurl alone, and ends without an error. *)
Lemma from_yum_config_accepts_two_sources :
  Repo.from_yum_config both_sources_host =
    ([Repo.Make "dummy" (Some "http://example.invalid/dummy"%string) None false None None],
     Return tt).
Proof. vm_compute. reflexivity. Qed.

(** The configurations of the repository's own tests. *)
Example loads_system_yum_repo_with_mirrorlist :
  Repo.generate (Config ∅ []) []
    [("main"%string, ∅);
     ("dummy"%string, {["name"%string := "Dummy"%string;
                        "mirrorlist"%string := "http://example.invalid/dummy"%string]})] =
  ([Repo.Make "dummy" None (Some "http://example.invalid/dummy"%string) false None None],
   Return tt).
Proof. vm_compute. reflexivity. Qed.

Example skips_disabled_system_yum_repo :
  Repo.generate (Config ∅ []) []
    [("main"%string, ∅);
     ("dummy"%string, {["name"%string := "Dummy"%string;
                        "baseurl"%string := "http://example.invalid/dummy"%string;
                        "enabled"%string := "0"%string]})] =
  ([], Return tt).
Proof. vm_compute. reflexivity. Qed.

Example loads_system_yum_repo_with_substitutions :
  Repo.generate (Config ∅ []) [("releasever", "21"); ("basearch", "s390x")]%string
    [("main"%string, ∅);
     ("dummy"%string,
      {["name"%string := "Dummy"%string;
        "baseurl"%string := "http://example.invalid/$releasever/$basearch/"%string]})] =
  ([Repo.Make "dummy" (Some "http://example.invalid/21/s390x/"%string) None false None None],
   Return tt).
Proof. vm_compute. reflexivity. Qed.

Example skip_if_unavailable_is_obeyed :
  Repo.generate (Config ∅ []) []
    [("dummy"%string, {["baseurl"%string := "http://example.invalid/dummy"%string;
                        "enabled"%string := "1"%string;
                        "skip_if_unavailable"%string := "1"%string]})] =
  ([Repo.Make "dummy" (Some "http://example.invalid/dummy"%string) None true None None],
   Return tt).
Proof. vm_compute. reflexivity. Qed.

Lemma generate_app config yumvars before after yielded :
  Repo.generate config yumvars before = (yielded, Return tt) →
  Repo.generate config yumvars (before ++ after) =
    (yielded ++ (Repo.generate config yumvars after).1,
     (Repo.generate config yumvars after).2).
Proof.
  revert yielded. induction before as [|[section options] before IH]; intros yielded; simpl.
  - intros [= <-]. by destruct (Repo.generate _ _ after).
  - destruct (Repo.from_section _ _ _ _) as [[r|]|e]; [| |done].
    + destruct (Repo.generate config yumvars before) as [ys ending] eqn:Hgen.
      intros [= <- ->]. by rewrite (IH ys eq_refl).
    + apply IH.
Qed.

(** C6, amended: a section other than "main" that is not switched off must
    have at least one of baseurl, metalink and mirrorlist.  With none, the
    loop raises a [ValueError] whose text names the section, after the
    repositories of the sections before it.  A mirrorlist is passed on as the
    metalink, exactly like a metalink; a baseurl goes first, then a metalink,
    then a mirrorlist, and the ones not chosen are ignored. *)
Theorem from_yum_config_sources config yumvars section options skip :
  section ≠ "main"%string →
  enabled_flag config options = Return true →
  skip_flag config options = Return skip →
  let has := Repo.has_option config options in
  let value o := Repo.substitute_yumvars (Repo.get config options o) yumvars in
  let body := Repo.from_section config yumvars section options in
  (has "baseurl" = false → has "metalink" = false → has "mirrorlist" = false →
     body = Raise (ValueError ("Yum config section " +:+ section +:+
                               " has no baseurl or metalink or mirrorlist")) ∧
     ∀ before after yielded,
       Repo.generate config yumvars before = (yielded, Return tt) →
       Repo.generate config yumvars (before ++ (section, options) :: after) =
         (yielded, Raise (ValueError (Repo.no_source_message section)))) ∧
  (has "baseurl" = true →
     body = yielding (Repo.__init__ section (Some (value "baseurl")) None skip)) ∧
  (has "baseurl" = false → has "metalink" = true →
     body = yielding (Repo.__init__ section None (Some (value "metalink")) skip)) ∧
  (has "baseurl" = false → has "metalink" = false → has "mirrorlist" = true →
     body = yielding (Repo.__init__ section None (Some (value "mirrorlist")) skip)).
Proof.
  intros Hmain Hen Hskip has value body.
  assert (Hbody : body =
    if has "baseurl" then yielding (Repo.__init__ section (Some (value "baseurl")) None skip)
    else if has "metalink"
         then yielding (Repo.__init__ section None (Some (value "metalink")) skip)
    else if has "mirrorlist"
         then yielding (Repo.__init__ section None (Some (value "mirrorlist")) skip)
    else Raise (ValueError (Repo.no_source_message section))).
  { unfold body, Repo.from_section. rewrite bool_decide_eq_false_2 by done.
    unfold enabled_flag in Hen. rewrite Hen.
    unfold skip_flag in Hskip. rewrite Hskip. done. }
  split; [|split; [|split]].
  - intros H1 H2 H3. split; [by rewrite Hbody, H1, H2, H3|].
    intros before after yielded Hbefore.
    rewrite (generate_app _ _ _ _ _ Hbefore). simpl.
    fold body. rewrite Hbody, H1, H2, H3. simpl. by rewrite app_nil_r.
  - intros H1. by rewrite Hbody, H1.
  - intros H1 H2. by rewrite Hbody, H1, H2.
  - intros H1 H2 H3. by rewrite Hbody, H1, H2, H3.
Qed.

Lemma from_yum_config_sources_witness :
  Repo.from_section (Config ∅ []) [] "dummy" {["name"%string := "Dummy"%string]} =
    Raise (ValueError "Yum config section dummy has no baseurl or metalink or mirrorlist") ∧
  Repo.from_section (Config ∅ []) [] "dummy"
       {["mirrorlist"%string := "http://example.invalid/dummy"%string]} =
    yielding (Repo.__init__ "dummy" None (Some "http://example.invalid/dummy"%string) false).
Proof.
  split.
  - destruct (from_yum_config_sources (Config ∅ []) [] "dummy"
                {["name"%string := "Dummy"%string]} false) as [Hnone _];
      [discriminate | reflexivity | reflexivity |].
    apply Hnone; reflexivity.
  - destruct (from_yum_config_sources (Config ∅ []) [] "dummy"
                {["mirrorlist"%string := "http://example.invalid/dummy"%string]} false)
      as (_ & _ & _ & Hmirror); [discriminate | reflexivity | reflexivity |].
    apply Hmirror; reflexivity.
Defined.

(** ** Repo._is_header_complete and Repo.download_package_header *)

Section ProbeFacts.

Context (h : host).

Lemma is_header_complete_run local_path w :
  Repo._is_header_complete h local_path w =
    (w, match open_rb (PurePath.of_string local_path) (fs w) with
        | inr data => Return (hdrFromFdno h data)
        | inl e => if decide (e = ENOENT) then Return false else Raise (OSError e)
        end).
Proof.
  unfold Repo._is_header_complete, try_except, mbind, Run_bind, reading, mret, Run_ret.
  destruct (open_rb _ (fs w)) as [e|data]; simpl; [|done].
  by destruct e.
Qed.

Lemma is_header_complete_returns local_path w b :
  Repo._is_header_complete h local_path w = (w, Return b) →
  header_present h local_path (fs w) = b.
Proof.
  rewrite is_header_complete_run. unfold header_present.
  destruct (open_rb _ (fs w)) as [e|data].
  - destruct (decide (e = ENOENT)); congruence.
  - congruence.
Qed.

(** What one download does to the world. *)
Lemma download_packages_run location base_url dest c w :
  ∃ w1 target_err,
    Repo.download_packages h location base_url dest c w = (w1, Return target_err) ∧
    librepo_log w1 = c :: librepo_log w ∧
    (trail w1 = trail w ∧ fs w1 = fs w ∨ trail w1 = fs w :: trail w).
Proof.
  unfold Repo.download_packages.
  destruct (librepo_download h location base_url c) as [data|err].
  - destruct (at_entry _ _ (fs w)) as [e|t'].
    + eexists _, _. split; [done|]. split; [done|]. by left.
    + eexists _, _. split; [done|]. split; [done|]. by right.
  - eexists _, _. split; [done|]. split; [done|]. by left.
Qed.

Lemma probe_run self location base_url dest cs w w' r :
  Repo.probe h self location base_url dest cs w = (w', r) →
  let local_path := Text.join dest (Text.basename location) in
  ∃ k earlier,
    (k ≤ length cs)%nat ∧ (cs ≠ [] → (1 ≤ k)%nat) ∧
    librepo_log w' = rev (take k cs) ++ librepo_log w ∧
    trail w' = earlier ++ trail w ∧
    (header_present h local_path (fs w) = false →
       Forall (λ s, header_present h local_path s = false) earlier) ∧
    match r with
    | Return p => p = local_path ∧
                  ((k < length cs)%nat → header_present h local_path (fs w') = true)
    | Raise e => (∃ msg, e = PackageDownloadError msg) ∨ (∃ en, e = OSError en)
    end.
Proof.
  intros Hrun local_path. revert w Hrun.
  induction cs as [|c rest IH]; intros w; simpl.
  - intros [= <- <-]. exists 0%nat, []. simpl. repeat split; try done; lia.
  - unfold mbind at 1, Run_bind at 1.
    destruct (download_packages_run location base_url dest c w)
      as (w1 & target_err & -> & Hlog & Htrail).
    assert (Hearlier : ∃ pre, trail w1 = pre ++ trail w ∧
              (header_present h local_path (fs w) = false →
               Forall (λ s, header_present h local_path s = false) pre)).
    { destruct Htrail as [[Ht _]|Ht].
      - exists []. by rewrite Ht.
      - exists [fs w]. rewrite Ht. split; [done|]. intros Hw. by constructor. }
    destruct Hearlier as (pre & Hpre & Hpre_absent).
    destruct (_ && _).
    { intros [= <- <-]. exists 1%nat, pre. simpl.
      repeat split; try done; try lia. left. by eexists. }
    unfold mbind, Run_bind. fold local_path.
    destruct (Repo._is_header_complete h local_path w1) as [w1' [[]|e]] eqn:Hcheck;
      (assert (w1' = w1) as -> by (rewrite is_header_complete_run in Hcheck; congruence)).
    + intros [= <- <-]. exists 1%nat, pre. simpl.
      repeat split; try done; try lia.
      intros _. by apply is_header_complete_returns.
    + intros Hrest. destruct (IH _ Hrest) as (k & earlier & Hk & _ & Hlog' & Htrail' & Habs & Hr).
      exists (S k), (earlier ++ pre). simpl.
      repeat split; try lia.
      * rewrite Hlog', Hlog. by rewrite <- app_assoc.
      * rewrite Htrail', Hpre. by rewrite app_assoc.
      * intros Hw. apply Forall_app. split; [|by apply Hpre_absent].
        apply Habs. by apply is_header_complete_returns.
      * destruct r as [p|e]; [|done]. destruct Hr as [-> Hr]. split; [done|].
        intros Hlt. apply Hr. lia.
    + intros [= <- <-]. exists 1%nat, pre. simpl.
      repeat split; try done; try lia. right.
      rewrite is_header_complete_run in Hcheck.
      destruct (open_rb _ (fs w1)) as [en|data]; [|done].
      destruct (decide (en = ENOENT)); [done|]. injection Hcheck as <-. by exists en.
Qed.

End ProbeFacts.

Lemma download_package_header_remote h self location baseurl root w :
  Repo._root_path self = Some root →
  handle_is_local self = false →
  Repo._is_header_complete h (Text.join root (Text.basename location)) w = (w, Return false) →
  Repo.download_package_header h self location baseurl w =
    Repo.probe h self location baseurl root ceilings w.
Proof.
  intros Hroot Hlocal Hcheck. unfold Repo.download_package_header.
  rewrite Hroot. unfold handle_is_local in Hlocal. rewrite Hlocal.
  unfold mbind, Run_bind. by rewrite Hcheck.
Qed.



Section SimulatedRemote.

Context (h : host) (self : Repo.t) (location baseurl dest : string).
Context (pkg : bytes) (header_size : Z).
Hypothesis Hremote : simulated_remote h location baseurl pkg header_size.

Let local_path := Text.join dest (Text.basename location).

Lemma download_packages_saved c w :
  can_save (PurePath.of_string local_path) (fs w) →
  ∃ w1,
    Repo.download_packages h location baseurl dest c w = (w1, Return None) ∧
    librepo_log w1 = c :: librepo_log w ∧
    open_rb (PurePath.of_string local_path) (fs w1) = inr (delivered pkg c) ∧
    can_save (PurePath.of_string local_path) (fs w1).
Proof.
  intros (d & name & r & kids & Hp & Hdir & Hfree).
  unfold Repo.download_packages. destruct Hremote as [Hdl _]. rewrite Hdl.
  fold local_path. fold (delivered pkg c). rewrite Hp.
  rewrite (at_entry_snoc _ _ _ _ _ _ Hdir).
  destruct (kids !! name) as [[| |r' kids']|] eqn:Hk;
    [| |by destruct (Hfree r' kids')|];
    (eexists; split; [done|]; split; [done|]; simpl; split;
     [ unfold open_rb; rewrite (stat_graft_below _ _ _ _ _ Hdir); simpl;
       by rewrite lookup_partial_alter_eq
     | eexists d, name, r, _; split; [done|]; split;
       [ by apply (stat_graft _ _ _ _ Hdir)
       | intros r' kids'; by rewrite lookup_partial_alter_eq ] ]).
Qed.

Lemma probe_cons c rest w :
  Repo.probe h self location baseurl dest (c :: rest) w =
    (target_err ← Repo.download_packages h location baseurl dest c;
     if Repo.truthy target_err
        && negb (bool_decide (target_err = Some "Already downloaded"%string))
     then raise (PackageDownloadError
                   (Repo.download_failed_message self location (default EmptyString target_err)))
     else
       complete ← Repo._is_header_complete h local_path;
       if complete : bool then mret local_path
       else Repo.probe h self location baseurl dest rest) w.
Proof. reflexivity. Qed.

(** One turn of the loop against the simulated remote. *)
Lemma probe_simulated c rest w :
  can_save (PurePath.of_string local_path) (fs w) →
  ∃ w1,
    librepo_log w1 = c :: librepo_log w ∧
    can_save (PurePath.of_string local_path) (fs w1) ∧
    header_present h local_path (fs w1) =
      bool_decide (header_size ≤ Z.of_nat (length (delivered pkg c))) ∧
    Repo.probe h self location baseurl dest (c :: rest) w =
      if bool_decide (header_size ≤ Z.of_nat (length (delivered pkg c)))
      then (w1, Return local_path)
      else Repo.probe h self location baseurl dest rest w1.
Proof.
  intros Hsave.
  destruct (download_packages_saved c w Hsave) as (w1 & Hdl & Hlog & Hopen & Hsave1).
  exists w1. split; [done|]. split; [done|].
  assert (Hpresent : header_present h local_path (fs w1) =
            bool_decide (header_size ≤ Z.of_nat (length (delivered pkg c)))).
  { unfold header_present. rewrite Hopen. by destruct Hremote as [_ ->]. }
  split; [done|].
  rewrite probe_cons. unfold mbind at 1, Run_bind at 1. rewrite Hdl. simpl.
  unfold mbind, Run_bind. rewrite is_header_complete_run, Hopen.
  destruct Hremote as [_ ->]. by destruct (bool_decide _).
Qed.

End SimulatedRemote.




(** With a local handle the answer is [local_path], computed from the base
    name of the location; nothing is fetched, probed or changed. *)
Lemma download_package_header_local h self location baseurl w root handle :
  Repo._root_path self = Some root →
  Repo.librepo_handle self = Some handle →
  Repo.local handle = true →
  Repo.download_package_header h self location baseurl w =
    (w, Return (Text.join root (Text.basename location))).
Proof.
  intros Hroot Hhandle Hlocal. unfold Repo.download_package_header.
  by rewrite Hroot, Hhandle, Hlocal.
Qed.

Lemma download_package_header_local_witness :
  Repo.download_package_header plain_host (local_repo "/srv/repo") "b-0.1-1.noarch.rpm"
      "/srv/repo" (world_of 1000 nested_repo_disk) =
    (world_of 1000 nested_repo_disk, Return "/srv/repo/b-0.1-1.noarch.rpm"%string).
Proof.
  apply (download_package_header_local plain_host (local_repo "/srv/repo")
           "b-0.1-1.noarch.rpm" "/srv/repo" (world_of 1000 nested_repo_disk)
           "/srv/repo" {| Repo.local := true |}); reflexivity.
Defined.


(** ** Cache.entry_path *)

(** The components that a hexadecimal checksum adds to the base path. *)
Lemma entry_path_hex h checksum :
  Text.is_hex checksum = true →
  Cache.entry_path h checksum =
    Cache.base_path h ++
      match checksum with
      | EmptyString => []
      | String c EmptyString => [String c EmptyString]
      | String c rest => [String c EmptyString; rest]
      end.
Proof.
  intros Hhex. unfold Cache.entry_path.
  rewrite !div_hex by auto using first_letter_hex, after_first_hex.
  destruct checksum as [|c [|c' rest]]; simpl; by rewrite <- ?app_assoc, ?app_nil_r.
Qed.

(** X1: the entry of a hexadecimal checksum lies inside the cache
    base directory, at most two levels below it, and two hexadecimal
    checksums that differ never share an entry. *)
Theorem entry_path_injective h c1 c2 :
  Text.is_hex c1 = true → Text.is_hex c2 = true →
  Cache.base_path h `prefix_of` Cache.entry_path h c1 ∧
  (length (Cache.entry_path h c1) ≤ length (Cache.base_path h) + 2)%nat ∧
  (Cache.entry_path h c1 = Cache.entry_path h c2 → c1 = c2).
Proof.
  intros H1 H2. rewrite (entry_path_hex h c1 H1), (entry_path_hex h c2 H2).
  split; [by eexists|]. split.
  - rewrite length_app. destruct c1 as [|a [|b r]]; simpl; lia.
  - intros Heq%app_inv_head.
    destruct c1 as [|a1 [|b1 r1]], c2 as [|a2 [|b2 r2]]; simplify_eq; done.
Qed.

Lemma entry_path_injective_witness :
  Cache.base_path plain_host `prefix_of` Cache.entry_path plain_host "abcdef" ∧
  (length (Cache.entry_path plain_host "abcdef") ≤ length (Cache.base_path plain_host) + 2)%nat ∧
  (Cache.entry_path plain_host "abcdef" = Cache.entry_path plain_host "abcdee" →
   "abcdef"%string = "abcdee"%string).
Proof. apply (entry_path_injective plain_host "abcdef" "abcdee"); reflexivity. Defined.

Lemma entry_path_absolute h s :
  Cache.entry_path h (String Text.slash s) = PurePath.of_string s.
Proof.
  unfold Cache.entry_path. simpl Text.first_letter. simpl Text.after_first.
  unfold PurePath.div at 2. simpl Text.starts_with_slash.
  replace (PurePath.of_string "/") with (@nil string) by reflexivity.
  unfold PurePath.div. by destruct (Text.starts_with_slash s).
Qed.

(** A hit, for any checksum whose entry is a proper path. *)
Lemma hit_run_at h checksum url w d c data mtime :
  Cache.entry_path h checksum = d ++ [c] →
  stat (d ++ [c]) (fs w) = inr (File data mtime) →
  Cache.download_repodata_file h checksum url w =
    (State (clock w) (graft (d ++ [c]) (File data (clock w)) (fs w)) (fs w :: trail w)
           (tmp_names w) (http_log w) (librepo_log w),
     Return data).
Proof.
  intros Hsplit Hp. rewrite download_unfold, Hsplit. unfold open_rb. rewrite Hp.
  destruct (stat_snoc_inv _ _ _ _ Hp) as (r & kids & Hd & Hc).
  rewrite run_bind_time, run_bind_writing. unfold utime.
  rewrite (at_entry_snoc _ _ _ _ _ _ Hd), Hc.
  assert (Hgraft : graft d (Dir r (partial_alter (λ _, Some (File data (clock w))) c kids)) (fs w)
                   = graft (d ++ [c]) (File data (clock w)) (fs w)).
  { rewrite (graft_app _ [c] _ _ _ Hd). simpl. do 2 f_equal.
    apply map_eq. intros x. destruct (decide (x = c)) as [->|Hx].
    - by rewrite lookup_partial_alter_eq, lookup_alter_eq, Hc.
    - by rewrite lookup_partial_alter_ne, lookup_alter_ne. }
  rewrite Hgraft, run_bind_get_fs. unfold put_fs, mret, Run_ret. simpl.
  unfold contents. by rewrite (stat_graft _ _ _ _ Hp).
Qed.

(** X2: [entry_path] does not confine a checksum.  For a checksum
    that starts with a slash the entry is the rest of the checksum read as
    an absolute path, whatever the cache directory is; when a regular file
    is there, [download_repodata_file] returns its bytes, sets its
    modification time to the clock and requests nothing. *)
Theorem absolute_checksum_leaves_the_cache h s url w data mtime :
  PurePath.of_string s ≠ [] →
  stat (PurePath.of_string s) (fs w) = inr (File data mtime) →
  Cache.entry_path h (String Text.slash s) = PurePath.of_string s ∧
  ∃ w', Cache.download_repodata_file h (String Text.slash s) url w = (w', Return data) ∧
        stat (PurePath.of_string s) (fs w') = inr (File data (clock w)) ∧
        http_log w' = http_log w.
Proof.
  intros Hne Hfile. split; [apply entry_path_absolute|].
  pose proof (entry_path_absolute h s) as Hentry.
  destruct (PurePath.of_string s) as [|x p] using rev_ind; [done|]. clear IHp.
  eexists. split; [apply (hit_run_at _ _ _ _ _ _ _ _ Hentry Hfile)|].
  simpl. split; [|done]. by apply (stat_graft _ _ _ _ Hfile).
Qed.

Lemma absolute_checksum_leaves_the_cache_witness :
  Cache.entry_path plain_host "/srv/repo/Packages/b-0.1-1.noarch.rpm" =
    ["srv"; "repo"; "Packages"; "b-0.1-1.noarch.rpm"]%string ∧
  ∃ w', Cache.download_repodata_file plain_host "/srv/repo/Packages/b-0.1-1.noarch.rpm"
          primary_url (world_of 1000 nested_repo_disk) =
          (w', Return [Byte.xed; Byte.xab; Byte.xee; Byte.xdb]) ∧
        stat ["srv"; "repo"; "Packages"; "b-0.1-1.noarch.rpm"]%string (fs w') =
          inr (File [Byte.xed; Byte.xab; Byte.xee; Byte.xdb] 1000) ∧
        http_log w' = http_log (world_of 1000 nested_repo_disk).
Proof.
  apply (absolute_checksum_leaves_the_cache plain_host "srv/repo/Packages/b-0.1-1.noarch.rpm"
           primary_url (world_of 1000 nested_repo_disk)
           [Byte.xed; Byte.xab; Byte.xee; Byte.xdb] 500).
  - discriminate.
  - reflexivity.
Defined.

(** ** Cache.clean, however it ends *)

Section PrunedFacts.

Context (cutoff : Z).

Lemma thinned_refl n : thinned cutoff n n.
Proof. destruct n as [| |r kids]; simpl; try done. exists kids. split; [done|]. split; [done|]. congruence. Qed.

Lemma thinned_trans n1 n2 n3 : thinned cutoff n1 n2 → thinned cutoff n2 n3 → thinned cutoff n1 n3.
Proof.
  destruct n1 as [| |r kids]; simpl; try (intros -> ->; done).
  intros (kids2 & -> & Hsub2 & Hexp2). simpl. intros (kids3 & -> & Hsub3 & Hexp3).
  exists kids3. split; [done|]. split; [by etrans|].
  intros k x Hk Hnone. destruct (kids2 !! k) as [x2|] eqn:Hk2.
  - pose proof (lookup_weaken _ _ _ _ Hk2 Hsub2) as Hk'. rewrite Hk in Hk'. injection Hk' as ->.
    by apply (Hexp3 k).
  - by apply (Hexp2 k).
Qed.

Lemma pruned_refl base t : pruned cutoff base t t.
Proof.
  unfold pruned. destruct (stat base t) as [e|[| |rb subs]] eqn:Hbase; try done.
  exists subs. split; [by rewrite (graft_id _ _ _ Hbase)|].
  intros k. destruct (subs !! k); constructor. apply thinned_refl.
Qed.

Lemma pruned_trans base t1 t2 t3 :
  pruned cutoff base t1 t2 → pruned cutoff base t2 t3 → pruned cutoff base t1 t3.
Proof.
  unfold pruned. destruct (stat base t1) as [e|[| |rb subs]] eqn:Hbase.
  - intros ->. by rewrite Hbase.
  - intros ->. by rewrite Hbase.
  - intros ->. by rewrite Hbase.
  - intros (subs2 & -> & H2). rewrite (stat_graft _ _ _ _ Hbase).
    intros (subs3 & -> & H3). exists subs3. split; [by rewrite graft_graft|].
    intros k. specialize (H2 k). specialize (H3 k).
    destruct H2 as [n1 n2 H12|]; inversion H3; subst; constructor.
    by apply (thinned_trans n1 n2).
Qed.

Lemma cleaned_refl base w : cleaned cutoff base w w.
Proof. repeat split; try done. apply pruned_refl. Qed.

Lemma cleaned_trans base w1 w2 w3 :
  cleaned cutoff base w1 w2 → cleaned cutoff base w2 w3 → cleaned cutoff base w1 w3.
Proof.
  intros (? & ? & ? & ? & H12) (? & ? & ? & ? & H23).
  repeat split; try congruence. by apply (pruned_trans base _ (fs w2)).
Qed.

(** A loop whose every turn keeps a preorder keeps it. *)
Lemma for_each_keeps {A} (R : state → state → Prop) (l : list A) (body : A → Run unit) :
  (∀ w, R w w) →
  (∀ w1 w2 w3, R w1 w2 → R w2 w3 → R w1 w3) →
  (∀ x, x ∈ l → ∀ w w' r, body x w = (w', r) → R w w') →
  ∀ w w' r, for_each l body w = (w', r) → R w w'.
Proof.
  intros Hrefl Htrans. induction l as [|x l IH]; intros Hbody w w' r.
  - intros [= <- _]. apply Hrefl.
  - simpl. unfold mbind, Run_bind. destruct (body x w) as [w1 [[]|e]] eqn:Hx.
    + intros Hrest. apply (Htrans _ w1).
      * apply (Hbody x (list_elem_of_here _ _) _ _ _ Hx).
      * apply (IH (λ y Hy, Hbody y (list_elem_of_further _ _ _ Hy)) _ _ _ Hrest).
    + intros [= <- _]. apply (Hbody x (list_elem_of_here _ _) _ _ _ Hx).
Qed.

(** One turn of the inner loop, exactly. *)
Lemma purge_entry_exact d c r kids w :
  stat d (fs w) = inr (Dir r kids) →
  purge_entry cutoff (d ++ [c]) w =
    (if default false (expired cutoff <$> kids !! c)
     then put_fs (graft d (Dir r (delete c kids)) (fs w)) w else w,
     Return tt).
Proof.
  intros Hd. unfold purge_entry. rewrite run_bind_get_fs.
  unfold is_file. rewrite (stat_snoc _ _ _ _ _ Hd).
  destruct (kids !! c) as [[data mtime| |r' kids']|] eqn:Hc; simpl; try done.
  rewrite run_bind_reading. unfold st_mtime. rewrite (stat_snoc _ _ _ _ _ Hd), Hc.
  destruct (mtime <? cutoff) eqn:Hold; [|done].
  rewrite run_writing. unfold unlink. by rewrite (at_entry_snoc _ _ _ _ _ _ Hd), Hc.
Qed.

Lemma purge_entry_untouched p w :
  is_file p (fs w) = false → purge_entry cutoff p w = (w, Return tt).
Proof. intros Hp. unfold purge_entry. rewrite run_bind_get_fs. by rewrite Hp. Qed.

Lemma purge_entry_cleaned base c x w w' r :
  purge_entry cutoff (base ++ [c; x]) w = (w', r) → cleaned cutoff base w w'.
Proof.
  destruct (is_file (base ++ [c; x]) (fs w)) eqn:Hfile.
  - unfold is_file in Hfile.
    destruct (stat (base ++ [c; x]) (fs w)) as [e|[data mtime| |]] eqn:Hstat; try done.
    change (base ++ [c; x]) with (base ++ [c] ++ [x]) in *. rewrite app_assoc in *.
    destruct (stat_snoc_inv _ _ _ _ Hstat) as (r0 & kids & Hsub & Hx).
    destruct (stat_snoc_inv _ _ _ _ Hsub) as (rb & subs & Hbase & Hc).
    rewrite (purge_entry_exact _ _ _ _ _ Hsub), Hx. simpl.
    destruct (mtime <? cutoff) eqn:Hold.
    + intros [= <- _]. repeat split; try done. simpl. unfold pruned. rewrite Hbase.
      exists (<[c := Dir r0 (delete x kids)]> subs). split.
      * rewrite (graft_app _ [c] _ _ _ Hbase). simpl. do 2 f_equal.
        apply map_eq. intros k. destruct (decide (k = c)) as [->|Hk].
        -- by rewrite lookup_alter_eq, lookup_insert_eq, Hc.
        -- by rewrite lookup_alter_ne, lookup_insert_ne.
      * intros k. destruct (decide (k = c)) as [->|Hk].
        -- rewrite lookup_insert_eq, Hc. constructor. simpl.
           exists (delete x kids). split; [done|]. split; [apply delete_subseteq|].
           intros k' x' Hk' Hnone. apply lookup_delete_None in Hnone as [<-|Hnone]; [|congruence].
           rewrite Hx in Hk'. injection Hk' as <-. done.
        -- rewrite lookup_insert_ne by done. destruct (subs !! k); constructor. apply thinned_refl.
    + intros [= <- _]. apply cleaned_refl.
  - rewrite (purge_entry_untouched _ _ Hfile). intros [= <- _]. apply cleaned_refl.
Qed.

Lemma purge_entries_cleaned h base c w w' r :
  purge_entries h cutoff (base ++ [c]) w = (w', r) → cleaned cutoff base w w'.
Proof.
  unfold purge_entries. rewrite run_bind_get_fs.
  destruct (negb _); [intros [= <- _]; apply cleaned_refl|].
  rewrite run_bind_reading.
  destruct (iterdir _ _ _) as [e|entries] eqn:Hlist; [intros [= <- _]; apply cleaned_refl|].
  apply (for_each_keeps (cleaned cutoff base)); [apply cleaned_refl|apply cleaned_trans|].
  intros entry Hentry. unfold iterdir in Hlist.
  destruct (stat _ (fs w)) as [e|[| |[] kids]]; try done. injection Hlist as <-.
  apply list_elem_of_fmap in Hentry as (x & -> & _).
  rewrite <- app_assoc. apply purge_entry_cleaned.
Qed.

End PrunedFacts.

(** Every run of [clean] prunes the tree below the base path, and does
    nothing else, however it ends. *)
Lemma clean_cleaned h w window :
  Cache.expiry_seconds h = Return window →
  cleaned (clock w - window) (Cache.base_path h) w (Cache.clean h w).1.
Proof.
  intros Hwin. rewrite (clean_unfold h w window Hwin).
  destruct (negb _); [apply cleaned_refl|].
  rewrite run_bind_reading.
  destruct (iterdir _ _ _) as [e|subdirs] eqn:Hlist; [apply cleaned_refl|].
  destruct (for_each _ _ w) as [w' r] eqn:Hrun. simpl.
  revert Hrun. apply (for_each_keeps (cleaned (clock w - window) (Cache.base_path h)));
    [apply cleaned_refl|apply cleaned_trans|].
  intros subdir Hsubdir. unfold iterdir in Hlist.
  destruct (stat _ (fs w)) as [e|[| |[] subs]]; try done. injection Hlist as <-.
  apply list_elem_of_fmap in Hsubdir as (c & -> & _).
  apply purge_entries_cleaned.
Qed.

Lemma clean_raises_early h w e :
  Cache.expiry_seconds h = Raise e → Cache.clean h w = (w, Raise e).
Proof.
  intros Hwin. unfold Cache.clean, mbind, Run_bind, time, lift. by rewrite Hwin.
Qed.

(** ** What grafting shows from elsewhere *)

Lemma stat_graft_above q p n t :
  stat q (graft (q ++ p) n t) =
    match stat q t with inr m => inr (graft p n m) | inl e => inl e end.
Proof.
  revert t. induction q as [|c q IH]; intros t; simpl; [done|].
  destruct t as [| |r kids]; try done.
  rewrite lookup_alter_eq. destruct (kids !! c); simpl; [apply IH|done].
Qed.

Lemma stat_graft_aside q p n t :
  ¬ p `prefix_of` q → ¬ q `prefix_of` p → stat q (graft p n t) = stat q t.
Proof.
  revert p t. induction q as [|c q IH]; intros p t Hpq Hqp.
  { destruct Hqp. apply prefix_nil. }
  destruct p as [|c' p]; [destruct Hpq; apply prefix_nil|].
  simpl. destruct t as [| |r kids]; try done.
  destruct (decide (c = c')) as [<-|Hne].
  - rewrite lookup_alter_eq. destruct (kids !! c); simpl; [|done].
    apply IH; intros Hpre; [apply Hpq|apply Hqp]; by apply prefix_cons.
  - by rewrite lookup_alter_ne.
Qed.

(** Grafting below a node does not change what kind of node it is. *)
Lemma graft_below_kind p n m :
  p ≠ [] →
  match m with
  | Dir r _ => ∃ kids', graft p n m = Dir r kids'
  | _ => graft p n m = m
  end.
Proof. destruct p as [|c p]; [done|]. intros _. destruct m; simpl; eauto. Qed.

Lemma paths_compare (p q : Path) :
  (∃ rest, q = p ++ rest) ∨ (∃ c rest, p = q ++ c :: rest) ∨
  (¬ p `prefix_of` q ∧ ¬ q `prefix_of` p).
Proof.
  destruct (decide (p `prefix_of` q)) as [[rest ->]|Hpq]; [left; by eexists|].
  destruct (decide (q `prefix_of` p)) as [[rest ->]|Hqp]; [|by right; right].
  destruct rest as [|c rest]; [destruct Hpq; by rewrite app_nil_r|].
  right; left. by eexists _, _.
Qed.

Section PrunedFiles.

Context (cutoff : Z) (base : Path) (t t' : node).
Hypothesis Hpruned : pruned cutoff base t t'.

(** Below one of the thinned subdirectories. *)
Lemma thinned_stat n n' rest :
  thinned cutoff n n' →
  stat rest n' = stat rest n ∨
  (∃ e r kids x, rest = [e] ∧ n = Dir r kids ∧ kids !! e = Some x ∧ expired cutoff x = true ∧
                 stat rest n' = inl ENOENT) ∨
  (rest = [] ∧ ∃ r kids kids', n = Dir r kids ∧ n' = Dir r kids') ∨
  (∃ e rest' r kids x, rest = e :: rest' ∧ rest' ≠ [] ∧ n = Dir r kids ∧ kids !! e = Some x ∧
                       expired cutoff x = true ∧ stat rest n' = inl ENOENT ∧
                       stat rest n = inl ENOTDIR).
Proof.
  destruct n as [| |r kids]; simpl; try (intros ->; by left).
  intros (kids' & -> & Hsub & Hexp).
  destruct rest as [|e rest]; [right; right; left; by eauto 10|].
  simpl. destruct (kids' !! e) as [x'|] eqn:He'.
  - rewrite (lookup_weaken _ _ _ _ He' Hsub). by left.
  - destruct (kids !! e) as [x|] eqn:He; [|by left].
    pose proof (Hexp e x He He') as Hx.
    destruct x as [data mtime| |]; try done.
    destruct rest as [|e2 rest]; [right; left; by eauto 10|].
    right; right; right. exists e, (e2 :: rest), r, kids, (File data mtime). by repeat split.
Qed.

Lemma pruned_stat q :
  stat q t' = stat q t ∨
  (∃ c e data mtime,
      q = base ++ [c; e] ∧ stat q t = inr (File data mtime) ∧ mtime < cutoff ∧
      stat q t' = inl ENOENT) ∨
  (∃ r kids kids', stat q t = inr (Dir r kids) ∧ stat q t' = inr (Dir r kids')) ∨
  (∃ e, stat q t = inl e ∧ ∃ e', stat q t' = inl e').
Proof.
  unfold pruned in Hpruned.
  destruct (stat base t) as [err|[| |rb subs]] eqn:Hbase;
    try (rewrite Hpruned; by left).
  destruct Hpruned as (subs' & -> & Hsubs).
  destruct (paths_compare base q) as [[rest ->]|[(c & rest & ->)|[Hpq Hqp]]].
  - rewrite (stat_graft_below _ _ _ _ _ Hbase), stat_app, Hbase.
    destruct rest as [|c rest]; [right; right; left; by eauto|].
    simpl. specialize (Hsubs c).
    destruct Hsubs as [n n' Hthin|]; [|by left].
    destruct (thinned_stat n n' rest Hthin)
      as [Heq|[(e & r & kids & x & -> & -> & He & Hx & Hgone)
              |[(-> & r & kids & kids' & -> & ->)
               |(e & rest' & r & kids & x & -> & Hrest' & -> & He & Hx & Hgone & Hwas)]]].
    + by left.
    + right; left. destruct x as [data mtime| |]; try done.
      exists c, e, data, mtime. simpl. rewrite He. split; [done|]. split; [done|].
      split; [by apply Z.ltb_lt|done].
    + right; right; left. by eauto.
    + right; right; right. exists ENOTDIR. split; [done|]. by eexists.
  - rewrite stat_graft_above.
    destruct (stat q t) as [err|m] eqn:Hq; [by left|].
    pose proof (graft_below_kind (c :: rest) (Dir rb subs') m) as Hkind.
    destruct m as [| |r kids].
    + rewrite Hkind by done. by left.
    + rewrite Hkind by done. by left.
    + destruct Hkind as [kids' ->]; [done|]. right; right; left. by eauto.
  - left. by apply stat_graft_aside.
Qed.


(** A file is still there, unless it was an expired file of a
    subdirectory. *)
Lemma pruned_file_stays q data mtime :
  stat q t = inr (File data mtime) →
  stat q t' = inr (File data mtime) ∨
  (stat q t' = inl ENOENT ∧ mtime < cutoff ∧ ∃ c e, q = base ++ [c; e]).
Proof.
  intros Hq.
  destruct (pruned_stat q)
    as [->|[(c & e & d & m & -> & Hwas & Hold & ->)|[(r & k & k' & Hwas & _)|(e & Hwas & _)]]].
  - by left.
  - right. rewrite Hq in Hwas. simplify_eq. eauto.
  - congruence.
  - congruence.
Qed.

Lemma pruned_is_dir q : is_dir q t' = is_dir q t.
Proof.
  unfold is_dir.
  destruct (pruned_stat q)
    as [->|[(c & e & d & m & _ & -> & _ & ->)|[(r & k & k' & -> & ->)|(e & -> & e' & ->)]]];
    done.
Qed.

End PrunedFiles.


(** The entry that a call returned from is a regular file with the content
    returned, last modified at the time of the call. *)
Lemma download_returns_entry h checksum url w w1 content :
  Text.is_hex checksum = true →
  Cache.download_repodata_file h checksum url w = (w1, Return content) →
  stat (Cache.entry_path h checksum) (fs w1) = inr (File content (clock w)).
Proof.
  intros Hhex Hrun.
  destruct (entry_path_snoc h checksum Hhex) as (d & c & Hsplit & Hc).
  destruct (download_cases h checksum url d c Hhex Hsplit Hc w w1 _ Hrun)
    as (news & _ & [(data & mtime & Hstat & [= <-] & Hfs & _)
                   |(_ & _ & [(_ & [= <-] & Hstat & _)|(e & [=] & _)])]).
  - rewrite Hfs, Hsplit. by apply (stat_graft _ _ _ _ Hstat).
  - by rewrite Hsplit.
Qed.

(** X4: the cache is least-recently-used by modification time.
    After [download_repodata_file] has returned some content for a
    hexadecimal checksum, whether from the cache or from the network, a
    [clean] at any time within the expiry window of that call keeps the
    entry, with the content returned and the time of the call, and the next
    call for the checksum returns the same content without a request. *)
Theorem used_entry_survives_clean h checksum url w w1 content window now2 :
  Text.is_hex checksum = true →
  Cache.download_repodata_file h checksum url w = (w1, Return content) →
  Cache.expiry_seconds h = Return window →
  now2 - window ≤ clock w →
  let w2 := (Cache.clean h (at_time now2 w1)).1 in
  stat (Cache.entry_path h checksum) (fs w2) = inr (File content (clock w)) ∧
  ∀ url3, ∃ w3, Cache.download_repodata_file h checksum url3 w2 = (w3, Return content) ∧
                http_log w3 = http_log w1.
Proof.
  intros Hhex Hrun Hwin Hfresh w2.
  pose proof (download_returns_entry h checksum url w w1 content Hhex Hrun) as Hentry.
  destruct (clean_cleaned h (at_time now2 w1) window Hwin) as (_ & _ & Hlog & _ & Hpruned).
  fold w2 in Hlog, Hpruned. simpl in Hlog, Hpruned.
  assert (Hkept : stat (Cache.entry_path h checksum) (fs w2) = inr (File content (clock w))).
  { destruct (pruned_file_stays _ _ _ _ Hpruned _ _ _ Hentry) as [?|(_ & Hold & _)]; [done|lia]. }
  split; [done|]. intros url3. eexists. split; [by apply (hit_run h checksum url3 Hhex w2 content (clock w))|]. done.
Qed.

Lemma used_entry_survives_clean_witness :
  let w1 := (Cache.download_repodata_file serving_host "abcdef" primary_url
               (world_of 1000 empty_disk)).1 in
  let w2 := (Cache.clean serving_host (at_time 600000 w1)).1 in
  stat (Cache.entry_path serving_host "abcdef") (fs w2) =
    inr (File [Byte.x1f; Byte.x8b; Byte.x08] 1000).
Proof.
  apply (used_entry_survives_clean serving_host "abcdef" primary_url
           (world_of 1000 empty_disk) _ [Byte.x1f; Byte.x8b; Byte.x08] 604800 600000).
  - reflexivity.
  - reflexivity.
  - reflexivity.
  - simpl. lia.
Defined.

(** ** Repo.from_yum_config, section by section *)

Section YumConfigFacts.

Context (config : RawConfigParser) (yumvars : list (string * string)).

Lemma from_section_yields section options r :
  Repo.from_section config yumvars section options = Return (Some r) →
  section ≠ "main"%string ∧
  enabled_flag config options = Return true ∧
  skip_flag config options = Return (Repo.skip_if_unavailable r) ∧
  Repo.name r = section ∧
  Repo.librepo_handle r = None ∧ Repo._root_path r = None ∧
  ∃ o, source_option config options = Some o ∧
       let url := Repo.substitute_yumvars (Repo.get config options o) yumvars in
       url ≠ EmptyString ∧
       if bool_decide (o = "baseurl"%string)
       then Repo.baseurl r = Some url ∧ Repo.metalink r = None
       else Repo.baseurl r = None ∧ Repo.metalink r = Some url.
Proof.
  unfold Repo.from_section, enabled_flag, skip_flag, source_option.
  destruct (bool_decide (section = "main"%string)) eqn:Hmain; [done|].
  apply bool_decide_eq_false in Hmain.
  destruct (if Repo.has_option config options "enabled" then _ else _) as [[]|e]; try done.
  destruct (if Repo.has_option config options "skip_if_unavailable" then _ else _)
    as [skip|e]; try done.
  assert (Hinit : ∀ b m, match Repo.__init__ section b m skip with
                         | Return r0 => Return (Some r0) | Raise e => Raise e end = Return (Some r) →
                         r = Repo.Make section b m skip None None ∧
                         Repo.truthy b || Repo.truthy m = true).
  { intros b m. unfold Repo.__init__.
    destruct (Repo.truthy b), (Repo.truthy m); simpl; intros [=]; by subst. }
  destruct (Repo.has_option config options "baseurl").
  { intros [-> Htruthy]%Hinit. repeat split; try done.
    exists "baseurl"%string. split; [done|]. simpl in *. rewrite orb_false_r in Htruthy.
    split; [|done]. apply negb_true_iff, bool_decide_eq_false in Htruthy. done. }
  destruct (Repo.has_option config options "metalink").
  { intros [-> Htruthy]%Hinit. repeat split; try done.
    exists "metalink"%string. split; [done|]. simpl in *.
    split; [|done]. apply negb_true_iff, bool_decide_eq_false in Htruthy. done. }
  destruct (Repo.has_option config options "mirrorlist"); [|done].
  intros [-> Htruthy]%Hinit. repeat split; try done.
  exists "mirrorlist"%string. split; [done|]. simpl in *.
  split; [|done]. apply negb_true_iff, bool_decide_eq_false in Htruthy. done.
Qed.

Lemma from_section_skips section options :
  Repo.from_section config yumvars section options = Return None →
  section = "main"%string ∨ switched_on config options = false.
Proof.
  unfold Repo.from_section, switched_on, enabled_flag.
  destruct (bool_decide (section = "main"%string)) eqn:Hmain;
    [left; by apply bool_decide_eq_true in Hmain|].
  destruct (if Repo.has_option config options "enabled" then _ else _) as [[]|e]; try done;
    [|by right].
  destruct (if Repo.has_option config options "skip_if_unavailable" then _ else _)
    as [skip|e]; try done.
  repeat (destruct (Repo.has_option config options _); [by destruct (Repo.__init__ _ _ _ _)|]).
  done.
Qed.

Lemma generate_yields todo r :
  r ∈ (Repo.generate config yumvars todo).1 →
  ∃ section options,
    (section, options) ∈ todo ∧
    Repo.from_section config yumvars section options = Return (Some r).
Proof.
  induction todo as [|[section options] todo IH]; simpl; [by intros ?%elem_of_nil|].
  destruct (Repo.from_section config yumvars section options) as [[r0|]|e] eqn:Hsec.
  - destruct (Repo.generate config yumvars todo) as [yielded ending]. simpl.
    intros [->|Hin]%elem_of_cons.
    + exists section, options. split; [by left|done].
    + destruct (IH Hin) as (s & o & ? & ?). exists s, o. split; [by right|done].
  - intros Hin. destruct (IH Hin) as (s & o & ? & ?). exists s, o. split; [by right|done].
  - by intros ?%elem_of_nil.
Qed.

Lemma generate_returns todo yielded :
  Repo.generate config yumvars todo = (yielded, Return tt) →
  Forall2 (λ r so, Repo.from_section config yumvars so.1 so.2 = Return (Some r))
          yielded
          (filter (λ so, so.1 ≠ "main"%string ∧ switched_on config so.2 = true) todo).
Proof.
  revert yielded. induction todo as [|[section options] todo IH]; intros yielded; simpl.
  { intros [= <-]. constructor. }
  destruct (Repo.from_section config yumvars section options) as [[r0|]|e] eqn:Hsec.
  - destruct (Repo.generate config yumvars todo) as [rest ending]. intros [= <- ->].
    destruct (from_section_yields _ _ _ Hsec) as (Hmain & Hon & _).
    rewrite filter_cons_True.
    + constructor; [done|]. by apply IH.
    + simpl. split; [done|]. unfold switched_on. by rewrite Hon.
  - intros Hrest. rewrite filter_cons_False; [by apply IH|].
    simpl. intros [Hmain Hon]. destruct (from_section_skips _ _ Hsec); congruence.
  - intros [=].
Qed.

End YumConfigFacts.

(** X5: every repository that [from_yum_config] yields, also before
    it raises, has exactly one of baseurl and metalink set, and that one is
    not empty; its name is the name of a section other than main; it has no
    handle and no root path yet. *)
Theorem yielded_repos_have_one_source h r :
  r ∈ (Repo.from_yum_config h).1 →
  (Repo.truthy (Repo.baseurl r) = true ∧ Repo.metalink r = None ∨
   Repo.baseurl r = None ∧ Repo.truthy (Repo.metalink r) = true) ∧
  Repo.name r ≠ "main"%string ∧
  Repo.name r ∈ (sections (yum_config h)).*1 ∧
  Repo.librepo_handle r = None ∧ Repo._root_path r = None.
Proof.
  unfold Repo.from_yum_config. intros (section & options & Hin & Hsec)%generate_yields.
  destruct (from_section_yields _ _ _ _ _ Hsec)
    as (Hmain & _ & _ & Hname & Hhandle & Hroot & o & _ & Hurl & Hsource).
  cbv zeta in Hurl, Hsource. rewrite Hname.
  split; [|split; [done|]; split; [|done]].
  - destruct (bool_decide _); destruct Hsource as [-> ->]; [left|right];
      (split; [..|try done]; try done); simpl; by rewrite bool_decide_eq_false_2.
  - apply list_elem_of_fmap. by exists (section, options).
Qed.

Lemma yielded_repos_have_one_source_witness :
  let r := Repo.Make "dummy" (Some "http://example.invalid/dummy"%string) None false None None in
  (Repo.truthy (Repo.baseurl r) = true ∧ Repo.metalink r = None ∨
   Repo.baseurl r = None ∧ Repo.truthy (Repo.metalink r) = true) ∧
  Repo.name r ≠ "main"%string ∧
  Repo.name r ∈ (sections (yum_config both_sources_host)).*1 ∧
  Repo.librepo_handle r = None ∧ Repo._root_path r = None.
Proof.
  apply (yielded_repos_have_one_source both_sources_host). vm_compute. by left.
Defined.

(** X6: when [from_yum_config] ends normally, it has yielded one
    repository for each section that is not main and is switched on, in the
    order of the sections, named after the section and with the section's
    [skip_if_unavailable] flag; sections named main and sections switched
    off yield nothing. *)
Theorem from_yum_config_yields_enabled_sections h yielded :
  Repo.from_yum_config h = (yielded, Return tt) →
  let config := yum_config h in
  Forall2 (λ r so, Repo.name r = so.1 ∧
                   skip_flag config so.2 = Return (Repo.skip_if_unavailable r))
          yielded
          (filter (λ so, so.1 ≠ "main"%string ∧ switched_on config so.2 = true)
                  (sections config)).
Proof.
  unfold Repo.from_yum_config. intros Hgen%generate_returns.
  eapply Forall2_impl; [exact Hgen|].
  intros r [section options] Hsec. simpl in *.
  by destruct (from_section_yields _ _ _ _ _ Hsec) as (_ & _ & Hskip & Hname & _).
Qed.

Lemma from_yum_config_yields_enabled_sections_witness :
  Forall2 (λ r so, Repo.name r = so.1 ∧
                   skip_flag (yum_config both_sources_host) so.2 =
                     Return (Repo.skip_if_unavailable r))
          [Repo.Make "dummy" (Some "http://example.invalid/dummy"%string) None false None None]
          (filter (λ so, so.1 ≠ "main"%string ∧
                         switched_on (yum_config both_sources_host) so.2 = true)
                  (sections (yum_config both_sources_host))).
Proof.
  apply (from_yum_config_yields_enabled_sections both_sources_host). reflexivity.
Defined.

(** X7: a section that is switched on and has a baseurl option
    whose text is empty after substitution ends the loop with the
    [RuntimeError] of [__init__], not with the [ValueError] of a missing
    source, and a metalink or mirrorlist of the same section is not
    considered; the repositories of the sections before it were yielded. *)
Theorem empty_baseurl_is_refused config yumvars section options skip :
  section ≠ "main"%string →
  enabled_flag config options = Return true →
  skip_flag config options = Return skip →
  Repo.has_option config options "baseurl" = true →
  Repo.substitute_yumvars (Repo.get config options "baseurl") yumvars = EmptyString →
  Repo.from_section config yumvars section options =
    Raise (RuntimeError "Must specify either baseurl or metalink for repo") ∧
  ∀ before after yielded,
    Repo.generate config yumvars before = (yielded, Return tt) →
    Repo.generate config yumvars (before ++ (section, options) :: after) =
      (yielded, Raise (RuntimeError "Must specify either baseurl or metalink for repo")).
Proof.
  intros Hmain Hon Hskip Hbase Hempty.
  assert (Hsec : Repo.from_section config yumvars section options =
                 Raise (RuntimeError "Must specify either baseurl or metalink for repo")).
  { unfold Repo.from_section. unfold enabled_flag in Hon. unfold skip_flag in Hskip.
    rewrite bool_decide_eq_false_2 by done. rewrite Hon, Hskip, Hbase, Hempty. done. }
  split; [done|]. intros before after yielded Hbefore.
  rewrite (generate_app _ _ _ _ _ Hbefore). simpl. rewrite Hsec. simpl.
  by rewrite app_nil_r.
Qed.

Lemma empty_baseurl_is_refused_witness :
  Repo.from_section (Config ∅ []) [] "dummy"
      {["baseurl"%string := EmptyString;
        "metalink"%string := "http://example.invalid/metalink"%string]} =
    Raise (RuntimeError "Must specify either baseurl or metalink for repo").
Proof.
  apply (empty_baseurl_is_refused (Config ∅ []) [] "dummy"
           {["baseurl"%string := EmptyString;
             "metalink"%string := "http://example.invalid/metalink"%string]} false);
    first [reflexivity | discriminate].
Defined.

(** ** Repo.get_yumvars and substitute_yumvars *)

Section ReplaceFacts.

Lemma string_prefix_cons c old a rest :
  String.prefix (String c old) (String a rest) =
    if Ascii.eqb c a then String.prefix old rest else false.
Proof.
  simpl. destruct (ascii_dec c a) as [->|Hne].
  - by rewrite Ascii.eqb_refl.
  - by apply Ascii.eqb_neq in Hne as ->.
Qed.

Lemma replace_absent c name new s :
  Python.contains c s = false → Text.replace (String c name) new s = s.
Proof.
  unfold Text.replace. induction s as [|a rest IH]; [done|].
  intros [Hac Hrest]%orb_false_iff.
  cbn [Text.replace_from]. rewrite string_prefix_cons, (Ascii.eqb_sym c a), Hac.
  by rewrite IH.
Qed.

Lemma replace_from_skip old new (a b : string) :
  Text.replace_from old new (String.length a) (a +:+ b) = Text.replace_from old new 0 b.
Proof. induction a as [|c a IH]; [done|]. simpl. apply IH. Qed.

Lemma prefix_split old s : String.prefix old s = true → ∃ b, s = (old +:+ b)%string.
Proof.
  revert s. induction old as [|c old IH]; intros s; [by exists s|].
  destruct s as [|a rest]; [done|]. rewrite string_prefix_cons.
  destruct (Ascii.eqb c a) eqn:Hca; [|done].
  apply Ascii.eqb_eq in Hca as ->. intros [b ->]%IH. by exists b.
Qed.

Lemma length_app_string (a b : string) :
  String.length (a +:+ b) = (String.length a + String.length b)%nat.
Proof. induction a as [|c a IH]; simpl; [done|]. by rewrite IH. Qed.

(** Replacing a text by itself changes nothing. *)
Lemma replace_same c old s : Text.replace (String c old) (String c old) s = s.
Proof.
  unfold Text.replace.
  remember (String.length s) as n eqn:Hn. revert s Hn.
  induction n as [n IH] using lt_wf_ind. intros s Hn.
  destruct s as [|a rest]; [done|].
  cbn [Text.replace_from].
  destruct (String.prefix (String c old) (String a rest)) eqn:Hpre.
  - destruct (prefix_split _ _ Hpre) as [b Hb]. simpl in Hb. injection Hb as -> ->.
    cbn [String.length Nat.pred]. rewrite replace_from_skip.
    rewrite (IH (String.length b)); [done| |done].
    subst n. simpl. rewrite length_app_string. lia.
  - f_equal. apply (IH (String.length rest)); [subst n; simpl; lia|done].
Qed.

End ReplaceFacts.

(** X8: [substitute_yumvars] leaves a text without a dollar sign as
    it is, whatever the variables are. *)
Theorem text_without_dollar_is_kept s yumvars :
  Python.contains "$" s = false → Repo.substitute_yumvars s yumvars = s.
Proof.
  intros Hs. unfold Repo.substitute_yumvars.
  induction yumvars as [|[name value] yumvars IH]; [done|].
  simpl. change ("$" +:+ name)%string with (String "$" name).
  by rewrite (replace_absent _ _ _ _ Hs).
Qed.

Lemma text_without_dollar_is_kept_witness :
  Repo.substitute_yumvars "http://example.invalid/dummy"
    [("releasever", "21"); ("basearch", "s390x")]%string = "http://example.invalid/dummy"%string.
Proof.
  apply (text_without_dollar_is_kept "http://example.invalid/dummy"
           [("releasever", "21"); ("basearch", "s390x")]%string). reflexivity.
Defined.

(** X9: without dnf, [get_yumvars] maps arch, basearch and
    releasever to their own names with the dollar sign, and substituting
    these variables leaves every text as it is. *)
Theorem yumvars_without_dnf_change_nothing h s :
  dnf h = None →
  Repo.get_yumvars h =
    [("arch", "$arch"); ("basearch", "$basearch"); ("releasever", "$releasever")]%string ∧
  Repo.substitute_yumvars s (Repo.get_yumvars h) = s.
Proof.
  intros Hdnf. unfold Repo.get_yumvars. rewrite Hdnf. split; [done|].
  unfold Repo.substitute_yumvars. simpl.
  change ("$" +:+ "arch")%string with (String "$" "arch").
  change ("$" +:+ "basearch")%string with (String "$" "basearch").
  change ("$" +:+ "releasever")%string with (String "$" "releasever").
  by rewrite !replace_same.
Qed.

Lemma yumvars_without_dnf_change_nothing_witness :
  Repo.substitute_yumvars "http://example.invalid/$releasever/$basearch/"
    (Repo.get_yumvars plain_host) = "http://example.invalid/$releasever/$basearch/"%string.
Proof.
  apply (yumvars_without_dnf_change_nothing plain_host
           "http://example.invalid/$releasever/$basearch/"). reflexivity.
Defined.

(** ** Repo.download_package_header, further *)

Lemma header_present_complete h local_path w :
  header_present h local_path (fs w) = true →
  Repo._is_header_complete h local_path w = (w, Return true).
Proof.
  unfold header_present. rewrite is_header_complete_run.
  destruct (open_rb _ (fs w)) as [e|data]; [done|]. by intros ->.
Qed.

(** X10: the local path of a package depends on the base name of its
    location only.  After a call of [download_package_header] that returned
    after fewer than four requests, the header at the path returned is
    complete, and a call for any location with the same base name returns
    the same path without a request and without changing anything. *)
Theorem header_download_is_reused h self l1 l2 b1 b2 w w1 root path :
  Repo._root_path self = Some root →
  handle_is_local self = false →
  Text.basename l1 = Text.basename l2 →
  Repo.download_package_header h self l1 b1 w = (w1, Return path) →
  (length (librepo_log w1) < length (librepo_log w) + 4)%nat →
  path = Text.join root (Text.basename l1) ∧
  header_present h path (fs w1) = true ∧
  Repo.download_package_header h self l2 b2 w1 = (w1, Return path).
Proof.
  intros Hroot Hlocal Hname Hrun Hfew.
  assert (Hfirst : path = Text.join root (Text.basename l1) ∧
                   header_present h path (fs w1) = true).
  { revert Hrun. unfold Repo.download_package_header. unfold handle_is_local in Hlocal.
    rewrite Hroot, Hlocal. unfold mbind at 1, Run_bind at 1.
    destruct (Repo._is_header_complete h _ w) as [w0 [[]|e]] eqn:Hcheck; [| |done].
    - pose proof Hcheck as Hw. rewrite is_header_complete_run in Hw. injection Hw as <- _.
      intros [= <- <-]. split; [done|]. by apply is_header_complete_returns.
    - pose proof Hcheck as Hw. rewrite is_header_complete_run in Hw. injection Hw as <- _.
      intros Hprobe.
      destruct (probe_run h _ _ _ _ _ _ _ _ Hprobe)
        as (k & earlier & Hk & _ & Hlog & _ & _ & -> & Hdone).
      split; [done|]. apply Hdone. rewrite Hlog, length_app, length_rev in Hfew.
      simpl in Hk |- *. rewrite length_take in Hfew. simpl in Hfew. lia. }
  destruct Hfirst as [-> Hpresent]. split; [done|]. split; [done|].
  unfold Repo.download_package_header. unfold handle_is_local in Hlocal.
  rewrite Hroot, Hlocal, <- Hname.
  by rewrite (run_bind_return _ _ _ _ _ (header_present_complete _ _ _ Hpresent)).
Qed.

Lemma header_download_is_reused_witness :
  let w1 := (Repo.download_package_header small_package_host
               (remote_repo "/var/tmp/rpmdeplint-base") "Packages/b-0.1-1.noarch.rpm"
               "http://example.invalid/base" (world_of 1000 empty_download_dir_disk)).1 in
  Repo.download_package_header small_package_host (remote_repo "/var/tmp/rpmdeplint-base")
      "updates/b-0.1-1.noarch.rpm" "http://example.invalid/updates" w1 =
    (w1, Return "/var/tmp/rpmdeplint-base/b-0.1-1.noarch.rpm"%string).
Proof.
  apply (header_download_is_reused small_package_host (remote_repo "/var/tmp/rpmdeplint-base")
           "Packages/b-0.1-1.noarch.rpm" "updates/b-0.1-1.noarch.rpm"
           "http://example.invalid/base" "http://example.invalid/updates"
           (world_of 1000 empty_download_dir_disk) _ "/var/tmp/rpmdeplint-base").
  - reflexivity.
  - reflexivity.
  - reflexivity.
  - cbv zeta. vm_compute. reflexivity.
  - cbv zeta. vm_compute. lia.
Defined.

(** X11: when librepo reports an error for the first request (a
    text that is not empty and not [Already downloaded]),
    [download_package_header] raises [PackageDownloadError] naming the
    location, the repository and the error, after this one request; no
    larger range is tried and the tree is as before. *)
Theorem failed_transfer_stops_escalation h self location baseurl root w err :
  Repo._root_path self = Some root →
  handle_is_local self = false →
  Repo._is_header_complete h (Text.join root (Text.basename location)) w = (w, Return false) →
  librepo_download h location baseurl 100000 = Err err →
  err ≠ EmptyString → err ≠ "Already downloaded"%string →
  ∃ w',
    Repo.download_package_header h self location baseurl w =
      (w', Raise (PackageDownloadError
                    ("Failed to download " +:+ location +:+ " from repo " +:+ Repo.name self
                       +:+ ": " +:+ err))) ∧
    librepo_log w' = 100000 :: librepo_log w ∧
    fs w' = fs w.
Proof.
  intros Hroot Hlocal Hcheck Hdl Hne Hnot.
  rewrite (download_package_header_remote h self location baseurl root w Hroot Hlocal Hcheck).
  unfold ceilings. rewrite probe_cons.
  assert (Hrun : Repo.download_packages h location baseurl root 100000 w =
                 (log_librepo 100000 w, Return (Some err))).
  { unfold Repo.download_packages. by rewrite Hdl. }
  rewrite (run_bind_return _ _ _ _ _ Hrun).
  assert (Repo.truthy (Some err) = true) as ->.
  { simpl. by rewrite bool_decide_eq_false_2. }
  rewrite bool_decide_eq_false_2 by congruence. simpl.
  eexists. split; [done|]. done.
Qed.

Lemma failed_transfer_stops_escalation_witness :
  ∃ w',
    Repo.download_package_header refusing_host (remote_repo "/var/tmp/rpmdeplint-base")
        "Packages/b-0.1-1.noarch.rpm" "http://example.invalid/base"
        (world_of 1000 empty_download_dir_disk) =
      (w', Raise (PackageDownloadError
                    ("Failed to download " +:+ "Packages/b-0.1-1.noarch.rpm" +:+ " from repo "
                       +:+ Repo.name (remote_repo "/var/tmp/rpmdeplint-base") +:+ ": "
                       +:+ "Status code: 404 for http://example.invalid/base/b-0.1-1.noarch.rpm"))) ∧
    librepo_log w' = 100000 :: librepo_log (world_of 1000 empty_download_dir_disk) ∧
    fs w' = fs (world_of 1000 empty_download_dir_disk).
Proof.
  apply (failed_transfer_stops_escalation refusing_host (remote_repo "/var/tmp/rpmdeplint-base")
           "Packages/b-0.1-1.noarch.rpm" "http://example.invalid/base"
           "/var/tmp/rpmdeplint-base" (world_of 1000 empty_download_dir_disk));
    first [reflexivity | discriminate].
Defined.

Lemma length_delivered pkg c :
  0 < c → Z.of_nat (length (delivered pkg c)) = Z.min c (Z.of_nat (length pkg)).
Proof.
  intros Hc. unfold delivered. destruct (c =? 0) eqn:H0; [lia|].
  rewrite length_take. lia.
Qed.

(** X12: against the simulated remote, a header that needs more
    than 1000000 and at most 5000000 bytes takes exactly the requests
    100000, 1000000 and 5000000; when 5000000 bytes are not enough, the
    whole file is requested as the fourth and last attempt, and the path is
    returned whether or not the header is complete then. *)
Theorem whole_file_is_the_last_resort h self location baseurl root w pkg header_size :
  Repo._root_path self = Some root →
  handle_is_local self = false →
  let local_path := Text.join root (Text.basename location) in
  Repo._is_header_complete h local_path w = (w, Return false) →
  simulated_remote h location baseurl pkg header_size →
  can_save (PurePath.of_string local_path) (fs w) →
  (1000000 < header_size ≤ 5000000 → header_size ≤ Z.of_nat (length pkg) →
     ∃ w', Repo.download_package_header h self location baseurl w = (w', Return local_path) ∧
           librepo_log w' = 5000000 :: 1000000 :: 100000 :: librepo_log w ∧
           header_present h local_path (fs w') = true) ∧
  (5000000 < header_size →
     ∃ w', Repo.download_package_header h self location baseurl w = (w', Return local_path) ∧
           librepo_log w' = 0 :: 5000000 :: 1000000 :: 100000 :: librepo_log w ∧
           header_present h local_path (fs w') =
             bool_decide (header_size ≤ Z.of_nat (length pkg))).
Proof.
  intros Hroot Hlocal local_path Hcheck Hremote Hsave.
  rewrite (download_package_header_remote h self location baseurl root w Hroot Hlocal Hcheck).
  unfold ceilings.
  destruct (probe_simulated h self location baseurl root pkg header_size Hremote
              100000 [1000000; 5000000; 0] w Hsave) as (w1 & Hlog1 & Hsave1 & _ & ->).
  destruct (probe_simulated h self location baseurl root pkg header_size Hremote
              1000000 [5000000; 0] w1 Hsave1) as (w2 & Hlog2 & Hsave2 & _ & ->).
  destruct (probe_simulated h self location baseurl root pkg header_size Hremote
              5000000 [0] w2 Hsave2) as (w3 & Hlog3 & Hsave3 & Hpresent3 & ->).
  destruct (probe_simulated h self location baseurl root pkg header_size Hremote
              0 [] w3 Hsave3) as (w4 & Hlog4 & Hsave4 & Hpresent4 & ->).
  fold local_path in Hpresent3, Hpresent4 |- *.
  pose proof (length_delivered pkg 100000 ltac:(lia)) as Hlen1.
  pose proof (length_delivered pkg 1000000 ltac:(lia)) as Hlen2.
  pose proof (length_delivered pkg 5000000 ltac:(lia)) as Hlen3.
  split.
  - intros [Hlow Hhigh] Hsize.
    rewrite (bool_decide_eq_false_2 (header_size ≤ Z.of_nat (length (delivered pkg 100000))))
      by lia.
    rewrite (bool_decide_eq_false_2 (header_size ≤ Z.of_nat (length (delivered pkg 1000000))))
      by lia.
    rewrite bool_decide_eq_true_2 in Hpresent3 |- * by lia.
    exists w3. by rewrite Hlog3, Hlog2, Hlog1.
  - intros Hlow.
    rewrite (bool_decide_eq_false_2 (header_size ≤ Z.of_nat (length (delivered pkg 100000))))
      by lia.
    rewrite (bool_decide_eq_false_2 (header_size ≤ Z.of_nat (length (delivered pkg 1000000))))
      by lia.
    rewrite (bool_decide_eq_false_2 (header_size ≤ Z.of_nat (length (delivered pkg 5000000))))
      by lia.
    exists w4. split.
    + destruct (bool_decide (header_size ≤ Z.of_nat (length (delivered pkg 0))));
        reflexivity.
    + split; [by rewrite Hlog4, Hlog3, Hlog2, Hlog1|]. exact Hpresent4.
Qed.

Lemma whole_file_is_the_last_resort_witness :
  ∃ w', Repo.download_package_header truncated_host (remote_repo "/var/tmp/rpmdeplint-base")
            "Packages/b-0.1-1.noarch.rpm" "http://example.invalid/base"
            (world_of 1000 empty_download_dir_disk) =
          (w', Return "/var/tmp/rpmdeplint-base/b-0.1-1.noarch.rpm"%string) ∧
        librepo_log w' = [0; 5000000; 1000000; 100000] ∧
        header_present truncated_host "/var/tmp/rpmdeplint-base/b-0.1-1.noarch.rpm" (fs w') = false.
Proof.
  destruct (whole_file_is_the_last_resort truncated_host
              (remote_repo "/var/tmp/rpmdeplint-base")
              "Packages/b-0.1-1.noarch.rpm" "http://example.invalid/base"
              "/var/tmp/rpmdeplint-base" (world_of 1000 empty_download_dir_disk)
              (replicate 10 Byte.x00) 6000000) as [_ Hlast];
    [reflexivity | reflexivity | reflexivity | | |].
  - split; intros; reflexivity.
  - exists ["var"; "tmp"; "rpmdeplint-base"]%string, "b-0.1-1.noarch.rpm"%string, true, ∅.
    split; [reflexivity|]. split; [reflexivity|]. intros r' kids'. by rewrite lookup_empty.
  - destruct Hlast as (w' & Hrun & Hlog & Hpresent); [lia|].
    exists w'. split; [exact Hrun|]. split; [exact Hlog|]. exact Hpresent.
Defined.

(** ** Repo.download_repodata *)

Section MethodFacts.

Context {A B : Type}.

Lemma method_bind_return (m : RepoObj.Method A) (k : A → RepoObj.Method B) self w self1 w1 a :
  m self w = (self1, w1, Return a) → (x ← m; k x) self w = k a self1 w1.
Proof. intros Hm. unfold mbind, RepoObj.Method_bind. by rewrite Hm. Qed.

Lemma method_bind_raise (m : RepoObj.Method A) (k : A → RepoObj.Method B) self w self1 w1 e :
  m self w = (self1, w1, Raise e) → (x ← m; k x) self w = (self1, w1, Raise e).
Proof. intros Hm. unfold mbind, RepoObj.Method_bind. by rewrite Hm. Qed.

Lemma method_bind_inv (m : RepoObj.Method A) (k : A → RepoObj.Method B) self w self' w' b :
  (x ← m; k x) self w = (self', w', Return b) →
  ∃ self1 w1 a, m self w = (self1, w1, Return a) ∧ k a self1 w1 = (self', w', Return b).
Proof.
  unfold mbind, RepoObj.Method_bind. destruct (m self w) as [[self1 w1] [a|e]]; [|done].
  intros Hk. by exists self1, w1, a.
Qed.

Lemma run_inv (m : Run A) self w self' w' r :
  RepoObj.run m self w = (self', w', r) → self' = self ∧ m w = (w', r).
Proof. unfold RepoObj.run. destruct (m w) as [w1 r1]. by intros [= <- <- <-]. Qed.

End MethodFacts.

Ltac method_step :=
  cbv beta iota zeta;
  cbn [RepoObj.baseurl RepoObj.metalink RepoObj.name RepoObj.set_librepo_handle
       RepoObj.librepo_handle fmap option_fmap option_map RepoObj.set_urls
       RepoObj.set_metalinkurl RepoObj.set_destdir Librepo.urls Librepo.metalinkurl
       Librepo.destdir RepoObj.skip_if_unavailable RepoObj._rpmmd_repomd
       RepoObj._root_path RepoObj.primary RepoObj.filelists andb Run_bind get_fs Run_ret].

Section DownloadRepodata.

Context (lr : Librepo.t) (h : host).

Lemma download_repodata_unfold self w :
  RepoObj.download_repodata lr h self w =
    match Cache.clean h w with
    | (w1, Raise e) => (self, w1, Raise e)
    | (w1, Return _) =>
        match RepoObj.mkdtemp_for (RepoObj.name self) w1 with
        | (w2, Raise e) =>
            (RepoObj.set_librepo_handle (Some (configured self None)) self, w2, Raise e)
        | (w2, Return dir) =>
            let self2 := RepoObj.set_librepo_handle (Some (configured self (Some dir))) self in
            if is_local_repo self (fs w2) then load_local lr self2 w2
            else load_remote lr h self2 w2
        end
    end.
Proof.
  unfold RepoObj.download_repodata, is_local_repo, configured, load_local, load_remote.
  destruct self as [name baseurl metalink skip handle repomd root primary filelists].
  unfold RepoObj.on_handle.
  unfold mbind, RepoObj.Method_bind, RepoObj.run, RepoObj.attribute, RepoObj.assign,
    mret, RepoObj.Method_ret.
  destruct (Cache.clean h w) as [w1 [[]|e]]; [|reflexivity]. method_step.
  destruct (Repo.truthy baseurl) eqn:Hb; method_step;
    (destruct (Repo.truthy metalink) eqn:Hm; method_step);
    (destruct (RepoObj.mkdtemp_for name w1) as [w2 [dir|e]]; [|reflexivity]);
    method_step; rewrite ?Hb; method_step;
    try (destruct (is_dir _ (fs w2))); reflexivity.
Qed.


Lemma download_metadata_result_run self w hd :
  RepoObj.librepo_handle self = Some hd →
  RepoObj._download_metadata_result lr self w =
    match Librepo.perform lr hd (fs w) with
    | (t, Librepo.LibrepoException msg) =>
        (self, put_fs t w,
         Raise (RepoDownloadError
                  ("Failed to download repodata for " +:+ RepoObj.__repr__ self +:+ ": " +:+ msg)
                  (OtherException "librepo.LibrepoException")))
    | (t, Librepo.Result rpmmd_repomd) =>
        (RepoObj.set__rpmmd_repomd rpmmd_repomd self, put_fs t w, Return tt)
    end.
Proof. intros Hhd. unfold RepoObj._download_metadata_result. by rewrite Hhd. Qed.

(** What stays when the metadata are asked for. *)
Lemma download_metadata_result_keeps self w self' w' r :
  RepoObj._download_metadata_result lr self w = (self', w', r) →
  same_repo self self' ∧
  RepoObj.librepo_handle self' = RepoObj.librepo_handle self ∧
  RepoObj._root_path self' = RepoObj._root_path self ∧
  RepoObj.primary self' = RepoObj.primary self ∧
  RepoObj.filelists self' = RepoObj.filelists self ∧
  clock w' = clock w ∧ tmp_names w' = tmp_names w ∧ http_log w' = http_log w ∧
  librepo_log w' = librepo_log w.
Proof.
  unfold RepoObj._download_metadata_result.
  destruct (RepoObj.librepo_handle self) as [hd|] eqn:Hhd.
  - destruct (Librepo.perform lr hd (fs w)) as [t [v|msg]]; intros [= <- <- <-];
      by repeat split.
  - intros [= <- <- <-]. by repeat split.
Qed.

Lemma download_metadata_result_sets self w self' w' :
  RepoObj._download_metadata_result lr self w = (self', w', Return tt) →
  ∃ hd t, (Librepo.perform lr hd t).2 = Librepo.Result (RepoObj._rpmmd_repomd self').
Proof.
  unfold RepoObj._download_metadata_result.
  destruct (RepoObj.librepo_handle self) as [hd|]; [|intros [=]].
  destruct (Librepo.perform lr hd (fs w)) as [t [v|msg]] eqn:Hperform; [|intros [=]].
  intros Heq. injection Heq as <- _. exists hd, (fs w). by rewrite Hperform.
Qed.

Lemma same_repo_refl self : same_repo self self.
Proof. by repeat split. Qed.

Lemma same_repo_trans s1 s2 s3 : same_repo s1 s2 → same_repo s2 s3 → same_repo s1 s3.
Proof. intros (? & ? & ? & ?) (? & ? & ? & ?). repeat split; congruence. Qed.

Lemma repr_same_repo self self' : same_repo self self' → RepoObj.__repr__ self' = RepoObj.__repr__ self.
Proof. intros (Hn & Hb & Hm & _). unfold RepoObj.__repr__. by rewrite Hn, Hb, Hm. Qed.


(** [mkdtemp] changes the tree and uses up names; it raises [OSError]s only. *)
Lemma mkdtemp_from_run names suffix prefix dir :
  ∀ w w' r,
    Tempfile.mkdtemp_from names suffix prefix dir w = (w', r) →
    clock w' = clock w ∧ http_log w' = http_log w ∧ librepo_log w' = librepo_log w ∧
    match r with
    | Return file =>
        ∃ n, n ∈ names ∧ file = Text.join dir (prefix +:+ n +:+ suffix) ∧
             Os.mkdir (PurePath.of_string file) (fs w) = inr (fs w')
    | Raise e => fs w' = fs w ∧ ∃ en, e = OSError en
    end.
Proof.
  induction names as [|n names IH]; intros w w' r; simpl.
  { intros [= <- <-]. repeat split; try done. by eexists. }
  destruct (Os.mkdir _ (fs w)) as [en|t] eqn:Hmk.
  - destruct (decide (en = EEXIST)) as [->|Hen].
    + intros Hrest. destruct (IH _ _ _ Hrest) as (Hc & Hl & Hlr & Hr).
      repeat split; try done. destruct r as [file|e]; [|done].
      destruct Hr as (n' & Hin & -> & Hmk'). exists n'. split; [by right|done].
    + clear Hmk. destruct en; try done; intros [= <- <-]; repeat split; try done; by eexists.
  - intros [= <- <-]. repeat split; try done. exists n. split; [by left|done].
Qed.


Lemma mkdtemp_for_run repo_name w w' r :
  RepoObj.mkdtemp_for repo_name w = (w', r) →
  clock w' = clock w ∧ http_log w' = http_log w ∧ librepo_log w' = librepo_log w ∧
  match r with
  | Return file =>
      ∃ n, file = ("/var/tmp/rpmdeplint-" +:+ n +:+ repo_name)%string ∧
           Os.mkdir (PurePath.of_string file) (fs w) = inr (fs w')
  | Raise e => fs w' = fs w ∧ ∃ en, e = OSError en
  end.
Proof.
  unfold RepoObj.mkdtemp_for, Tempfile.mkdtemp. intros Hrun.
  destruct (mkdtemp_from_run _ _ _ _ _ _ _ Hrun) as (Hc & Hl & Hlr & Hr).
  repeat split; try done. destruct r as [file|e]; [|done].
  destruct Hr as (n & _ & -> & Hmk). by exists n.
Qed.

Section Keeps.

Context (R : relation (RepoObj.t * state)) `{!PreOrder R}.

Lemma keeps_bind {A B} (m : RepoObj.Method A) (k : A → RepoObj.Method B) :
  keeps R m → (∀ a, keeps R (k a)) → keeps R (m ≫= k).
Proof.
  intros Hm Hk self w self' w' r. unfold mbind, RepoObj.Method_bind.
  destruct (m self w) as [[self1 w1] [a|e]] eqn:Hrun.
  - intros Hrest. etrans; [by apply (Hm _ _ _ _ _ Hrun)|by apply (Hk a _ _ _ _ _ Hrest)].
  - intros [= <- <- <-]. by apply (Hm _ _ _ _ _ Hrun).
Qed.

Lemma keeps_ret {A} (a : A) : keeps R (mret a).
Proof. intros self w self' w' r [= <- <- <-]. reflexivity. Qed.

Lemma keeps_attribute {A} (f : RepoObj.t → A) : keeps R (RepoObj.attribute f).
Proof. intros self w self' w' r [= <- <- <-]. reflexivity. Qed.

Lemma keeps_property {A} (f : RepoObj.t → outcome A) : keeps R (RepoObj.property f).
Proof. intros self w self' w' r [= <- <- <-]. reflexivity. Qed.

Lemma keeps_run {A} (m : Run A) :
  (∀ self w w' r, m w = (w', r) → R (self, w) (self, w')) → keeps R (RepoObj.run m).
Proof. intros Hm self w self' w' r [-> Hrun]%run_inv. by apply (Hm _ _ _ r). Qed.

Lemma keeps_assign (f : RepoObj.t → RepoObj.t) :
  (∀ self w, R (self, w) (f self, w)) → keeps R (RepoObj.assign f).
Proof. intros Hf self w self' w' r [= <- <- <-]. apply Hf. Qed.

End Keeps.

#[local] Instance quiet_preorder : PreOrder quiet.
Proof.
  split.
  - intros [self w]. split; [apply same_repo_refl|done].
  - intros [s1 w1] [s2 w2] [s3 w3]. unfold quiet. simpl. intros [H12 L12] [H23 L23].
    split; [by apply (same_repo_trans _ s2)|by rewrite L23].
Qed.

Lemma reading_quiet {A} (call : node → sys A) self w w' r :
  reading call w = (w', r) → quiet (self, w) (self, w').
Proof. intros [= <- _]. reflexivity. Qed.

Lemma download_metadata_result_quiet : keeps quiet (RepoObj._download_metadata_result lr).
Proof.
  intros self w self' w' r Hrun.
  destruct (download_metadata_result_keeps _ _ _ _ _ Hrun) as (? & _ & _ & _ & _ & _ & _ & ? & _).
  by split.
Qed.

Lemma load_local_quiet : keeps quiet (load_local lr).
Proof.
  unfold load_local.
  repeat first
    [ apply (keeps_bind quiet); [|intros ?]
    | apply download_metadata_result_quiet
    | apply (keeps_attribute quiet)
    | apply (keeps_property quiet)
    | apply (keeps_run quiet); intros ? ? ? ?; apply reading_quiet
    | apply (keeps_assign quiet); intros ? ?; by split ].
Qed.


(** A new directory leaves the directories there are. *)
Lemma mkdir_keeps_dirs p t t' q :
  Os.mkdir p t = inr t' → is_dir q t = true → is_dir q t' = true.
Proof.
  unfold Os.mkdir. destruct p as [|c0 p0]; [done|].
  intros (r & kids & o & _ & Hparent & Ho & ->)%at_entry_inv.
  set (d := PurePath.parent (c0 :: p0)) in *. set (x := PurePath.name (c0 :: p0)) in *.
  destruct (kids !! x) eqn:Hx; [done|]. injection Ho as <-.
  unfold is_dir.
  destruct (paths_compare d q) as [[rest ->]|[(c & rest & Hd)|[Hdq Hqd]]].
  - rewrite (stat_graft_below _ _ _ _ _ Hparent), stat_app, Hparent.
    destruct rest as [|c rest]; [done|]. simpl.
    destruct (decide (c = x)) as [->|Hc]; [by rewrite Hx|].
    by rewrite lookup_partial_alter_ne.
  - rewrite Hd, stat_graft_above.
    destruct (stat q t) as [e|[| |r0 kids0]]; done.
  - by rewrite stat_graft_aside.
Qed.

(** The start of [download_repodata] requests nothing and removes no
    directory. *)
Lemma clean_quiet w :
  http_log (Cache.clean h w).1 = http_log w ∧
  ∀ q, is_dir q (fs (Cache.clean h w).1) = is_dir q (fs w).
Proof.
  destruct (Cache.expiry_seconds h) as [window|e] eqn:Hwin.
  - destruct (clean_cleaned h w window Hwin) as (_ & _ & Hlog & _ & Hpruned).
    split; [done|]. intros q. apply (pruned_is_dir _ _ _ _ Hpruned).
  - by rewrite (clean_raises_early h w e Hwin).
Qed.

Lemma clean_only_clock w : clock (Cache.clean h w).1 = clock w.
Proof.
  destruct (Cache.expiry_seconds h) as [window|e] eqn:Hwin.
  - by destruct (clean_cleaned h w window Hwin) as (Hclock & _).
  - by rewrite (clean_raises_early h w e Hwin).
Qed.

Lemma download_repodata_local self w :
  is_local_repo self (fs w) = true →
  RepoObj.download_repodata lr h self w =
    match Cache.clean h w with
    | (w1, Raise e) => (self, w1, Raise e)
    | (w1, Return _) =>
        match RepoObj.mkdtemp_for (RepoObj.name self) w1 with
        | (w2, Raise e) =>
            (RepoObj.set_librepo_handle (Some (configured self None)) self, w2, Raise e)
        | (w2, Return dir) =>
            load_local lr (RepoObj.set_librepo_handle (Some (configured self (Some dir))) self) w2
        end
    end.
Proof.
  intros Hlocal. rewrite download_repodata_unfold.
  destruct (clean_quiet w) as [_ Hdirs].
  destruct (Cache.clean h w) as [w1 [[]|e]]; [|done]. simpl in Hdirs.
  destruct (RepoObj.mkdtemp_for (RepoObj.name self) w1) as [w2 [dir|e]] eqn:Hmk; [|done].
  destruct (mkdtemp_for_run _ _ _ _ Hmk) as (_ & _ & _ & n & _ & Hmkdir).
  assert (is_local_repo self (fs w2) = true) as ->; [|done].
  unfold is_local_repo in *. apply andb_true_iff in Hlocal as [-> Hdir]. simpl.
  apply (mkdir_keeps_dirs _ _ _ _ Hmkdir). by rewrite Hdirs.
Qed.


Lemma record_url_needs self record url :
  RepoObj.record_url self record = Return url →
  Repo.truthy (RepoObj.baseurl self) = true ∧
  Python.truth (RepoObj._rpmmd_repomd self) = true.
Proof.
  unfold RepoObj.record_url, RepoObj.record_field, RepoObj.repomd.
  destruct (Repo.truthy (RepoObj.baseurl self)); [|done].
  by destruct (Python.truth (RepoObj._rpmmd_repomd self)).
Qed.

Lemma reading_inv {A} (call : node → sys A) w w' a :
  reading call w = (w', Return a) → w' = w ∧ call (fs w) = inr a.
Proof. unfold reading. destruct (call (fs w)); simpl; [done|]. by intros [= <- <-]. Qed.

Lemma load_local_returns self w self' w' :
  load_local lr self w = (self', w', Return tt) →
  Repo.truthy (RepoObj.baseurl self) = true ∧
  RepoObj._root_path self' = RepoObj.baseurl self ∧
  RepoObj.librepo_handle self' = RepoObj.librepo_handle self ∧
  Python.truth (RepoObj._rpmmd_repomd self') = true ∧
  ∃ purl pdata furl fdata,
    RepoObj.primary_url self' = Return purl ∧ RepoObj.primary self' = Some pdata ∧
    open_rb (PurePath.of_string purl) (fs w') = inr pdata ∧
    RepoObj.filelists_url self' = Return furl ∧ RepoObj.filelists self' = Some fdata ∧
    open_rb (PurePath.of_string furl) (fs w') = inr fdata.
Proof.
  unfold load_local.
  intros (s1 & w1 & [] & Hmeta & Hrun)%method_bind_inv.
  destruct (download_metadata_result_keeps _ _ _ _ _ Hmeta)
    as ((_ & Hb & _) & Hhd & _).
  apply method_bind_inv in Hrun as (? & ? & b & [= <- <- <-] & Hrun).
  apply method_bind_inv in Hrun as (? & ? & [] & [= <- <-] & Hrun).
  apply method_bind_inv in Hrun as (? & ? & purl & [= <- <- Hpurl] & Hrun).
  apply method_bind_inv in Hrun as (? & ? & pdata & [-> [-> Hpdata]%reading_inv]%run_inv & Hrun).
  apply method_bind_inv in Hrun as (? & ? & [] & [= <- <-] & Hrun).
  apply method_bind_inv in Hrun as (? & ? & furl & [= <- <- Hfurl] & Hrun).
  apply method_bind_inv in Hrun as (? & ? & fdata & [-> [-> Hfdata]%reading_inv]%run_inv & Hrun).
  injection Hrun as <- <-.
  destruct (record_url_needs _ _ _ Hpurl) as [Htruthy Htruth].
  cbn in Htruthy, Htruth. rewrite Hb in Htruthy.
  split; [done|]. split; [by simpl|]. split; [by simpl|]. split; [done|].
  by exists purl, pdata, furl, fdata.
Qed.


Lemma download_repodata_file_inv checksum url w w' data :
  RepoObj.download_repodata_file h checksum url w = (w', Return data) →
  ∃ s, checksum = Python.Str s ∧ Cache.download_repodata_file h s url w = (w', Return data).
Proof.
  unfold RepoObj.download_repodata_file. destruct checksum as [|s| | |]; try done.
  intros Hrun. by exists s.
Qed.

Lemma load_remote_returns self w self' w' :
  load_remote lr h self w = (self', w', Return tt) →
  same_repo self self' ∧
  Repo.truthy (RepoObj.baseurl self) = true ∧
  (∃ n, RepoObj._root_path self' =
          Some ("/var/tmp/rpmdeplint-" +:+ n +:+ RepoObj.name self)%string) ∧
  RepoObj.librepo_handle self' =
    RepoObj.set_destdir (RepoObj._root_path self') <$> RepoObj.librepo_handle self ∧
  Python.truth (RepoObj._rpmmd_repomd self') = true ∧
  ∃ pc purl pdata fc furl fdata w2 w3,
    RepoObj.primary_checksum self' = Return (Python.Str pc) ∧
    RepoObj.primary_url self' = Return purl ∧ RepoObj.primary self' = Some pdata ∧
    RepoObj.filelists_checksum self' = Return (Python.Str fc) ∧
    RepoObj.filelists_url self' = Return furl ∧ RepoObj.filelists self' = Some fdata ∧
    http_log w2 = http_log w ∧ clock w2 = clock w ∧
    (∃ hd t, (Librepo.perform lr hd t).2 = Librepo.Result (RepoObj._rpmmd_repomd self')) ∧
    Cache.download_repodata_file h pc purl w2 = (w3, Return pdata) ∧
    Cache.download_repodata_file h fc furl w3 = (w', Return fdata).
Proof.
  unfold load_remote.
  intros (? & ? & repo_name & [= <- <- <-] & Hrun)%method_bind_inv.
  apply method_bind_inv in Hrun as (? & w1 & dir & [-> Hmk]%run_inv & Hrun).
  destruct (mkdtemp_for_run _ _ _ _ Hmk) as (Hclock1 & Hlog1 & _ & n & -> & _).
  apply method_bind_inv in Hrun as (? & ? & [] & [= <- <-] & Hrun).
  apply method_bind_inv in Hrun as (? & ? & [] & [= <- <-] & Hrun).
  apply method_bind_inv in Hrun as (s1 & w2 & [] & Hmeta & Hrun).
  destruct (download_metadata_result_keeps _ _ _ _ _ Hmeta)
    as (Hsame & Hhd & Hroot & _ & _ & Hclock2 & _ & Hlog2 & _).
  pose proof Hsame as (Hn & Hb & _).
  pose proof (download_metadata_result_sets _ _ _ _ Hmeta) as Hperformed.
  cbn in Hn, Hb, Hhd, Hroot.
  apply method_bind_inv in Hrun as (? & ? & pc & [= <- <- Hpc] & Hrun).
  apply method_bind_inv in Hrun as (? & ? & purl & [= <- <- Hpurl] & Hrun).
  apply method_bind_inv in Hrun
    as (? & w3 & pdata & [-> (pcs & -> & Hpdata)%download_repodata_file_inv]%run_inv & Hrun).
  apply method_bind_inv in Hrun as (? & ? & [] & [= <- <-] & Hrun).
  apply method_bind_inv in Hrun as (? & ? & fc & [= <- <- Hfc] & Hrun).
  apply method_bind_inv in Hrun as (? & ? & furl & [= <- <- Hfurl] & Hrun).
  apply method_bind_inv in Hrun
    as (? & w4 & fdata & [-> (fcs & -> & Hfdata)%download_repodata_file_inv]%run_inv & Hrun).
  injection Hrun as <- <-.
  destruct (record_url_needs _ _ _ Hpurl) as [Htruthy Htruth].
  rewrite Hb in Htruthy.
  split; [exact Hsame|].
  split; [done|]. split; [exists n; cbn; by rewrite Hroot|].
  split; [cbn; by rewrite Hhd, Hroot|]. split; [done|].
  exists pcs, purl, pdata, fcs, furl, fdata, w2, w3.
  repeat split; try done; congruence.
Qed.

End DownloadRepodata.

(** X13: [download_repodata] returns normally only for a repository
    with a base URL: without one (a repository given by a metalink or a
    mirrorlist only) it raises, whatever librepo answers, because the URLs
    of the metadata files are joined to the base URL.  When it returns, the
    handle, the root path, a non-empty repodata, [primary] and [filelists]
    are all set, and the two URLs can be read. *)
Theorem download_repodata_needs_a_baseurl lr h self w self' w' r :
  RepoObj.download_repodata lr h self w = (self', w', r) →
  (Repo.truthy (RepoObj.baseurl self) = false → ∃ e, r = Raise e) ∧
  (r = Return tt →
     Repo.truthy (RepoObj.baseurl self) = true ∧
     is_Some (RepoObj.librepo_handle self') ∧
     is_Some (RepoObj._root_path self') ∧
     Python.truth (RepoObj._rpmmd_repomd self') = true ∧
     is_Some (RepoObj.primary self') ∧ is_Some (RepoObj.filelists self') ∧
     ∃ purl furl, RepoObj.primary_url self' = Return purl ∧
                  RepoObj.filelists_url self' = Return furl).
Proof.
  intros Hrun.
  assert (Hreturns : r = Return tt →
     Repo.truthy (RepoObj.baseurl self) = true ∧
     is_Some (RepoObj.librepo_handle self') ∧
     is_Some (RepoObj._root_path self') ∧
     Python.truth (RepoObj._rpmmd_repomd self') = true ∧
     is_Some (RepoObj.primary self') ∧ is_Some (RepoObj.filelists self') ∧
     ∃ purl furl, RepoObj.primary_url self' = Return purl ∧
                  RepoObj.filelists_url self' = Return furl).
  { intros ->. rewrite download_repodata_unfold in Hrun.
    destruct (Cache.clean h w) as [w1 [[]|e]]; [|done].
    destruct (RepoObj.mkdtemp_for (RepoObj.name self) w1) as [w2 [dir|e]]; [|done].
    cbv zeta in Hrun. destruct (is_local_repo self (fs w2)) eqn:Hlocal.
    - destruct (load_local_returns _ _ _ _ _ Hrun)
        as (Hb & Hroot & Hhd & Htruth & purl & pdata & furl & fdata & Hp & Hpd & _ & Hf & Hfd & _).
      cbn in Hb, Hroot, Hhd. rewrite Hroot, Hhd, Hpd, Hfd.
      repeat split; try done; try by eexists.
      + destruct (RepoObj.baseurl self); [by eexists|done].
      + by exists purl, furl.
    - destruct (load_remote_returns _ _ _ _ _ _ Hrun)
        as (_ & Hb & [n Hroot] & Hhd & Htruth & pc & purl & pdata & fc & furl & fdata & w3 & w4
            & _ & Hp & Hpd & _ & Hf & Hfd & _).
      cbn in Hb, Hhd. rewrite Hroot, Hhd, Hpd, Hfd.
      repeat split; try done; try by eexists. by exists purl, furl. }
  split; [|done]. intros Hb. destruct r as [[]|e]; [|by eexists].
  destruct (Hreturns eq_refl) as [Hb' _]. congruence.
Qed.

Lemma download_repodata_needs_a_baseurl_witness :
  (∃ e, (RepoObj.download_repodata working_library plain_host metalink_repo
           (world_of 1000 repo_disk)).2 = Raise e) ∧
  (RepoObj.download_repodata working_library plain_host directory_repo
     (world_of 1000 repo_disk)).2 = Return tt.
Proof.
  split.
  - apply (download_repodata_needs_a_baseurl working_library plain_host metalink_repo
             (world_of 1000 repo_disk) _ _ _ eq_refl). reflexivity.
  - vm_compute. reflexivity.
Defined.

(** X14: for a base URL that is a directory when
    [download_repodata] begins, nothing is requested through the session,
    however the call ends; when it returns, the root path is the base URL
    and [primary] and [filelists] hold the bytes of the files that
    [primary_url] and [filelists_url] name in the tree. *)
Theorem local_repo_is_read_in_place lr h self w self' w' r :
  is_local_repo self (fs w) = true →
  RepoObj.download_repodata lr h self w = (self', w', r) →
  http_log w' = http_log w ∧
  (r = Return tt →
     RepoObj._root_path self' = RepoObj.baseurl self ∧
     ∃ purl pdata furl fdata,
       RepoObj.primary_url self' = Return purl ∧ RepoObj.primary self' = Some pdata ∧
       open_rb (PurePath.of_string purl) (fs w') = inr pdata ∧
       RepoObj.filelists_url self' = Return furl ∧ RepoObj.filelists self' = Some fdata ∧
       open_rb (PurePath.of_string furl) (fs w') = inr fdata).
Proof.
  intros Hlocal. rewrite (download_repodata_local lr h self w Hlocal).
  destruct (clean_quiet h w) as [Hlog1 _].
  destruct (Cache.clean h w) as [w1 [[]|e]]; simpl in Hlog1; [|by intros [= <- <- <-]].
  destruct (RepoObj.mkdtemp_for (RepoObj.name self) w1) as [w2 [dir|e]] eqn:Hmk.
  - destruct (mkdtemp_for_run _ _ _ _ Hmk) as (_ & Hlog2 & _).
    intros Hrun. split.
    + destruct (load_local_quiet lr _ _ _ _ _ Hrun) as [_ Hlog3]. simpl in Hlog3. congruence.
    + intros ->.
      destruct (load_local_returns _ _ _ _ _ Hrun) as (_ & Hroot & _ & _ & Hfiles).
      split; [exact Hroot|exact Hfiles].
  - destruct (mkdtemp_for_run _ _ _ _ Hmk) as (_ & Hlog2 & _).
    intros [= <- <- <-]. split; [congruence|done].
Qed.

Lemma local_repo_is_read_in_place_witness :
  let run := RepoObj.download_repodata working_library plain_host directory_repo
               (world_of 1000 repo_disk) in
  http_log run.1.2 = [] ∧
  (run.2 = Return tt →
     RepoObj._root_path run.1.1 = Some "/srv/repo"%string ∧
     ∃ purl pdata furl fdata,
       RepoObj.primary_url run.1.1 = Return purl ∧ RepoObj.primary run.1.1 = Some pdata ∧
       open_rb (PurePath.of_string purl) (fs run.1.2) = inr pdata ∧
       RepoObj.filelists_url run.1.1 = Return furl ∧ RepoObj.filelists run.1.1 = Some fdata ∧
       open_rb (PurePath.of_string furl) (fs run.1.2) = inr fdata).
Proof.
  apply (local_repo_is_read_in_place working_library plain_host directory_repo
           (world_of 1000 repo_disk) _ _ _); reflexivity.
Defined.

(** The same run, evaluated. *)
Example download_repodata_from_local_repo :
  let run := RepoObj.download_repodata working_library plain_host directory_repo
               (world_of 1000 repo_disk) in
  run.2 = Return tt ∧
  RepoObj.primary_url run.1.1 = Return "/srv/repo/repodata/primary.xml.gz"%string ∧
  RepoObj.primary run.1.1 = Some [Byte.x1f; Byte.x8b; Byte.x01] ∧
  RepoObj.filelists run.1.1 = Some [Byte.x1f; Byte.x8b; Byte.x02] ∧
  RepoObj.primary_checksum run.1.1 = Return (Python.Str "abcdef") ∧
  is_dir (PurePath.of_string "/var/tmp/rpmdeplint-k3x_9q2abase") (fs run.1.2) = true.
Proof. repeat split; vm_compute; reflexivity. Qed.

(** X15: when librepo cannot fetch the repodata and fails with the
    message [msg], [download_repodata] raises; unless [clean] or the
    creation of a temporary directory failed before, the exception is a
    [RepoDownloadError] whose text is Failed to download repodata for, the
    [__repr__] of the repository, a colon and [msg].  Nothing is requested
    through the session, and [primary] and [filelists] stay as they were. *)
Theorem librepo_failure_is_reported lr h self w self' w' r msg :
  (∀ hd t, (Librepo.perform lr hd t).2 = Librepo.LibrepoException msg) →
  RepoObj.download_repodata lr h self w = (self', w', r) →
  http_log w' = http_log w ∧
  RepoObj.primary self' = RepoObj.primary self ∧
  RepoObj.filelists self' = RepoObj.filelists self ∧
  ∃ e, r = Raise e ∧
       ((Cache.clean h w).2 = Raise e ∨
        (∃ en, e = OSError en) ∨
        e = RepoDownloadError
              ("Failed to download repodata for " +:+ RepoObj.__repr__ self +:+ ": " +:+ msg)
              (OtherException "librepo.LibrepoException")).
Proof.
  intros Hfails. rewrite download_repodata_unfold.
  destruct (clean_quiet h w) as [Hlog1 _].
  destruct (Cache.clean h w) as [w1 [[]|e]]; simpl in Hlog1;
    [|intros [= <- <- <-]; repeat split; try done; exists e; split; [done|by left]].
  destruct (RepoObj.mkdtemp_for (RepoObj.name self) w1) as [w2 [dir|e]] eqn:Hmk.
  2:{ destruct (mkdtemp_for_run _ _ _ _ Hmk) as (_ & Hlog2 & _ & _ & en & ->).
      intros [= <- <- <-]. repeat split; try done; [congruence|].
      eexists. split; [done|]. right; left. by eexists. }
  destruct (mkdtemp_for_run _ _ _ _ Hmk) as (_ & Hlog2 & _).
  set (self2 := RepoObj.set_librepo_handle (Some (configured self (Some dir))) self).
  cbv zeta.
  assert (Hmeta : ∀ s w0 hd, RepoObj.librepo_handle s = Some hd → same_repo self s →
            ∃ t, RepoObj._download_metadata_result lr s w0 =
                   (s, put_fs t w0,
                    Raise (RepoDownloadError
                             ("Failed to download repodata for " +:+ RepoObj.__repr__ self
                                +:+ ": " +:+ msg)
                             (OtherException "librepo.LibrepoException")))).
  { intros s w0 hd Hhd Hsame. rewrite (download_metadata_result_run lr s w0 hd Hhd).
    specialize (Hfails hd (fs w0)). destruct (Librepo.perform lr hd (fs w0)) as [t p].
    simpl in Hfails. subst p. exists t. by rewrite (repr_same_repo self s Hsame). }
  destruct (is_local_repo self (fs w2)).
  - unfold load_local.
    destruct (Hmeta self2 w2 _ eq_refl) as [t Hraise]; [by repeat split|].
    rewrite (method_bind_raise _ _ _ _ _ _ _ Hraise).
    intros [= <- <- <-]. repeat split; try done; [simpl; congruence|].
    eexists. split; [done|]. by right; right.
  - unfold load_remote.
    unfold mbind at 1, RepoObj.Method_bind at 1, RepoObj.attribute at 1.
    unfold mbind at 1, RepoObj.Method_bind at 1, RepoObj.run at 1.
    destruct (RepoObj.mkdtemp_for (RepoObj.name self2) w2) as [w3 [dir2|e]] eqn:Hmk2.
    2:{ destruct (mkdtemp_for_run _ _ _ _ Hmk2) as (_ & Hlog3 & _ & _ & en & ->).
        intros [= <- <- <-]. repeat split; try done; [congruence|].
        eexists. split; [done|]. right; left. by eexists. }
    destruct (mkdtemp_for_run _ _ _ _ Hmk2) as (_ & Hlog3 & _).
    unfold mbind at 1, RepoObj.Method_bind at 1, RepoObj.assign at 1.
    unfold mbind at 1, RepoObj.Method_bind at 1, RepoObj.on_handle, RepoObj.assign at 1.
    unfold mbind at 1, RepoObj.Method_bind at 1.
    match goal with
    | |- context [RepoObj._download_metadata_result lr ?s ?w0] =>
        destruct (Hmeta s w0 _ eq_refl) as [t Hraise]; [by repeat split|]
    end.
    rewrite Hraise.
    intros [= <- <- <-]. repeat split; try done; [simpl; congruence|].
    eexists. split; [done|]. by right; right.
Qed.

Lemma librepo_failure_is_reported_witness :
  (RepoObj.download_repodata offline_library plain_host url_repo (world_of 1000 repo_disk)).2 =
    Raise (RepoDownloadError
             ("Failed to download repodata for "
                +:+ "Repo(repo_name='dummy', baseurl='http://example.invalid/dummy')"
                +:+ ": " +:+ "Cannot download repomd.xml: All mirrors were tried")
             (OtherException "librepo.LibrepoException")).
Proof.
  set (run := RepoObj.download_repodata offline_library plain_host url_repo
                (world_of 1000 repo_disk)).
  assert (Hrun : run = (run.1.1, run.1.2, run.2)) by (by destruct run as [[? ?] ?]).
  destruct (librepo_failure_is_reported offline_library plain_host url_repo
              (world_of 1000 repo_disk) run.1.1 run.1.2 run.2
              "Cannot download repomd.xml: All mirrors were tried" (λ _ _, eq_refl) Hrun)
    as (_ & _ & _ & e & He & [Hclean|[[en ->]| ->]]).
  - vm_compute in Hclean. discriminate Hclean.
  - vm_compute in He. discriminate He.
  - rewrite He. vm_compute. reflexivity.
Defined.

(** ** Cache entries beside each other *)

Section Apart.

Implicit Types (p q d : Path) (t : node).

(** A change of what one name denotes in a directory is not seen at a path
    that is neither above nor below that entry. *)
Lemma stat_graft_entry d c r kids kids' t q :
  stat d t = inr (Dir r kids) →
  (∀ x, x ≠ c → kids' !! x = kids !! x) →
  apart (d ++ [c]) q →
  stat q (graft d (Dir r kids') t) = stat q t.
Proof.
  intros Hd Hsame [Hpq Hqp].
  destruct (paths_compare d q) as [[rest ->]|[(c' & rest & ->)|[Hdq Hqd]]].
  - rewrite (stat_graft_below _ _ _ _ _ Hd), stat_app, Hd.
    destruct rest as [|c' rest].
    { destruct Hqp. rewrite app_nil_r. by apply prefix_app_r. }
    simpl. rewrite Hsame; [done|]. intros ->. destruct Hpq.
    change (c :: rest) with ([c] ++ rest). rewrite app_assoc. by apply prefix_app_r.
  - destruct Hqp. rewrite <- app_assoc. by apply prefix_app_r.
  - by apply stat_graft_aside.
Qed.

Lemma at_entry_apart p f t t' q :
  at_entry p f t = inr t' → apart p q → stat q t' = stat q t.
Proof.
  intros (r & kids & o & Hp & Hparent & _ & ->)%at_entry_inv Hapart.
  rewrite (path_split p Hp) in Hapart.
  apply (stat_graft_entry _ (PurePath.name p) _ _ _ _ _ Hparent); [|done].
  intros x Hx. by rewrite lookup_partial_alter_ne.
Qed.

Lemma rmtree_apart p t q :
  apart p q → stat q (rmtree_ignore_errors p t) = stat q t.
Proof.
  intros Hapart. unfold rmtree_ignore_errors.
  destruct (at_entry p _ t) as [e|t'] eqn:Hat; [done|].
  by apply (at_entry_apart _ _ _ _ _ Hat).
Qed.

(** New directories are not seen at a path that is not above them. *)
Lemma mkdir_p_apart p :
  ∀ t t' q, mkdir_p p t = inr t' → ¬ q `prefix_of` p → stat q t' = stat q t.
Proof.
  induction p as [|x p IH]; intros t t' q; simpl.
  - destruct t as [| |r kids]; try done. by intros [= <-].
  - destruct t as [| |r kids]; try done.
    destruct (mkdir_p p (default (Dir true ∅) (kids !! x))) as [e|sub] eqn:Hsub; [done|].
    intros [= <-] Hq. destruct q as [|y q]; [destruct Hq; apply prefix_nil|].
    simpl. destruct (decide (y = x)) as [->|Hy].
    + rewrite lookup_insert_eq.
      assert (Hq' : ¬ q `prefix_of` p) by (intros ?; apply Hq; by apply prefix_cons).
      rewrite (IH _ _ q Hsub Hq').
      destruct (kids !! x) as [sub0|]; [done|]. simpl.
      destruct q as [|z q]; [destruct Hq'; apply prefix_nil|]. simpl. by rewrite lookup_empty.
    + by rewrite lookup_insert_ne.
Qed.

End Apart.

Section Isolation.

Context (h : host) (c1 c2 url : string).
Hypothesis Hhex1 : Text.is_hex c1 = true.
Hypothesis Hhex2 : Text.is_hex c2 = true.
Hypothesis Hlen1 : (2 ≤ String.length c1)%nat.
Hypothesis Hlen2 : (2 ≤ String.length c2)%nat.
Hypothesis Hne : c1 ≠ c2.

Lemma entries_apart : apart (Cache.entry_path h c2) (Cache.entry_path h c1).
Proof.
  rewrite (entry_path_hex h c1 Hhex1), (entry_path_hex h c2 Hhex2).
  destruct c1 as [|a1 [|b1 r1]]; simpl in Hlen1; try lia.
  destruct c2 as [|a2 [|b2 r2]]; simpl in Hlen2; try lia.
  split; intros Hpre; apply prefix_length_eq in Hpre; try (rewrite !length_app; simpl; lia);
    apply app_inv_head in Hpre; simplify_eq.
Qed.

(** Whatever a call for [c2] does, the entry of [c1] is as it was. *)
Lemma download_leaves_other_entry w :
  stat (Cache.entry_path h c1) (fs (Cache.download_repodata_file h c2 url w).1) =
  stat (Cache.entry_path h c1) (fs w).
Proof.
  pose proof entries_apart as Hapart.
  destruct (entry_path_snoc h c2 Hhex2) as (d & c & Hsplit & Hc).
  destruct (open_rb (Cache.entry_path h c2) (fs w)) as [e|data] eqn:Hopen.
  - destruct (decide (e = ENOENT ∨ e = EISDIR)) as [He|He].
    + rewrite (miss_run h c2 url w e Hopen He). cbv zeta.
      set (w1 := if decide (e = ENOENT) then w
                 else put_fs (rmtree_ignore_errors (Cache.entry_path h c2) (fs w)) w).
      assert (H1 : stat (Cache.entry_path h c1) (fs w1) = stat (Cache.entry_path h c1) (fs w)).
      { unfold w1. destruct (decide (e = ENOENT)); [done|]. simpl. by apply rmtree_apart. }
      destruct (mkdir_p _ (fs w1)) as [e'|t2] eqn:Hmk; [done|].
      assert (H2 : stat (Cache.entry_path h c1) t2 = stat (Cache.entry_path h c1) (fs w1)).
      { apply (mkdir_p_apart _ _ _ _ Hmk). intros Hpre. destruct Hapart as [_ Hno].
        apply Hno. etrans; [exact Hpre|]. rewrite Hsplit, parent_snoc. by apply prefix_app_r. }
      destruct (mkdir_p_below _ _ _ Hmk) as [(r & kids & Hd) _].
      rewrite Hsplit, parent_snoc in Hd. rewrite Hsplit.
      destruct (store_run h d r t2 kids Hd c url (put_fs t2 w1) Hc eq_refl)
        as [[-> _]|(n & rest & news & _ & _ & _ & ->)]; simpl.
      * congruence.
      * rewrite <- H1, <- H2.
        destruct (failure _); [done|]. destruct (blocked _); [done|].
        apply (stat_graft_entry _ c _ kids); [done| |by rewrite <- Hsplit].
        intros x Hx. by rewrite lookup_insert_ne.
    + rewrite (other_error_run h c2 url w e Hopen); [done|tauto|tauto].
  - destruct (open_rb_inr _ _ _ Hopen) as [mtime Hstat].
    rewrite (hit_run h c2 url Hhex2 w data mtime Hstat). simpl.
    destruct Hapart. by apply stat_graft_aside.
Qed.

End Isolation.

(** X16: cache entries do not disturb each other.  Whatever a call
    of [download_repodata_file] for one checksum does (a hit, a download, the
    removal of a legacy directory, a failure at any point), the entry of any
    other checksum is afterwards exactly what it was; both checksums being
    hexadecimal texts of at least two characters. *)
Theorem other_entries_are_left_alone h c1 c2 url w :
  Text.is_hex c1 = true → Text.is_hex c2 = true →
  (2 ≤ String.length c1)%nat → (2 ≤ String.length c2)%nat →
  c1 ≠ c2 →
  stat (Cache.entry_path h c1) (fs (Cache.download_repodata_file h c2 url w).1) =
  stat (Cache.entry_path h c1) (fs w).
Proof. intros. by apply download_leaves_other_entry. Qed.

Lemma other_entries_are_left_alone_witness :
  stat (Cache.entry_path serving_host "abcdef")
       (fs (Cache.download_repodata_file serving_host "0123ff" primary_url
              (world_of 1000 (cache_disk warm_cache))).1) =
  stat (Cache.entry_path serving_host "abcdef") (fs (world_of 1000 (cache_disk warm_cache))).
Proof.
  apply (other_entries_are_left_alone serving_host "abcdef" "0123ff" primary_url
           (world_of 1000 (cache_disk warm_cache)));
    first [reflexivity | discriminate | simpl; lia].
Defined.

(** A call that returns has requested its URL, or nothing. *)
Lemma download_returns_log h checksum url w w' data :
  Text.is_hex checksum = true →
  Cache.download_repodata_file h checksum url w = (w', Return data) →
  http_log w' = http_log w ∨ http_log w' = url :: http_log w.
Proof.
  intros Hhex Hrun.
  destruct (entry_path_snoc h checksum Hhex) as (d & c & Hsplit & Hc).
  destruct (download_cases h checksum url d c Hhex Hsplit Hc w w' _ Hrun)
    as (news & _ & [(? & ? & _ & _ & _ & Hlog & _)
                   |(_ & _ & [(_ & _ & _ & Hlog)|(e & [=] & _)])]); auto.
Qed.

(** X17: when [download_repodata] returns for a repository that is
    not read in place, [primary] and [filelists] hold what
    [download_repodata_file] returned for the checksums and URLs of the two
    records; for hexadecimal checksums of at least two characters both
    entries are then regular files of the cache holding these bytes, and the
    session was asked for nothing but the two URLs, the primary before the
    filelists, each at most once. *)
Theorem remote_load_fills_the_cache lr h self w self' w' :
  RepoObj.download_repodata lr h self w = (self', w', Return tt) →
  RepoObj._root_path self' ≠ RepoObj.baseurl self →
  ∃ pc purl pdata fc furl fdata,
    RepoObj.primary_checksum self' = Return (Python.Str pc) ∧
    RepoObj.primary_url self' = Return purl ∧ RepoObj.primary self' = Some pdata ∧
    RepoObj.filelists_checksum self' = Return (Python.Str fc) ∧
    RepoObj.filelists_url self' = Return furl ∧ RepoObj.filelists self' = Some fdata ∧
    (Text.is_hex pc = true → Text.is_hex fc = true →
     (2 ≤ String.length pc)%nat → (2 ≤ String.length fc)%nat →
     (∃ mtime, stat (Cache.entry_path h pc) (fs w') = inr (File pdata mtime)) ∧
     (∃ mtime, stat (Cache.entry_path h fc) (fs w') = inr (File fdata mtime)) ∧
     ∃ requested, http_log w' = requested ++ http_log w ∧ requested `sublist_of` [furl; purl]).
Proof.
  intros Hrun Hroot. rewrite download_repodata_unfold in Hrun.
  destruct (clean_quiet h w) as [Hlog1 _].
  destruct (Cache.clean h w) as [w1 [[]|e]]; [|done]. simpl in Hlog1.
  destruct (RepoObj.mkdtemp_for (RepoObj.name self) w1) as [w2 [dir|e]] eqn:Hmk; [|done].
  destruct (mkdtemp_for_run _ _ _ _ Hmk) as (_ & Hlog2 & _).
  cbv zeta in Hrun. destruct (is_local_repo self (fs w2)).
  { destruct (load_local_returns _ _ _ _ _ Hrun) as (_ & Hlocal & _). by destruct Hroot. }
  destruct (load_remote_returns _ _ _ _ _ _ Hrun)
    as (_ & _ & _ & _ & _ & pc & purl & pdata & fc & furl & fdata & w3 & w4
        & Hpc & Hpurl & Hpdata & Hfc & Hfurl & Hfdata & Hlog3 & _ & _ & Hprimary & Hfilelists).
  exists pc, purl, pdata, fc, furl, fdata. repeat (split; [done|]).
  intros Hhexp Hhexf Hlenp Hlenf.
  pose proof (download_returns_entry h pc purl _ _ _ Hhexp Hprimary) as Hentryp.
  pose proof (download_returns_entry h fc furl _ _ _ Hhexf Hfilelists) as Hentryf.
  split; [|split].
  - destruct (decide (pc = fc)) as [->|Hne].
    + (* one entry for both: the second call found what the first left *)
      destruct (entry_path_snoc h fc Hhexf) as (d & c & Hsplit & Hc).
      destruct (download_cases h fc furl d c Hhexf Hsplit Hc _ _ _ Hfilelists)
        as (news & _ & [(data & mtime & Hstat & [= <-] & _)
                       |(Hnofile & _)]).
      * rewrite Hsplit in Hentryp. rewrite Hstat in Hentryp. injection Hentryp as <- _.
        by eexists.
      * unfold is_file in Hnofile. rewrite Hsplit in Hentryp. by rewrite Hentryp in Hnofile.
    + exists (clock w3).
      pose proof (download_leaves_other_entry h pc fc furl Hhexp Hhexf Hlenp Hlenf Hne w4)
        as Hkept.
      rewrite Hfilelists in Hkept. simpl in Hkept. by rewrite Hkept.
  - by eexists.
  - destruct (download_returns_log _ _ _ _ _ _ Hhexp Hprimary) as [Hp|Hp],
             (download_returns_log _ _ _ _ _ _ Hhexf Hfilelists) as [Hf|Hf].
    + exists []. split; [simpl; congruence|]. apply sublist_nil_l.
    + exists [furl]. split; [simpl; congruence|]. by apply sublist_skip_r || (constructor; apply sublist_nil_l).
    + exists [purl]. split; [simpl; congruence|]. apply sublist_cons, sublist_skip, sublist_nil_l.
    + exists [furl; purl]. split; [simpl; congruence|]. done.
Qed.

Lemma remote_load_fills_the_cache_witness :
  let run := RepoObj.download_repodata working_library serving_host url_repo
               (roomy_world 1000 repo_disk) in
  ∃ pc purl pdata fc furl fdata,
    RepoObj.primary_checksum run.1.1 = Return (Python.Str pc) ∧
    RepoObj.primary_url run.1.1 = Return purl ∧ RepoObj.primary run.1.1 = Some pdata ∧
    RepoObj.filelists_checksum run.1.1 = Return (Python.Str fc) ∧
    RepoObj.filelists_url run.1.1 = Return furl ∧ RepoObj.filelists run.1.1 = Some fdata ∧
    (Text.is_hex pc = true → Text.is_hex fc = true →
     (2 ≤ String.length pc)%nat → (2 ≤ String.length fc)%nat →
     (∃ mtime, stat (Cache.entry_path serving_host pc) (fs run.1.2) = inr (File pdata mtime)) ∧
     (∃ mtime, stat (Cache.entry_path serving_host fc) (fs run.1.2) = inr (File fdata mtime)) ∧
     ∃ requested, http_log run.1.2 = requested ++ http_log (roomy_world 1000 repo_disk) ∧
                  requested `sublist_of` [furl; purl]).
Proof.
  apply (remote_load_fills_the_cache working_library serving_host url_repo
           (roomy_world 1000 repo_disk)).
  - vm_compute. reflexivity.
  - vm_compute. discriminate.
Defined.

(** The same run, evaluated: both files were requested, in this order, and
    are in the cache under their checksums; two temporary directories were
    made, of which the second is the root path. *)
Example download_repodata_from_url :
  let run := RepoObj.download_repodata working_library serving_host url_repo
               (roomy_world 1000 repo_disk) in
  run.2 = Return tt ∧
  RepoObj.primary run.1.1 = Some [Byte.x1f; Byte.x8b; Byte.x08] ∧
  http_log run.1.2 = ["http://example.invalid/dummy/repodata/filelists.xml.gz";
                      "http://example.invalid/dummy/repodata/primary.xml.gz"]%string ∧
  stat (Cache.entry_path serving_host "abcdef") (fs run.1.2) =
    inr (File [Byte.x1f; Byte.x8b; Byte.x08] 1000) ∧
  stat (Cache.entry_path serving_host "0123ff") (fs run.1.2) =
    inr (File [Byte.x1f; Byte.x8b; Byte.x08] 1000) ∧
  RepoObj._root_path run.1.1 = Some "/var/tmp/rpmdeplint-w0_tz81bdummy"%string ∧
  is_dir (PurePath.of_string "/var/tmp/rpmdeplint-k3x_9q2adummy") (fs run.1.2) = true ∧
  is_dir (PurePath.of_string "/var/tmp/rpmdeplint-w0_tz81bdummy") (fs run.1.2) = true.
Proof. repeat split; vm_compute; reflexivity. Qed.

(** ** Loading a repository again *)

(** A call does not move the clock. *)
Lemma download_keeps_clock h checksum url w :
  Text.is_hex checksum = true →
  clock (Cache.download_repodata_file h checksum url w).1 = clock w.
Proof.
  intros Hhex.
  destruct (entry_path_snoc h checksum Hhex) as (d & c & Hsplit & Hc).
  destruct (open_rb (Cache.entry_path h checksum) (fs w)) as [e|data] eqn:Hopen.
  - destruct (decide (e = ENOENT ∨ e = EISDIR)) as [He|He].
    + rewrite (miss_run h checksum url w e Hopen He). cbv zeta.
      set (w1 := if decide (e = ENOENT) then w
                 else put_fs (rmtree_ignore_errors (Cache.entry_path h checksum) (fs w)) w).
      assert (H1 : clock w1 = clock w) by (unfold w1; by destruct (decide (e = ENOENT))).
      destruct (mkdir_p _ (fs w1)) as [e'|t2] eqn:Hmk; [done|].
      destruct (mkdir_p_below _ _ _ Hmk) as [(r & kids & Hd) _].
      rewrite Hsplit, parent_snoc in Hd. rewrite Hsplit.
      destruct (store_run h d r t2 kids Hd c url (put_fs t2 w1) Hc eq_refl)
        as [[-> _]|(n & rest & news & _ & _ & _ & ->)]; done.
    + rewrite (other_error_run h checksum url w e Hopen); [done|tauto|tauto].
  - destruct (open_rb_inr _ _ _ Hopen) as [mtime Hstat].
    by rewrite (hit_run h checksum url Hhex w data mtime Hstat).
Qed.

(** A new directory leaves the files there are. *)
Lemma mkdir_keeps_files p t t' q data mtime :
  Os.mkdir p t = inr t' → stat q t = inr (File data mtime) → stat q t' = inr (File data mtime).
Proof.
  unfold Os.mkdir. destruct p as [|c0 p0]; [done|].
  intros (r & kids & o & _ & Hparent & Ho & ->)%at_entry_inv.
  set (d := PurePath.parent (c0 :: p0)) in *. set (x := PurePath.name (c0 :: p0)) in *.
  destruct (kids !! x) eqn:Hx; [done|]. injection Ho as <-.
  destruct (paths_compare d q) as [[rest ->]|[(c & rest & Hd)|[Hdq Hqd]]].
  - rewrite (stat_graft_below _ _ _ _ _ Hparent), stat_app, Hparent.
    destruct rest as [|c rest]; [done|]. simpl.
    destruct (decide (c = x)) as [->|Hc]; [by rewrite Hx|].
    by rewrite lookup_partial_alter_ne.
  - rewrite Hd, stat_graft_above. intros Hq. rewrite Hq.
    by rewrite (graft_below_kind (c :: rest) _ (File data mtime)).
  - by rewrite stat_graft_aside.
Qed.

Lemma mkdtemp_keeps_files repo_name w w' r q data mtime :
  RepoObj.mkdtemp_for repo_name w = (w', r) →
  stat q (fs w) = inr (File data mtime) → stat q (fs w') = inr (File data mtime).
Proof.
  intros Hmk Hq. destruct (mkdtemp_for_run _ _ _ _ Hmk) as (_ & _ & _ & Hr).
  destruct r as [file|e].
  - destruct Hr as (n & _ & Hmkdir). by apply (mkdir_keeps_files _ _ _ _ _ _ Hmkdir).
  - destruct Hr as [-> _]. done.
Qed.

(** The records are read from the repodata, the URLs also from the base
    URL. *)
Lemma record_field_same s s' record field :
  RepoObj._rpmmd_repomd s' = RepoObj._rpmmd_repomd s →
  RepoObj.record_field s' record field = RepoObj.record_field s record field.
Proof. intros Hr. unfold RepoObj.record_field, RepoObj.repomd. by rewrite Hr. Qed.

Lemma record_url_same s s' record :
  RepoObj._rpmmd_repomd s' = RepoObj._rpmmd_repomd s →
  RepoObj.baseurl s' = RepoObj.baseurl s →
  RepoObj.record_url s' record = RepoObj.record_url s record.
Proof.
  intros Hr Hb. unfold RepoObj.record_url.
  by rewrite Hb, (record_field_same s s' _ _ Hr).
Qed.

Section SecondLoad.

Context (lr : Librepo.t) (h : host) (repomd : Python.value).
Hypothesis Hresult : ∀ hd t, (Librepo.perform lr hd t).2 = Librepo.Result repomd.
Hypothesis Hadds : ∀ hd t q data mtime,
  stat q t = inr (File data mtime) →
  stat q (Librepo.perform lr hd t).1 = inr (File data mtime).

Context (pc purl fc furl : string) (pdata fdata : bytes).
Hypothesis Hhexp : Text.is_hex pc = true.
Hypothesis Hhexf : Text.is_hex fc = true.
Hypothesis Hlenp : (2 ≤ String.length pc)%nat.
Hypothesis Hlenf : (2 ≤ String.length fc)%nat.

(** With both entries in the cache, the branch for a remote repository
    requests nothing and, when it returns, has read the two entries. *)
Lemma load_remote_cached s w mp mf s' w' r :
  is_Some (RepoObj.librepo_handle s) →
  (∀ s0, RepoObj._rpmmd_repomd s0 = repomd → RepoObj.baseurl s0 = RepoObj.baseurl s →
         RepoObj.primary_checksum s0 = Return (Python.Str pc) ∧
         RepoObj.primary_url s0 = Return purl ∧
         RepoObj.filelists_checksum s0 = Return (Python.Str fc) ∧
         RepoObj.filelists_url s0 = Return furl) →
  stat (Cache.entry_path h pc) (fs w) = inr (File pdata mp) →
  stat (Cache.entry_path h fc) (fs w) = inr (File fdata mf) →
  load_remote lr h s w = (s', w', r) →
  http_log w' = http_log w ∧
  (r = Return tt → RepoObj.primary s' = Some pdata ∧ RepoObj.filelists s' = Some fdata).
Proof.
  intros [hd0 Hhd0] Hprops Hp Hf. unfold load_remote.
  unfold mbind at 1, RepoObj.Method_bind at 1, RepoObj.attribute at 1.
  unfold mbind at 1, RepoObj.Method_bind at 1, RepoObj.run at 1.
  destruct (RepoObj.mkdtemp_for (RepoObj.name s) w) as [w1 [dir|e]] eqn:Hmk.
  2:{ destruct (mkdtemp_for_run _ _ _ _ Hmk) as (_ & Hlog1 & _).
      intros [= <- <- <-]. by split. }
  destruct (mkdtemp_for_run _ _ _ _ Hmk) as (_ & Hlog1 & _).
  pose proof (mkdtemp_keeps_files _ _ _ _ _ _ _ Hmk Hp) as Hp1.
  pose proof (mkdtemp_keeps_files _ _ _ _ _ _ _ Hmk Hf) as Hf1.
  unfold mbind at 1, RepoObj.Method_bind at 1, RepoObj.assign at 1.
  unfold mbind at 1, RepoObj.Method_bind at 1, RepoObj.on_handle, RepoObj.assign at 1.
  unfold mbind at 1, RepoObj.Method_bind at 1.
  set (s1 := RepoObj.set_librepo_handle _ _).
  assert (Hhd1 : RepoObj.librepo_handle s1 = Some (RepoObj.set_destdir (Some dir) hd0)).
  { unfold s1. cbn. by rewrite Hhd0. }
  rewrite (download_metadata_result_run lr s1 w1 _ Hhd1).
  pose proof (Hresult (RepoObj.set_destdir (Some dir) hd0) (fs w1)) as Hres.
  pose proof (Hadds (RepoObj.set_destdir (Some dir) hd0) (fs w1) _ _ _ Hp1) as Hp2.
  pose proof (Hadds (RepoObj.set_destdir (Some dir) hd0) (fs w1) _ _ _ Hf1) as Hf2.
  destruct (Librepo.perform lr _ (fs w1)) as [t p]. simpl in Hres, Hp2, Hf2. subst p.
  set (s2 := RepoObj.set__rpmmd_repomd repomd s1).
  destruct (Hprops s2 eq_refl eq_refl) as (Hpc & Hpurl & Hfc & Hfurl).
  set (w2 := put_fs t w1).
  unfold mbind at 1, RepoObj.Method_bind at 1, RepoObj.property at 1. rewrite Hpc.
  unfold mbind at 1, RepoObj.Method_bind at 1, RepoObj.property at 1. rewrite Hpurl.
  unfold mbind at 1, RepoObj.Method_bind at 1, RepoObj.run at 1.
  unfold RepoObj.download_repodata_file at 1. cbn [Python.text].
  rewrite (hit_run h pc purl Hhexp w2 pdata mp Hp2).
  set (w3 := State _ _ _ _ _ _).
  unfold mbind at 1, RepoObj.Method_bind at 1, RepoObj.assign at 1.
  set (s3 := RepoObj.set_primary (Some pdata) s2).
  destruct (Hprops s3 eq_refl eq_refl) as (_ & _ & Hfc3 & Hfurl3).
  unfold mbind at 1, RepoObj.Method_bind at 1, RepoObj.property at 1. rewrite Hfc3.
  unfold mbind at 1, RepoObj.Method_bind at 1, RepoObj.property at 1. rewrite Hfurl3.
  unfold mbind at 1, RepoObj.Method_bind at 1, RepoObj.run at 1.
  unfold RepoObj.download_repodata_file at 1. cbn [Python.text].
  assert (Hf3 : ∃ mf3, stat (Cache.entry_path h fc) (fs w3) = inr (File fdata mf3)).
  { destruct (decide (pc = fc)) as [Heq|Hne].
    - subst fc. rewrite Hp2 in Hf2. injection Hf2 as -> _.
      exists (clock w2). unfold w3. simpl. by apply (stat_graft _ _ _ _ Hp2).
    - exists mf. unfold w3. simpl.
      destruct (entries_apart h fc pc Hhexf Hhexp Hlenf Hlenp (not_eq_sym Hne)) as [? ?].
      by rewrite stat_graft_aside. }
  destruct Hf3 as [mf3 Hf3].
  rewrite (hit_run h fc furl Hhexf w3 fdata mf3 Hf3).
  unfold RepoObj.assign. intros [= <- <- <-]. split; [simpl; congruence|].
  intros _. by split.
Qed.

End SecondLoad.

(** What a returning load of a repository that is not read in place leaves
    in the cache: both entries, with the bytes it holds, last modified when
    it began. *)
Lemma remote_load_entries lr h self w self' w' :
  RepoObj.download_repodata lr h self w = (self', w', Return tt) →
  RepoObj._root_path self' ≠ RepoObj.baseurl self →
  same_repo self self' ∧
  (∃ hd t, (Librepo.perform lr hd t).2 = Librepo.Result (RepoObj._rpmmd_repomd self')) ∧
  ∃ pc purl pdata fc furl fdata,
    RepoObj.primary_checksum self' = Return (Python.Str pc) ∧
    RepoObj.primary_url self' = Return purl ∧ RepoObj.primary self' = Some pdata ∧
    RepoObj.filelists_checksum self' = Return (Python.Str fc) ∧
    RepoObj.filelists_url self' = Return furl ∧ RepoObj.filelists self' = Some fdata ∧
    (Text.is_hex pc = true → Text.is_hex fc = true →
     (2 ≤ String.length pc)%nat → (2 ≤ String.length fc)%nat →
     stat (Cache.entry_path h pc) (fs w') = inr (File pdata (clock w)) ∧
     stat (Cache.entry_path h fc) (fs w') = inr (File fdata (clock w))).
Proof.
  intros Hrun Hroot. rewrite download_repodata_unfold in Hrun.
  pose proof (clean_only_clock h w) as Hclock1.
  destruct (Cache.clean h w) as [w1 [[]|e]]; [|done]. simpl in Hclock1.
  destruct (RepoObj.mkdtemp_for (RepoObj.name self) w1) as [w2 [dir|e]] eqn:Hmk; [|done].
  destruct (mkdtemp_for_run _ _ _ _ Hmk) as (Hclock2 & _).
  cbv zeta in Hrun. destruct (is_local_repo self (fs w2)).
  { destruct (load_local_returns _ _ _ _ _ Hrun) as (_ & Hlocal & _). by destruct Hroot. }
  destruct (load_remote_returns _ _ _ _ _ _ Hrun)
    as (Hsame & _ & _ & _ & _ & pc & purl & pdata & fc & furl & fdata & w3 & w4
        & Hpc & Hpurl & Hpdata & Hfc & Hfurl & Hfdata & _ & Hclock3 & Hperformed
        & Hprimary & Hfilelists).
  split; [exact Hsame|]. split; [exact Hperformed|].
  exists pc, purl, pdata, fc, furl, fdata. repeat (split; [done|]).
  intros Hhexp Hhexf Hlenp Hlenf.
  pose proof (download_returns_entry h pc purl _ _ _ Hhexp Hprimary) as Hentryp.
  pose proof (download_returns_entry h fc furl _ _ _ Hhexf Hfilelists) as Hentryf.
  pose proof (download_keeps_clock h pc purl w3 Hhexp) as Hclock4.
  rewrite Hprimary in Hclock4. simpl in Hclock4.
  assert (Hnow3 : clock w3 = clock w) by congruence.
  assert (Hnow4 : clock w4 = clock w) by congruence.
  rewrite Hnow3 in Hentryp. rewrite Hnow4 in Hentryf.
  split; [|done].
  destruct (decide (pc = fc)) as [->|Hne].
  - destruct (entry_path_snoc h fc Hhexf) as (d & c & Hsplit & Hc).
    destruct (download_cases h fc furl d c Hhexf Hsplit Hc _ _ _ Hfilelists)
      as (news & _ & [(data & mtime & Hstat & [= <-] & _)|(Hnofile & _)]).
    + rewrite Hsplit in Hentryp. rewrite Hstat in Hentryp. by injection Hentryp as <- _.
    + unfold is_file in Hnofile. rewrite Hsplit in Hentryp. by rewrite Hentryp in Hnofile.
  - pose proof (download_leaves_other_entry h pc fc furl Hhexp Hhexf Hlenp Hlenf Hne w4)
      as Hkept.
    rewrite Hfilelists in Hkept. simpl in Hkept. by rewrite Hkept.
Qed.

(** X18: loading a remote repository again requests nothing.  After a
    [download_repodata] that returned for a repository not read in place,
    with hexadecimal checksums of at least two characters, a second
    [download_repodata] of the same repository that begins within the
    expiry window of the first one asks the session for nothing, however it
    ends, and when it returns (not in place) [primary] and [filelists] hold
    the same bytes as after the first load; provided that librepo gives the
    same repodata again and leaves the files there are. *)
Theorem second_load_requests_nothing lr h self w self1 w1 pc fc window now2 self2 self2' w2' r :
  (∀ hd t, (Librepo.perform lr hd t).2 = Librepo.Result (RepoObj._rpmmd_repomd self1)) →
  (∀ hd t q data mtime, stat q t = inr (File data mtime) →
     stat q (Librepo.perform lr hd t).1 = inr (File data mtime)) →
  RepoObj.download_repodata lr h self w = (self1, w1, Return tt) →
  RepoObj._root_path self1 ≠ RepoObj.baseurl self →
  RepoObj.primary_checksum self1 = Return (Python.Str pc) →
  RepoObj.filelists_checksum self1 = Return (Python.Str fc) →
  Text.is_hex pc = true → Text.is_hex fc = true →
  (2 ≤ String.length pc)%nat → (2 ≤ String.length fc)%nat →
  Cache.expiry_seconds h = Return window →
  now2 - window ≤ clock w →
  same_repo self self2 →
  RepoObj.download_repodata lr h self2 (at_time now2 w1) = (self2', w2', r) →
  http_log w2' = http_log w1 ∧
  (r = Return tt → RepoObj._root_path self2' ≠ RepoObj.baseurl self2 →
   RepoObj.primary self2' = RepoObj.primary self1 ∧
   RepoObj.filelists self2' = RepoObj.filelists self1).
Proof.
  intros Hresult Hadds Hrun1 Hroot1 Hpc1 Hfc1 Hhexp Hhexf Hlenp Hlenf Hwin Hfresh Hsame Hrun2.
  destruct (remote_load_entries _ _ _ _ _ _ Hrun1 Hroot1)
    as (Hsame1 & _ & pc' & purl & pdata & fc' & furl & fdata
        & Hpc & Hpurl & Hpdata & Hfc & Hfurl & Hfdata & Hentries).
  rewrite Hpc in Hpc1. injection Hpc1 as ->. rewrite Hfc in Hfc1. injection Hfc1 as ->.
  destruct (Hentries Hhexp Hhexf Hlenp Hlenf) as [Hp Hf]. clear Hentries.
  rewrite Hpdata, Hfdata.
  rewrite download_repodata_unfold in Hrun2.
  pose proof (clean_cleaned h (at_time now2 w1) window Hwin) as (_ & _ & Hlog1 & _ & Hpruned).
  destruct (Cache.clean h (at_time now2 w1)) as [wa [[]|e]].
  2:{ injection Hrun2 as <- <- <-. by split. }
  simpl in Hlog1, Hpruned.
  assert (Hpa : stat (Cache.entry_path h pc) (fs wa) = inr (File pdata (clock w))).
  { destruct (pruned_file_stays _ _ _ _ Hpruned _ _ _ Hp) as [?|(_ & Hold & _)]; [done|lia]. }
  assert (Hfa : stat (Cache.entry_path h fc) (fs wa) = inr (File fdata (clock w))).
  { destruct (pruned_file_stays _ _ _ _ Hpruned _ _ _ Hf) as [?|(_ & Hold & _)]; [done|lia]. }
  destruct (RepoObj.mkdtemp_for (RepoObj.name self2) wa) as [wb [dir|e]] eqn:Hmk.
  2:{ destruct (mkdtemp_for_run _ _ _ _ Hmk) as (_ & Hlog2 & _).
      injection Hrun2 as <- <- <-. split; [congruence|done]. }
  destruct (mkdtemp_for_run _ _ _ _ Hmk) as (_ & Hlog2 & _).
  pose proof (mkdtemp_keeps_files _ _ _ _ _ _ _ Hmk Hpa) as Hpb.
  pose proof (mkdtemp_keeps_files _ _ _ _ _ _ _ Hmk Hfa) as Hfb.
  cbv zeta in Hrun2. destruct (is_local_repo self2 (fs wb)).
  - destruct (load_local_quiet lr _ _ _ _ _ Hrun2) as [_ Hlog3]. simpl in Hlog3.
    split; [congruence|]. intros -> Hroot2.
    destruct (load_local_returns _ _ _ _ _ Hrun2) as (_ & Hlocal & _). by destruct Hroot2.
  - set (s := RepoObj.set_librepo_handle _ self2) in Hrun2.
    destruct (load_remote_cached lr h (RepoObj._rpmmd_repomd self1) Hresult Hadds
                pc purl fc furl pdata fdata Hhexp Hhexf Hlenp Hlenf
                s wb (clock w) (clock w) self2' w2' r) as [Hlog3 Hread]; try done.
    + intros s0 Hrepomd Hbase.
      assert (Hbase1 : RepoObj.baseurl s0 = RepoObj.baseurl self1).
      { rewrite Hbase. unfold s. cbn. destruct Hsame as (_ & -> & _).
        by destruct Hsame1 as (_ & -> & _). }
      unfold RepoObj.primary_checksum, RepoObj.primary_url, RepoObj.filelists_checksum,
        RepoObj.filelists_url in *.
      by rewrite !(record_field_same self1 s0 _ _ Hrepomd),
                 !(record_url_same self1 s0 _ Hrepomd Hbase1).
    + split; [congruence|]. intros Hr _. by apply Hread.
Qed.

Lemma second_load_requests_nothing_witness :
  let first := RepoObj.download_repodata working_library serving_host url_repo
                 (ample_world 1000 repo_disk) in
  let second := RepoObj.download_repodata working_library serving_host url_repo
                  (at_time 2000 first.1.2) in
  first.2 = Return tt ∧ second.2 = Return tt ∧
  http_log second.1.2 = http_log first.1.2 ∧
  RepoObj.primary second.1.1 = RepoObj.primary first.1.1 ∧
  RepoObj.filelists second.1.1 = RepoObj.filelists first.1.1.
Proof.
  intros first second.
  assert (Hfirst : first = (first.1.1, first.1.2, Return tt)) by (vm_compute; reflexivity).
  assert (Hsecond : second = (second.1.1, second.1.2, Return tt))
    by (vm_compute; reflexivity).
  destruct (second_load_requests_nothing working_library serving_host url_repo
              (ample_world 1000 repo_disk) first.1.1 first.1.2 "abcdef" "0123ff"
              604800 2000 url_repo second.1.1 second.1.2 (Return tt)) as [Hlog Hread].
  - intros hd t. vm_compute. reflexivity.
  - intros hd t q data mtime Hq. exact Hq.
  - exact Hfirst.
  - vm_compute. discriminate.
  - vm_compute. reflexivity.
  - vm_compute. reflexivity.
  - reflexivity.
  - reflexivity.
  - simpl. lia.
  - simpl. lia.
  - vm_compute. reflexivity.
  - simpl. lia.
  - by repeat split.
  - exact Hsecond.
  - destruct (Hread eq_refl) as [Hp Hf]; [vm_compute; discriminate|].
    split; [by rewrite Hfirst|]. split; [by rewrite Hsecond|].
    split; [exact Hlog|]. split; [exact Hp|exact Hf].
Defined.

(** The two loads, evaluated: the second one finds both files in the cache,
    requests nothing and makes two more temporary directories. *)
Example download_repodata_twice :
  let first := RepoObj.download_repodata working_library serving_host url_repo
                 (ample_world 1000 repo_disk) in
  let second := RepoObj.download_repodata working_library serving_host url_repo
                  (at_time 2000 first.1.2) in
  second.2 = Return tt ∧
  http_log second.1.2 = ["http://example.invalid/dummy/repodata/filelists.xml.gz";
                         "http://example.invalid/dummy/repodata/primary.xml.gz"]%string ∧
  RepoObj.primary second.1.1 = Some [Byte.x1f; Byte.x8b; Byte.x08] ∧
  stat (Cache.entry_path serving_host "abcdef") (fs second.1.2) =
    inr (File [Byte.x1f; Byte.x8b; Byte.x08] 2000) ∧
  RepoObj._root_path second.1.1 = Some "/var/tmp/rpmdeplint-m4cz_01vdummy"%string ∧
  tmp_names second.1.2 = [].
Proof. repeat split; vm_compute; reflexivity. Qed.
